(** * Waypoint index blocks: a shallow embedding of [src/main.ts]

    The plugin keeps an auto-generated table of a folder's children inside
    the folder note, between a begin and an end delimiter, and regenerates
    it when the vault changes.  This file embeds the marker scan, the block
    splice, the folder-note test, the ignore filter, the table renderer and
    the upward propagation, and settles the properties stated about them.

    Conventions.
    - A JavaScript string is a [string]; a character stands for a UTF-16
      code unit and the model keeps the code units below 256.
    - An object reference ([file.parent], [node.children]) is the path of
      the object; the vault's [fileMap] resolves it.  A reference that
      resolves to nothing plays the role of [null].
    - An exception is a [Throw] of the [Outcome] monad.
    - [async] calls are sequenced in program order. *)

From Stdlib Require Import ZArith Ascii String List Bool Lia Permutation Sorted.
From Stdlib Require DecimalString DecimalPos.
From stdpp Require Import base option list gmap strings.

Import ListNotations.
Local Open Scope Z_scope.
Local Open Scope list_scope.

(** ** JavaScript strings and arrays *)

Module Js.

Definition LF : ascii := ascii_of_nat 10.

(** [s.split(LF)]: the pieces between line feeds; never empty. *)
Fixpoint split (s : string) : list string :=
  match s with
  | EmptyString => [EmptyString]
  | String c s' =>
      if Ascii.eqb c LF then EmptyString :: split s'
      else match split s' with
           | [] => [String c EmptyString]
           | l :: ls => String c l :: ls
           end
  end.

(** [lines.join(LF)]. *)
Fixpoint join (lines : list string) : string :=
  match lines with
  | [] => EmptyString
  | [l] => l
  | l :: ls => l +:+ String LF (join ls)
  end.

(** [array.join(sep)] for an array of strings. *)
Fixpoint joinWith (sep : string) (items : list string) : string :=
  match items with
  | [] => EmptyString
  | [x] => x
  | x :: xs => x +:+ sep +:+ joinWith sep xs
  end.

(** White space and line terminators stripped by [trim], among the code
    units below 256: TAB, LF, VT, FF, CR, SP and NBSP. *)
Definition isWhiteSpace (c : ascii) : bool :=
  match nat_of_ascii c with
  | 9%nat | 10%nat | 11%nat | 12%nat | 13%nat | 32%nat | 160%nat => true
  | _ => false
  end.

Fixpoint trimStart (s : string) : string :=
  match s with
  | EmptyString => EmptyString
  | String c s' => if isWhiteSpace c then trimStart s' else s
  end.

Fixpoint trimEnd (s : string) : string :=
  match s with
  | EmptyString => EmptyString
  | String c s' =>
      match trimEnd s' with
      | EmptyString => if isWhiteSpace c then EmptyString else String c EmptyString
      | t => String c t
      end
  end.

(** [s.trim()]. *)
Definition trim (s : string) : string := trimEnd (trimStart s).

(** [s.startsWith(p)]. *)
Definition startsWith (s p : string) : bool := String.prefix p s.

(** [s.endsWith(p)]: some suffix of [s] is [p]. *)
Fixpoint endsWith (s p : string) : bool :=
  String.eqb s p
  || match s with
     | EmptyString => false
     | String _ s' => endsWith s' p
     end.

(** [s.includes(sub)]: [sub] occurs in [s] at some position. *)
Fixpoint includes (s sub : string) : bool :=
  String.prefix sub s
  || match s with
     | EmptyString => false
     | String _ s' => includes s' sub
     end.

(** [s.replaceAll(c, by)] for a one-character pattern and a replacement
    without [$]. *)
Fixpoint replaceAll (s : string) (c : ascii) (by_ : string) : string :=
  match s with
  | EmptyString => EmptyString
  | String d s' =>
      if Ascii.eqb d c then by_ +:+ replaceAll s' c by_
      else String d (replaceAll s' c by_)
  end.

(** [array.splice(start, deleteCount, item)] for [start] within the array:
    the array after the call. *)
Definition splice {A} (l : list A) (start deleteCount : nat) (item : A) : list A :=
  take start l ++ item :: drop (start + deleteCount) l.

(** What a template literal prints for a value that is a string, [null]
    or [undefined]. *)
Inductive Value : Type :=
| Undefined
| Null
| Str (s : string).

Definition toString (v : Value) : string :=
  match v with
  | Undefined => "undefined"
  | Null => "null"
  | Str s => s
  end.

(** Exceptions of the runtime met in this program. *)
Inductive Error : Type :=
| SyntaxError
| TypeError.

Inductive Outcome (A : Type) : Type :=
| Return (a : A)
| Throw (e : Error).
Arguments Return {A} a.
Arguments Throw {A} e.

#[global] Instance Outcome_ret : MRet Outcome := @Return.

#[global] Instance Outcome_bind : MBind Outcome := fun A B k m =>
  match m with
  | Return a => k a
  | Throw e => Throw e
  end.

#[global] Instance Outcome_fmap : FMap Outcome := fun A B f m =>
  match m with
  | Return a => Return (f a)
  | Throw e => Throw e
  end.

End Js.

Import Js.

(** ** Marker kinds and settings *)

Inductive WaypointType : Type :=
| Waypoint
| Landmark.

(** The enum's string value, as it is spliced into messages. *)
Definition WaypointType_value (t : WaypointType) : string :=
  match t with
  | Waypoint => "waypoint"
  | Landmark => "landmark"
  end.

Definition INSIDE_FOLDER : string := "INSIDE_FOLDER".

Record WaypointSettings : Type := {
  waypointFlag : string;
  landmarkFlag : string;
  showFolderNotes : bool;
  useWikiLinks : bool;
  useFrontMatterTitle : bool;
  folderNoteType : string;
  folderNoteName : string;
  ignorePaths : list string
}.

Definition DEFAULT_SETTINGS : WaypointSettings := {|
  waypointFlag := "%% Waypoint %%";
  landmarkFlag := "%% Landmark %%";
  showFolderNotes := false;
  useWikiLinks := true;
  useFrontMatterTitle := false;
  folderNoteType := INSIDE_FOLDER;
  folderNoteName := EmptyString;
  ignorePaths := ["_attachments"]
|}.

Definition BEGIN_WAYPOINT : string := "%% Begin Waypoint %%".
Definition END_WAYPOINT : string := "%% End Waypoint %%".
Definition BEGIN_LANDMARK : string := "%% Begin Landmark %%".
Definition END_LANDMARK : string := "%% End Landmark %%".

(** [getWaypointBounds]: the begin and end delimiters of a kind.  The
    source's third branch, [[null, null]], needs a flag outside the enum. *)
Definition getWaypointBounds (flag : WaypointType) : string * string :=
  match flag with
  | Waypoint => (BEGIN_WAYPOINT, END_WAYPOINT)
  | Landmark => (BEGIN_LANDMARK, END_LANDMARK)
  end.

(** [getWaypointFlag]: the configured trigger flag of a kind. *)
Definition getWaypointFlag (settings : WaypointSettings) (type : WaypointType) : string :=
  match type with
  | Waypoint => waypointFlag settings
  | Landmark => landmarkFlag settings
  end.

(** The test of the settings tab before it stores a flag (lines 805, 822). *)
Definition acceptedFlag (value : string) : bool :=
  negb (String.eqb value EmptyString)
  && startsWith value "%%"
  && endsWith value "%%"
  && negb (String.eqb value "%%")
  && negb (String.eqb value "%%%")
  && negb (String.eqb value "%%%%").

(** ** The marker scan and the splice of [updateWaypoint] (lines 237-280) *)

Record Bounds : Type := {
  waypointStart : option nat;
  waypointEnd : option nat;
  isCallout : bool;
  initialWaypoint : bool
}.

Definition noBounds : Bounds :=
  {| waypointStart := None; waypointEnd := None;
     isCallout := false; initialWaypoint := false |}.

(** The [for] loop of lines 251-263 from index [i] on, over the lines that
    are left; [continue] and falling through go to the next line, [break]
    returns. *)
Fixpoint scanBounds (waypointFlag beginWaypoint endWaypoint : string)
    (i : nat) (lines : list string) (b : Bounds) : Bounds :=
  match lines with
  | [] => b
  | line :: rest =>
      let trimmed := trim line in
      if bool_decide (waypointStart b = None)
         && (includes trimmed waypointFlag || includes trimmed beginWaypoint)
      then
        scanBounds waypointFlag beginWaypoint endWaypoint (S i) rest
          {| waypointStart := Some i;
             waypointEnd := waypointEnd b;
             isCallout := startsWith trimmed ">";
             initialWaypoint := includes trimmed waypointFlag |}
      else if negb (bool_decide (waypointStart b = None))
              && String.eqb trimmed endWaypoint
      then
        {| waypointStart := waypointStart b;
           waypointEnd := Some i;
           isCallout := isCallout b;
           initialWaypoint := initialWaypoint b |}
      else scanBounds waypointFlag beginWaypoint endWaypoint (S i) rest b
  end.

(** The callout label of line 272. *)
Definition calloutLabel (flagType : WaypointType) : string :=
  match flagType with
  | Landmark => "[!landmark]"
  | Waypoint => "[!waypoint]"
  end.

(** The block text of line 238. *)
Definition waypointBlock (flagType : WaypointType) (fileTree : Value) : string :=
  let '(beginWaypoint, endWaypoint) := getWaypointBounds flagType in
  beginWaypoint +:+ String LF (toString fileTree)
    +:+ String LF (String LF endWaypoint).

(** Lines 269-279: the block as it is spliced in, given what the scan found. *)
Definition waypointToInsert (flagType : WaypointType) (fileTree : Value) (b : Bounds) : string :=
  let waypoint := waypointBlock flagType fileTree in
  if isCallout b then
    let waypoint :=
      if initialWaypoint b then calloutLabel flagType +:+ String LF waypoint
      else waypoint in
    join (map (fun line => ">" +:+ line) (split waypoint))
  else waypoint.

(** Lines 237-280 on the text of the note: the text that is written back,
    or [None] when no start line is found and the call returns early. *)
Definition updateWaypointText (settings : WaypointSettings) (flagType : WaypointType)
    (fileTree : Value) (text : string) : option string :=
  let '(beginWaypoint, endWaypoint) := getWaypointBounds flagType in
  let waypointFlag := getWaypointFlag settings flagType in
  let lines := split text in
  let b := scanBounds waypointFlag beginWaypoint endWaypoint 0 lines noBounds in
  match waypointStart b with
  | None => None
  | Some start =>
      let deleteCount :=
        match waypointEnd b with
        | Some e => (e - start + 1)%nat
        | None => 1%nat
        end in
      Some (join (splice lines start deleteCount (waypointToInsert flagType fileTree b)))
  end.

(** [printError] on the text of the note (lines 179-192): the index of the
    flag line that is kept is the one of the last assignment. *)
Fixpoint findFlagLine (pointFlag : string) (i : nat) (lines : list string)
    (waypointIndex : option nat) : option nat :=
  match lines with
  | [] => waypointIndex
  | line :: rest =>
      let trimmed := trim line in
      findFlagLine pointFlag (S i) rest
        (if includes trimmed pointFlag then Some i else waypointIndex)
  end.

Definition printErrorText (settings : WaypointSettings) (error : string)
    (flagType : WaypointType) (text : string) : option string :=
  let lines := split text in
  let pointFlag := getWaypointFlag settings flagType in
  match findFlagLine pointFlag 0 lines None with
  | None => None
  | Some waypointIndex => Some (join (splice lines waypointIndex 1 error))
  end.

(** ** The vault: files, folders, note text and front-matter *)

(** [stat.ctime], in milliseconds. *)
Record FileStats : Type := { ctime : Z }.

(** A [TFile]; [file_parent] refers to the folder it lies in. *)
Record TFile : Type := {
  file_name : string;
  file_path : string;
  basename : string;
  extension : string;
  file_parent : option string;
  stat : option FileStats
}.

(** A [TFolder]; [isRoot] is the answer of [isRoot()], [children] refers to
    the files and folders in it. *)
Record TFolder : Type := {
  folder_name : string;
  folder_path : string;
  folder_parent : option string;
  isRoot : bool;
  children : list string
}.

Inductive TAbstractFile : Type :=
| File (file : TFile)
| Folder (folder : TFolder).

Definition name (node : TAbstractFile) : string :=
  match node with
  | File f => file_name f
  | Folder d => folder_name d
  end.

Definition path (node : TAbstractFile) : string :=
  match node with
  | File f => file_path f
  | Folder d => folder_path d
  end.

Definition parent (node : TAbstractFile) : option string :=
  match node with
  | File f => file_parent f
  | Folder d => folder_parent d
  end.

(** Front-matter values: text, [null] and arrays.  Numbers and booleans of
    the YAML header are not modelled. *)
#[warnings="-register-all"]
Inductive YamlValue : Type :=
| YString (s : string)
| YNull
| YArray (items : list YamlValue).

(** [String(v)]; inside an array, [join] prints [null] as the empty string. *)
Fixpoint YamlValue_toString (v : YamlValue) : string :=
  match v with
  | YString s => s
  | YNull => "null"
  | YArray items =>
      joinWith ","
        (map (fun x => match x with
                       | YNull => EmptyString
                       | _ => YamlValue_toString x
                       end) items)
  end.

(** [array.join(sep)] for an array of front-matter values. *)
Definition joinValues (sep : string) (items : list YamlValue) : string :=
  joinWith sep
    (map (fun x => match x with
                   | YNull => EmptyString
                   | _ => YamlValue_toString x
                   end) items).

(** The vault: the objects by path, the text of the notes by path, and the
    front-matter the metadata cache holds for a path. *)
Record Vault : Type := {
  fileMap : gmap string TAbstractFile;
  data : gmap string string;
  metadataCache : gmap string (gmap string YamlValue)
}.

Definition getAbstractFileByPath (v : Vault) (p : string) : option TAbstractFile :=
  fileMap v !! p.

(** [node.parent]: the folder the reference resolves to, if any. *)
Definition parentOf (v : Vault) (node : TAbstractFile) : option TFolder :=
  match parent node with
  | None => None
  | Some p =>
      match fileMap v !! p with
      | Some (Folder d) => Some d
      | _ => None
      end
  end.

(** [node.children] as objects ([[]] for a file); a reference that
    resolves to nothing is passed over. *)
Definition childrenOf (v : Vault) (node : TAbstractFile) : list TAbstractFile :=
  match node with
  | File _ => []
  | Folder d => omap (fun p => fileMap v !! p) (children d)
  end.

(** [vault.read] and [vault.cachedRead]; a note without stored text reads
    as the empty note. *)
Definition read (v : Vault) (file : TFile) : string :=
  default EmptyString (data v !! file_path file).

(** [vault.modify]. *)
Definition modify (v : Vault) (file : TFile) (text : string) : Vault :=
  {| fileMap := fileMap v;
     data := <[file_path file := text]> (data v);
     metadataCache := metadataCache v |}.

(** ** The runtime's regular expressions *)

(** [new RegExp(source)] gives [None] where the runtime throws a
    [SyntaxError]; [String_match s r] is the truth value of [s.match(r)]. *)
Class RegExpEngine : Type := {
  RegExp : Type;
  RegExp_new : string -> option RegExp;
  String_match : string -> RegExp -> bool
}.

(** ** Ordering of children (lines 349-355) *)

(** [a.stat?.ctime]: folders carry no [stat]. *)
Definition ctimeOf (a : TAbstractFile) : option Z :=
  match a with
  | File f => ctime <$> stat f
  | Folder _ => None
  end.

(** [!a.stat?.ctime]: no time, or the time is [0]. *)
Definition lacksCtime (a : TAbstractFile) : bool :=
  match ctimeOf a with
  | None => true
  | Some t => t =? 0
  end.

(** [new Date(value).getTime()]: the time value, or [None] for [NaN] when
    [value] is outside the range of dates. *)
Definition Date_getTime (value : Z) : option Z :=
  if Z.abs value <=? 8640000000000000 then Some value else None.

(** The comparator handed to [sort]; [None] is [NaN]. *)
Definition compareChildren (a b : TAbstractFile) : option Z :=
  if lacksCtime a then Some (-1)
  else if lacksCtime b then Some 1
  else
    match Date_getTime (default 0 (ctimeOf b)), Date_getTime (default 0 (ctimeOf a)) with
    | Some tb, Some ta => Some (tb - ta)
    | _, _ => None
    end.

(** [Array.prototype.sort]: a [NaN] from the comparator counts as [0]; the
    order is the one of a stable insertion sort, each element going before
    the first element it compares below. *)
Definition SortCompare {A} (comparefn : A -> A -> option Z) (x y : A) : Z :=
  default 0 (comparefn x y).

Fixpoint sortInsert {A} (comparefn : A -> A -> option Z) (x : A) (sorted : list A) : list A :=
  match sorted with
  | [] => [x]
  | y :: rest =>
      if SortCompare comparefn x y <? 0 then x :: y :: rest
      else y :: sortInsert comparefn x rest
  end.

Definition Array_sort {A} (comparefn : A -> A -> option Z) (l : list A) : list A :=
  foldl (fun sorted x => sortInsert comparefn x sorted) [] l.

Section Plugin.

Context {engine : RegExpEngine}.

(** The row of a child that is a file (lines 412-505 for a [TFile]): its
    cells are built from [Date] in local time and from front-matter values
    of any type, and the text is taken as given. *)
Variable fileRow : Vault -> WaypointSettings -> list YamlValue -> TFile -> string.

Variable settings : WaypointSettings.

(** *** [ignorePath] *)

Fixpoint ignorePath_forEach (path : string) (patterns : list string) (found : bool)
    : Outcome bool :=
  match patterns with
  | [] => Return found
  | comparePath :: rest =>
      if String.eqb comparePath EmptyString then ignorePath_forEach path rest found
      else
        match RegExp_new comparePath with
        | None => Throw SyntaxError
        | Some regex =>
            ignorePath_forEach path rest
              (if String_match path regex then true else found)
        end
  end.

Definition ignorePath (path : string) : Outcome bool :=
  ignorePath_forEach path (ignorePaths settings) false.

(** *** [getCleanParentPath] and [isFolderNote] *)

Definition getCleanParentPath (v : Vault) (node : TAbstractFile) : Outcome string :=
  match parentOf v node with
  | None => Throw TypeError
  | Some p => Return (if isRoot p then EmptyString else folder_path p +:+ "/")
  end.

Definition isFolderNote (v : Vault) (file : TFile) : Outcome bool :=
  if String.eqb (folderNoteType settings) INSIDE_FOLDER then
    if String.eqb (folderNoteName settings) EmptyString then
      match parentOf v (File file) with
      | None => Throw TypeError
      | Some p => Return (String.eqb (basename file) (folder_name p))
      end
    else Return (String.eqb (basename file) (folderNoteName settings))
  else
    match parentOf v (File file) with
    | Some p =>
        clean ← getCleanParentPath v (File file);
        Return (match getAbstractFileByPath v (clean +:+ basename file) with
                | Some (Folder _) => true
                | _ => false
                end)
    | None => Return false
    end.

(** The folder note that [locateParentPoint] looks up for a folder (lines
    618-625). *)
Definition folderNoteOf (v : Vault) (folder : TAbstractFile) : option TAbstractFile :=
  if String.eqb (folderNoteType settings) INSIDE_FOLDER then
    getAbstractFileByPath v (path folder +:+ "/" +:+ name folder +:+ ".md")
  else
    match parentOf v folder with
    | Some p =>
        getAbstractFileByPath v
          ((if isRoot p then EmptyString else folder_path p +:+ "/")
             +:+ name folder +:+ ".md")
    | None => None
    end.

(** *** [getFileTreeRepresentation] *)

(** The loop of lines 360-374: the children that get a row, and the last
    folder note met. *)
Fixpoint filterChildren (v : Vault) (children : list TAbstractFile)
    (filtered : list TAbstractFile) (folderNote : option TFile)
    : Outcome (list TAbstractFile * option TFile) :=
  match children with
  | [] => Return (filtered, folderNote)
  | child :: rest =>
      ignored ← ignorePath (path child);
      if (ignored : bool) then filterChildren v rest filtered folderNote
      else
        match child with
        | File f =>
            isNote ← isFolderNote v f;
            if (isNote : bool) then
              if showFolderNotes settings
              then filterChildren v rest (filtered ++ [child]) (Some f)
              else filterChildren v rest filtered (Some f)
            else filterChildren v rest (filtered ++ [child]) folderNote
        | Folder _ => filterChildren v rest (filtered ++ [child]) folderNote
        end
  end.

(** Lines 377-390: the heading and the line of creation links. *)
Definition tableHeading (v : Vault) (rootNode : TFolder) (node : TAbstractFile) : string :=
  let out := "# " +:+ folder_name rootNode in
  if String.eqb (folderNoteType settings) INSIDE_FOLDER then
    if useWikiLinks settings then
      out +:+ String LF ("[[" +:+ path node +:+ "/new file.md\|new file]] | [["
              +:+ path node +:+ "/new folder/new folder.md\|new folder]]")
          +:+ String LF EmptyString
    else
      out +:+ String LF ("[new file](" +:+ path node +:+ "/new file.md) | [new folder]("
              +:+ path node +:+ "/new folder/README.md)")
          +:+ String LF EmptyString
  else
    match parentOf v node with
    | Some _ =>
        out +:+ String LF ("[[" +:+ path node +:+ "/new file.md\|new file]]")
            +:+ String LF EmptyString
    | None => out
    end.

(** Lines 393-406: the column keys. *)
Definition columnKeys (v : Vault) (folderNote : option TFile) (node : TAbstractFile)
    : list YamlValue :=
  let frontmatter :=
    metadataCache v !! (match folderNote with
                        | Some f => file_path f
                        | None => path node
                        end) in
  [YString "TITLE"; YString "DATE"]
  ++ match frontmatter with
     | Some fm =>
         match fm !! "keys" with
         | Some (YArray keys) => keys
         | _ => []
         end
     | None => []
     end.

(** Line 408: the header row and the separator row. *)
Definition tableHeader (keyList : list YamlValue) : string :=
  String LF ("|" +:+ joinValues "|" keyList +:+ "|")
    +:+ String LF ("|" +:+ joinWith "|" (map (fun _ => "---") keyList) +:+ "|")
    +:+ String LF EmptyString.

Definition String_concat (pieces : list string) : string :=
  foldr String.append EmptyString pieces.

(** The path a folder's title links to (lines 437-452). *)
Definition folderLinkPath (v : Vault) (node : TAbstractFile) (child : TFolder) : string :=
  let inFolder :=
    if String.eqb (folderNoteName settings) EmptyString
    then folder_path child +:+ "/" +:+ folder_name child +:+ ".md"
    else folder_path child +:+ "/" +:+ folderNoteName settings +:+ ".md" in
  if String.eqb (folderNoteType settings) INSIDE_FOLDER then inFolder
  else
    match parentOf v node with
    | Some _ => inFolder
    | None => EmptyString
    end.

(** One cell of the row of a child that is a folder: the title cell is a
    link, every other cell is empty (a folder has no front-matter). *)
Definition folderCell (v : Vault) (node : TAbstractFile) (child : TFolder)
    (key : YamlValue) : string :=
  match key with
  | YString k =>
      if String.eqb k "TITLE" || String.eqb k "Title" || String.eqb k "title" then
        let path := folderLinkPath v node child in
        if useWikiLinks settings
        then "|[[" +:+ path +:+ "\|" +:+ folder_name child +:+ "]]"
        else "|[" +:+ folder_name child +:+ "]("
             +:+ replaceAll path " " "%20" +:+ ")"
      else "|"
  | _ => "|"
  end.

(** The row of one child (lines 412-505). *)
Definition tableRow (v : Vault) (node : TAbstractFile) (keyList : list YamlValue)
    (child : TAbstractFile) : string :=
  match child with
  | File f => fileRow v settings keyList f
  | Folder d =>
      String_concat (map (folderCell v node d) keyList) +:+ "|" +:+ String LF EmptyString
  end.

(** [null] is [None]; [rootNode] and [node] are [None] for [null]. *)
Definition getFileTreeRepresentation (v : Vault) (rootNode : option TFolder)
    (node : option TAbstractFile) : Outcome (option string) :=
  match node with
  | None => Return None
  | Some node =>
      ignored ← ignorePath (path node);
      if (ignored : bool) then Return None
      else
        let children := Array_sort compareChildren (childrenOf v node) in
        '(children, folderNote) ← filterChildren v children [] None;
        match rootNode with
        | None => Throw TypeError
        | Some rootNode =>
            let keyList := columnKeys v folderNote node in
            Return (Some (tableHeading v rootNode node
                          +:+ tableHeader keyList
                          +:+ String_concat
                                (map (tableRow v node keyList) children)))
        end
  end.

(** *** [updateWaypoint], [printError] *)

Definition renderedValue (r : option string) : Value :=
  match r with
  | None => Null
  | Some s => Str s
  end.

(** Lines 228-236: the table of the folder the note stands for, as the
    template of line 238 will print it. *)
Definition renderFolderOf (v : Vault) (file : TFile) : Outcome Value :=
  if String.eqb (folderNoteType settings) INSIDE_FOLDER then
    renderedValue <$>
      getFileTreeRepresentation v (parentOf v (File file))
        (Folder <$> parentOf v (File file))
  else
    clean ← getCleanParentPath v (File file);
    match getAbstractFileByPath v (clean +:+ basename file) with
    | Some (Folder folder) =>
        renderedValue <$>
          getFileTreeRepresentation v (parentOf v (File file)) (Some (Folder folder))
    | _ => Return Undefined
    end.

Definition updateWaypoint (v : Vault) (file : TFile) (flagType : WaypointType)
    : Outcome Vault :=
  fileTree ← renderFolderOf v file;
  match updateWaypointText settings flagType fileTree (read v file) with
  | None => Return v
  | Some text => Return (modify v file text)
  end.

Definition printError (v : Vault) (file : TFile) (error : string)
    (flagType : WaypointType) : Vault :=
  match printErrorText settings error flagType (read v file) with
  | None => v
  | Some text => modify v file text
  end.

(** *** [locateParentPoint], [updateParentPoint] *)

(** Lines 626-637: the marker test on the folder note of one folder. *)
Definition parentPointAt (v : Vault) (folder : TAbstractFile)
    : option (WaypointType * TFile) :=
  match folderNoteOf v folder with
  | Some (File folderNote) =>
      let text := read v folderNote in
      if includes text BEGIN_WAYPOINT || includes text (waypointFlag settings)
      then Some (Waypoint, folderNote)
      else if includes text BEGIN_LANDMARK || includes text (landmarkFlag settings)
      then Some (Landmark, folderNote)
      else None
  | _ => None
  end.

(** The [while (folder)] loop; [None] when the fuel runs out, [Some None]
    for [[null, null]]. *)
Fixpoint locateParentPoint_while (fuel : nat) (v : Vault) (folder : option TAbstractFile)
    : option (option (WaypointType * TFile)) :=
  match fuel with
  | O => None
  | S fuel =>
      match folder with
      | None => Some None
      | Some folder =>
          match parentPointAt v folder with
          | Some found => Some (Some found)
          | None => locateParentPoint_while fuel v (Folder <$> parentOf v folder)
          end
      end
  end.

Definition locateParentPoint (fuel : nat) (v : Vault) (node : TAbstractFile)
    (includeCurrentNode : bool) : option (option (WaypointType * TFile)) :=
  locateParentPoint_while fuel v
    (if includeCurrentNode then Some node else Folder <$> parentOf v node).

(** The vault after the call and of the calls it starts, with the notes
    [updateWaypoint] was called on, in order.  Neither call of lines
    604-605 is awaited: what they throw is dropped. *)
Fixpoint updateParentPoint (fuel : nat) (v : Vault) (node : TAbstractFile)
    (includeCurrentNode : bool) : option (Vault * list (WaypointType * TFile)) :=
  match fuel with
  | O => None
  | S fuel' =>
      match locateParentPoint fuel v node includeCurrentNode with
      | None => None
      | Some None => Some (v, [])
      | Some (Some (parentFlag, parentPoint)) =>
          let v' :=
            match updateWaypoint v parentPoint parentFlag with
            | Return v' => v'
            | Throw _ => v
            end in
          match parentOf v' (File parentPoint) with
          | None => Some (v', [(parentFlag, parentPoint)])
          | Some p =>
              match updateParentPoint fuel' v' (Folder p) false with
              | None => None
              | Some (v'', updated) => Some (v'', (parentFlag, parentPoint) :: updated)
              end
          end
      end
  end.

(** *** [detectFlag] *)

Definition rootError (flagType : WaypointType) : string :=
  "%% Error: Cannot create a " +:+ WaypointType_value flagType
    +:+ " in the root folder of your vault. For more information, check the instructions [here](https://github.com/IdreesInc/Waypoint) %%".

Definition invalidNoteError (flagType : WaypointType) : string :=
  "%% Error: Cannot create a " +:+ WaypointType_value flagType
    +:+ " in a note that's not the folder note. For more information, check the instructions [here](https://github.com/IdreesInc/Waypoint) %%".

(** What [detectFlag] does once a line with the flag is met (lines
    136-149).  [FolderNoteType.OutsideFolder] is not a member of the enum,
    so the second argument of [updateParentPoint] is [false]. *)
Definition detectFlag_found (fuel : nat) (v : Vault) (file : TFile)
    (flagType : WaypointType)
    : option (Outcome (Vault * list (WaypointType * TFile))) :=
  match isFolderNote v file with
  | Throw e => Some (Throw e)
  | Return true =>
      match updateWaypoint v file flagType with
      | Throw e => Some (Throw e)
      | Return v' =>
          match parentOf v' (File file) with
          | None => Some (Throw TypeError)
          | Some p =>
              match updateParentPoint fuel v' (Folder p) false with
              | None => None
              | Some (v'', updated) => Some (Return (v'', (flagType, file) :: updated))
              end
          end
      end
  | Return false =>
      match parentOf v (File file) with
      | None => Some (Throw TypeError)
      | Some p =>
          if isRoot p
          then Some (Return (printError v file (rootError flagType) flagType, []))
          else Some (Return (printError v file (invalidNoteError flagType) flagType, []))
      end
  end.

(** The loop of lines 134-151 over the lines that are left. *)
Fixpoint detectFlag_for (fuel : nat) (v : Vault) (file : TFile) (flagType : WaypointType)
    (lines : list string) : option (Outcome (Vault * list (WaypointType * TFile))) :=
  match lines with
  | [] => Some (Return (v, []))
  | line :: rest =>
      if includes (trim line) (getWaypointFlag settings flagType)
      then detectFlag_found fuel v file flagType
      else detectFlag_for fuel v file flagType rest
  end.

Definition detectFlag (fuel : nat) (v : Vault) (file : TFile) (flagType : WaypointType)
    : option (Outcome (Vault * list (WaypointType * TFile))) :=
  detectFlag_for fuel v file flagType (split (read v file)).

End Plugin.

(** * Helpers of the renderer, path helper and settings tab *)

(** ** [addZero] (lines 523-530) *)

(** [dt.toString()] for an integer that prints in decimal notation (below
    [10^21] in absolute value). *)
Definition Number_toString (n : Z) : string :=
  DecimalString.NilZero.string_of_int (Z.to_int n).

(** [addZero] on what the getters of [Date] return: an integer, or [NaN]
    ([None]) for an invalid date. *)
Definition addZero (dt : option Z) : string :=
  let dtStr :=
    match dt with
    | Some n => Number_toString n
    | None => "NaN"
    end in
  if (String.length dtStr =? 1)%nat then "0" +:+ dtStr else dtStr.

(** ** [convertLink] (lines 532-541) *)

(** The expansion of a replacement text by [String.prototype.replace] for a
    search value that is a string: [$$] is a dollar sign, [$&] the matched
    text, [$`] and [$'] the text before and after it; there are no captures,
    so every other [$] stands for itself. *)
Fixpoint GetSubstitution (matched before after template : string) : string :=
  match template with
  | EmptyString => EmptyString
  | String c rest =>
      if Ascii.eqb c "$" then
        match rest with
        | EmptyString => String c EmptyString
        | String d rest' =>
            if Ascii.eqb d "$" then
              String "$" (GetSubstitution matched before after rest')
            else if Ascii.eqb d "&" then
              matched +:+ GetSubstitution matched before after rest'
            else if Ascii.eqb d "`" then
              before +:+ GetSubstitution matched before after rest'
            else if Ascii.eqb d "'" then
              after +:+ GetSubstitution matched before after rest'
            else String c (GetSubstitution matched before after rest)
        end
      else String c (GetSubstitution matched before after rest)
  end.

(** The text after the first [n] code units. *)
Fixpoint String_drop (n : nat) (s : string) : string :=
  match n, s with
  | O, _ => s
  | S n', String _ s' => String_drop n' s'
  | S _, EmptyString => EmptyString
  end.

(** The text before and the text after the first occurrence of
    [searchValue]. *)
Fixpoint cutAtFirst (s searchValue : string) : option (string * string) :=
  if String.prefix searchValue s
  then Some (EmptyString, String_drop (String.length searchValue) s)
  else
    match s with
    | EmptyString => None
    | String c s' =>
        match cutAtFirst s' searchValue with
        | Some (before, after) => Some (String c before, after)
        | None => None
        end
    end.

(** [s.replace(searchValue, replaceValue)] for two strings: the first
    occurrence is replaced. *)
Definition String_replace (s searchValue replaceValue : string) : string :=
  match cutAtFirst s searchValue with
  | Some (before, after) =>
      before +:+ GetSubstitution searchValue before after replaceValue +:+ after
  | None => s
  end.

(** [convertLink(v, k)].  Inside the first [if], [v] is a string, so the
    comparison with [null] of line 535 is never true.  The key is printed
    by the templates as [String(k)]. *)
Definition convertLink (v k : YamlValue) : string :=
  match v with
  | YString s =>
      if (12 <? String.length s)%nat then
        if String.eqb s "[[" then EmptyString
        else if startsWith s "[[" then
          String_replace s "]]" ("\|" +:+ YamlValue_toString k +:+ "]]")
        else if startsWith s "https://" || startsWith s "http://" then
          "[" +:+ YamlValue_toString k +:+ "](" +:+ s +:+ ")"
        else s
      else s
  | _ => YamlValue_toString v
  end.

(** ** The row of a child that is a file (lines 412-505) *)

Section Rows.

(** The date cell (lines 464-472) is built by [Date] in local time from the
    front-matter or the creation time; its text is taken as given. *)
Variable dateCell : option (gmap string YamlValue) -> TFile -> string.

(** [metadataCache.getFileCache(child)?.frontmatter]. *)
Definition frontmatterOf (v : Vault) (child : TFile) : option (gmap string YamlValue) :=
  metadataCache v !! file_path child.

(** Lines 426-435. *)
Definition fileTitleCell (v : Vault) (settings : WaypointSettings) (child : TFile)
    : string :=
  let name :=
    if String.eqb (extension child) "md" then basename child else file_name child in
  let name :=
    if useFrontMatterTitle settings then
      match frontmatterOf v child with
      | Some f =>
          match f !! "title" with
          | Some title => YamlValue_toString title
          | None => name
          end
      | None => name
      end
    else name in
  if useWikiLinks settings
  then "|[[" +:+ file_path child +:+ "\|" +:+ name +:+ "]]"
  else "|[" +:+ name +:+ "](" +:+ replaceAll (file_path child) " " "%20" +:+ ")".

(** Lines 478-484. *)
Definition tagsCell (f : option (gmap string YamlValue)) : string :=
  match f with
  | Some f =>
      match f !! "tags" with
      | Some (YArray items) => "|" +:+ joinValues " " items
      | Some val => "|" +:+ YamlValue_toString val
      | None => "|"
      end
  | None => "|"
  end.

(** Lines 486-501.  [convertLink] returns a string, so neither of the two
    comparisons of lines 495-496 is ever true. *)
Definition customCell (f : option (gmap string YamlValue)) (key : YamlValue) : string :=
  match f with
  | Some f =>
      match f !! YamlValue_toString key with
      | Some (YArray items) =>
          "|" +:+ joinWith ", " (map (fun v => convertLink v key) items)
      | Some val => "|" +:+ convertLink val key
      | None => "|"
      end
  | None => "|"
  end.

(** The [switch] of lines 422-502 for a file. *)
Definition fileCell (v : Vault) (settings : WaypointSettings) (child : TFile)
    (key : YamlValue) : string :=
  let f := frontmatterOf v child in
  match key with
  | YString k =>
      if String.eqb k "TITLE" || String.eqb k "Title" || String.eqb k "title"
      then fileTitleCell v settings child
      else if String.eqb k "DATE" || String.eqb k "Date" || String.eqb k "date"
      then dateCell f child
      else if String.eqb k "tags" then tagsCell f
      else customCell f key
  | _ => customCell f key
  end.

Definition fileRowOf (v : Vault) (settings : WaypointSettings)
    (keyList : list YamlValue) (child : TFile) : string :=
  String_concat (map (fileCell v settings child) keyList)
    +:+ "|" +:+ String LF EmptyString.

End Rows.

(** ** [getParentFolder] (lines 649-655) *)

(** [s.split(sep)] for a separator of one code unit. *)
Fixpoint splitOn (sep : ascii) (s : string) : list string :=
  match s with
  | EmptyString => [EmptyString]
  | String c s' =>
      if Ascii.eqb c sep then EmptyString :: splitOn sep s'
      else match splitOn sep s' with
           | [] => [String c EmptyString]
           | l :: ls => String c l :: ls
           end
  end.

(** [array.slice(0, -1)]: all but the last element. *)
Definition sliceInit {A} (l : list A) : list A := removelast l.

Definition getParentFolder (v : Vault) (path : string) : option TFolder :=
  match getAbstractFileByPath v (joinWith "/" (sliceInit (splitOn "/" path))) with
  | Some (Folder abstractFile) => Some abstractFile
  | _ => None
  end.

(** ** The settings tab (lines 684-846) *)

(** The assignments of the [onChange] handlers to the fields of the
    settings. *)
Definition withFolderNoteType (settings : WaypointSettings) (value : string)
    : WaypointSettings := {|
  waypointFlag := waypointFlag settings;
  landmarkFlag := landmarkFlag settings;
  showFolderNotes := showFolderNotes settings;
  useWikiLinks := useWikiLinks settings;
  useFrontMatterTitle := useFrontMatterTitle settings;
  folderNoteType := value;
  folderNoteName := folderNoteName settings;
  ignorePaths := ignorePaths settings
|}.

Definition withFolderNoteName (settings : WaypointSettings) (value : string)
    : WaypointSettings := {|
  waypointFlag := waypointFlag settings;
  landmarkFlag := landmarkFlag settings;
  showFolderNotes := showFolderNotes settings;
  useWikiLinks := useWikiLinks settings;
  useFrontMatterTitle := useFrontMatterTitle settings;
  folderNoteType := folderNoteType settings;
  folderNoteName := value;
  ignorePaths := ignorePaths settings
|}.

Definition withShowFolderNotes (settings : WaypointSettings) (value : bool)
    : WaypointSettings := {|
  waypointFlag := waypointFlag settings;
  landmarkFlag := landmarkFlag settings;
  showFolderNotes := value;
  useWikiLinks := useWikiLinks settings;
  useFrontMatterTitle := useFrontMatterTitle settings;
  folderNoteType := folderNoteType settings;
  folderNoteName := folderNoteName settings;
  ignorePaths := ignorePaths settings
|}.

Definition withUseWikiLinks (settings : WaypointSettings) (value : bool)
    : WaypointSettings := {|
  waypointFlag := waypointFlag settings;
  landmarkFlag := landmarkFlag settings;
  showFolderNotes := showFolderNotes settings;
  useWikiLinks := value;
  useFrontMatterTitle := useFrontMatterTitle settings;
  folderNoteType := folderNoteType settings;
  folderNoteName := folderNoteName settings;
  ignorePaths := ignorePaths settings
|}.

Definition withUseFrontMatterTitle (settings : WaypointSettings) (value : bool)
    : WaypointSettings := {|
  waypointFlag := waypointFlag settings;
  landmarkFlag := landmarkFlag settings;
  showFolderNotes := showFolderNotes settings;
  useWikiLinks := useWikiLinks settings;
  useFrontMatterTitle := value;
  folderNoteType := folderNoteType settings;
  folderNoteName := folderNoteName settings;
  ignorePaths := ignorePaths settings
|}.

Definition withWaypointFlag (settings : WaypointSettings) (value : string)
    : WaypointSettings := {|
  waypointFlag := value;
  landmarkFlag := landmarkFlag settings;
  showFolderNotes := showFolderNotes settings;
  useWikiLinks := useWikiLinks settings;
  useFrontMatterTitle := useFrontMatterTitle settings;
  folderNoteType := folderNoteType settings;
  folderNoteName := folderNoteName settings;
  ignorePaths := ignorePaths settings
|}.

Definition withLandmarkFlag (settings : WaypointSettings) (value : string)
    : WaypointSettings := {|
  waypointFlag := waypointFlag settings;
  landmarkFlag := value;
  showFolderNotes := showFolderNotes settings;
  useWikiLinks := useWikiLinks settings;
  useFrontMatterTitle := useFrontMatterTitle settings;
  folderNoteType := folderNoteType settings;
  folderNoteName := folderNoteName settings;
  ignorePaths := ignorePaths settings
|}.

Definition withPaths (settings : WaypointSettings) (value : list string)
    : WaypointSettings := {|
  waypointFlag := waypointFlag settings;
  landmarkFlag := landmarkFlag settings;
  showFolderNotes := showFolderNotes settings;
  useWikiLinks := useWikiLinks settings;
  useFrontMatterTitle := useFrontMatterTitle settings;
  folderNoteType := folderNoteType settings;
  folderNoteName := folderNoteName settings;
  ignorePaths := value
|}.

(** What the user does in the tab: the value chosen or typed in a field.
    The fields of the tab that the plugin reads nowhere are left out. *)
Inductive TabEvent : Type :=
| FolderNoteTypeChange (value : string)
| FolderNoteNameChange (value : string)
| ShowFolderNotesChange (value : bool)
| UseWikiLinksChange (value : bool)
| UseFrontMatterTitleChange (value : bool)
| WaypointFlagChange (value : string)
| LandmarkFlagChange (value : string)
| IgnorePathsChange (value : string).

Section SettingsTab.

(** [normalizePath] of the host application. *)
Variable normalizePath : string -> string.

Definition getNormalizedPath (path : string) : string :=
  if (String.length path =? 0)%nat then path else normalizePath path.

(** The [onChange] handlers: the settings they leave. *)
Definition onChange (settings : WaypointSettings) (event : TabEvent) : WaypointSettings :=
  match event with
  | FolderNoteTypeChange value => withFolderNoteType settings value
  | FolderNoteNameChange value => withFolderNoteName settings value
  | ShowFolderNotesChange value => withShowFolderNotes settings value
  | UseWikiLinksChange value => withUseWikiLinks settings value
  | UseFrontMatterTitleChange value => withUseFrontMatterTitle settings value
  | WaypointFlagChange value =>
      if acceptedFlag value then withWaypointFlag settings value
      else withWaypointFlag settings (waypointFlag DEFAULT_SETTINGS)
  | LandmarkFlagChange value =>
      if acceptedFlag value then withLandmarkFlag settings value
      else withLandmarkFlag settings (landmarkFlag DEFAULT_SETTINGS)
  | IgnorePathsChange value =>
      withPaths settings (map getNormalizedPath (split (trim value)))
  end.

End SettingsTab.

(** * Vocabulary of the statements *)

(** The test of line 253 on one line, and the test of line 259. *)
Definition isStartLine (flag beginWaypoint line : string) : bool :=
  includes (trim line) flag || includes (trim line) beginWaypoint.

Definition isEndLine (endWaypoint line : string) : bool :=
  String.eqb (trim line) endWaypoint.

(** Index of the first element that passes a test. *)
Fixpoint findIndex {A} (p : A -> bool) (l : list A) : option nat :=
  match l with
  | [] => None
  | x :: l' => if p x then Some O else S <$> findIndex p l'
  end.

(** Index of the last element that passes a test. *)
Fixpoint findLastIndex {A} (p : A -> bool) (l : list A) : option nat :=
  match l with
  | [] => None
  | x :: l' =>
      match findLastIndex p l' with
      | Some i => Some (S i)
      | None => if p x then Some O else None
      end
  end.

(** The lines of a freshly written block, before any callout prefix. *)
Definition blockLines (flagType : WaypointType) (fileTree : Value) : list string :=
  fst (getWaypointBounds flagType)
    :: split (toString fileTree) ++ [EmptyString; snd (getWaypointBounds flagType)].

(** The lines that replace the old block: with [callout], every line gets
    the prefix and, on first generation, the label comes first. *)
Definition emittedLines (flagType : WaypointType) (fileTree : Value)
    (callout initial : bool) : list string :=
  if callout then
    map (fun line => ">" +:+ line)
      ((if initial then [calloutLabel flagType] else []) ++ blockLines flagType fileTree)
  else blockLines flagType fileTree.

(** The lines kept after the replaced range: those after the first end
    delimiter below the start line, or all of them when there is none. *)
Definition afterBlock (endWaypoint : string) (post : list string) : list string :=
  match findIndex (isEndLine endWaypoint) post with
  | Some e => drop (S e) post
  | None => post
  end.

(** A text without line feed: [split] leaves it whole. *)
Definition singleLine (s : string) : Prop := split s = [s].

(** Number of lines that pass a test. *)
Definition countLines (p : string -> bool) (lines : list string) : nat :=
  length (List.filter p lines).

(** A creation time in the range of dates. *)
Definition validTime (c : TAbstractFile) : Prop :=
  forall t, ctimeOf c = Some t -> Z.abs t <= 8640000000000000.

(** [a] may stand above [b]: [a] has no creation time, or both have one and
    [a] is not older than [b]. *)
Definition newestFirst (a b : TAbstractFile) : Prop :=
  lacksCtime a = true
  \/ exists ta tb,
       ctimeOf a = Some ta /\ ctimeOf b = Some tb
       /\ ta <> 0 /\ tb <> 0 /\ tb <= ta.

(** The chain of folders from a starting reference upwards. *)
Fixpoint ancestorChain (fuel : nat) (v : Vault) (start : option string) : list TFolder :=
  match fuel, start with
  | S fuel, Some k =>
      match fileMap v !! k with
      | Some (Folder d) => d :: ancestorChain fuel v (folder_parent d)
      | _ => []
      end
  | _, _ => []
  end.

(** The folder a reference stands for. *)
Definition folderAt (v : Vault) (start : option string) : option TAbstractFile :=
  match start with
  | Some k =>
      match fileMap v !! k with
      | Some (Folder d) => Some (Folder d)
      | _ => None
      end
  | None => None
  end.

Section StatementTerms.

Context {engine : RegExpEngine}.
Variable fileRow : Vault -> WaypointSettings -> list YamlValue -> TFile -> string.
Variable settings : WaypointSettings.

(** A pattern the loop of [ignorePath] gets past: it is empty, or
    [new RegExp] accepts it. *)
Definition compiles (comparePath : string) : Prop :=
  comparePath = EmptyString \/ is_Some (RegExp_new comparePath).

Definition matchesPattern (path comparePath : string) : Prop :=
  comparePath <> EmptyString
  /\ exists regex, RegExp_new comparePath = Some regex
                   /\ String_match path regex = true.

(** The folder whose children [updateWaypoint] renders (lines 229-236). *)
Definition renderTarget (v : Vault) (file : TFile) : option TFolder :=
  if String.eqb (folderNoteType settings) INSIDE_FOLDER then parentOf v (File file)
  else
    match getCleanParentPath v (File file) with
    | Return clean =>
        match getAbstractFileByPath v (clean +:+ basename file) with
        | Some (Folder folder) => Some folder
        | _ => None
        end
    | Throw _ => None
    end.

(** One call of [updateWaypoint] whose exception is dropped (line 604). *)
Definition regenerate (v : Vault) (point : WaypointType * TFile) : Vault :=
  match updateWaypoint fileRow settings v (snd point) (fst point) with
  | Return v' => v'
  | Throw _ => v
  end.

(** Lines 601-605, once [locateParentPoint] has answered. *)
Definition thenUpdate (fuel : nat) (v : Vault) (found : option (WaypointType * TFile))
    : option (Vault * list (WaypointType * TFile)) :=
  match found with
  | None => Some (v, [])
  | Some point =>
      let v' := regenerate v point in
      match parentOf v' (File (snd point)) with
      | None => Some (v', [point])
      | Some p =>
          match updateParentPoint fileRow settings fuel v' (Folder p) false with
          | None => None
          | Some (v'', updated) => Some (v'', point :: updated)
          end
      end
  end.

(** The vault is a tree in which a folder's note lies in the folder:
    references to parents lead strictly upwards, the note looked up for a
    folder has that folder as parent, and a file is stored under its
    path. *)
Record TreeVault (v : Vault) (rank : string -> nat) : Prop := {
  parent_above : forall k node q,
    fileMap v !! k = Some node -> parent node = Some q -> (rank q < rank k)%nat;
  note_in_folder : forall k d note,
    fileMap v !! k = Some (Folder d) ->
    folderNoteOf settings v (Folder d) = Some (File note) ->
    file_parent note = Some k;
  file_under_path : forall k f,
    fileMap v !! k = Some (File f) -> file_path f = k
}.

Definition startBound (rank : string -> nat) (start : option string) : nat :=
  match start with
  | Some k => S (rank k)
  | None => O
  end.

End StatementTerms.

(** ** Vocabulary of the further properties *)

(** What [addZero] is expected to do on the numbers [0] to [99], as a test. *)
Definition addZero_ok (n : Z) : bool :=
  (String.length (addZero (Some n)) =? 2)%nat
  && match DecimalString.NilZero.int_of_string (addZero (Some n)) with
     | Some d => Z.of_int d =? n
     | None => false
     end
  && Bool.eqb (String.eqb (addZero (Some n)) (Number_toString n)) (10 <=? n).

(** A child is passed over by the filter of lines 360-374: a pattern
    matches its path, or it is a file that [isFolderNote] accepts while folder
    notes are not shown.  A child is listed when neither holds. *)
Definition isIgnored {engine : RegExpEngine} (settings : WaypointSettings)
    (child : TAbstractFile) : bool :=
  match ignorePath settings (path child) with
  | Return ignored => ignored
  | Throw _ => false
  end.

Definition isHiddenNote (settings : WaypointSettings) (v : Vault)
    (child : TAbstractFile) : bool :=
  match child with
  | File f =>
      match isFolderNote settings v f with
      | Return isNote => isNote && negb (showFolderNotes settings)
      | Throw _ => false
      end
  | Folder _ => false
  end.

Definition isListed {engine : RegExpEngine} (settings : WaypointSettings) (v : Vault)
    (child : TAbstractFile) : bool :=
  negb (isIgnored settings child) && negb (isHiddenNote settings v child).

(** The text made of the given lines, each ended by a line feed. *)
Definition linesText (lines : list string) : string :=
  String_concat (map (fun line => line +:+ String LF EmptyString) lines).

(** What the renderer prints for a folder is free of line feeds: the names
    and paths it reads from the tree, the configured folder-note name, the
    column keys, and the row of every file, which is one table line. *)
Record PrintsLines
    (fileRow : Vault -> WaypointSettings -> list YamlValue -> TFile -> string)
    (settings : WaypointSettings) (v : Vault) (rootNode : TFolder)
    (node : TAbstractFile) : Prop := {
  root_name_line : singleLine (folder_name rootNode);
  node_path_line : singleLine (path node);
  note_name_line : singleLine (folderNoteName settings);
  folder_lines : forall d,
    In (Folder d) (childrenOf v node) ->
    singleLine (folder_name d) /\ singleLine (folder_path d);
  keys_line : forall folderNote,
    singleLine (joinValues "|" (columnKeys v folderNote node));
  file_row_line : forall keyList f,
    In (File f) (childrenOf v node) ->
    exists line,
      fileRow v settings keyList f = line +:+ String LF EmptyString
      /\ singleLine line /\ startsWith line "|" = true
}.

(** The child was created at the given time. *)
Definition createdAt (t : Z) (child : TAbstractFile) : bool :=
  match ctimeOf child with
  | Some t' => t' =? t
  | None => false
  end.

(** The folder note that gives the table its columns (lines 366-367 and
    393-394): the last child, in the order of the rows, that is a file
    accepted by [isFolderNote] and not ignored, whether it is shown or not. *)
Definition visibleNote {engine : RegExpEngine} (settings : WaypointSettings) (v : Vault)
    (child : TAbstractFile) : option TFile :=
  match child with
  | File f =>
      match isFolderNote settings v f with
      | Return true => if isIgnored settings child then None else Some f
      | _ => None
      end
  | Folder _ => None
  end.

Definition columnsNote {engine : RegExpEngine} (settings : WaypointSettings) (v : Vault)
    (children : list TAbstractFile) : option TFile :=
  last (omap (visibleNote settings v) children).

(** ** Vocabulary of the amended claims *)

(** A child without creation time: it has no [stat], or its time is [0]. *)
Definition untimed (c : TAbstractFile) : Prop :=
  ctimeOf c = None \/ ctimeOf c = Some 0.

(** [a] may stand above [b] in the table: [a] is without creation time, or
    both were created at a time other than [0] and [a] is not older. *)
Definition rowOrder (a b : TAbstractFile) : Prop :=
  untimed a
  \/ exists ta tb,
       ctimeOf a = Some ta /\ ctimeOf b = Some tb
       /\ ta <> 0 /\ tb <> 0 /\ tb <= ta.

(** No percent sign occurs in the text. *)
Fixpoint percentFree (s : string) : bool :=
  match s with
  | EmptyString => true
  | String c s' => negb (Ascii.eqb c "%") && percentFree s'
  end.

(** No two percent signs stand side by side in the text, and the text does
    not end in a percent sign; [after] tells that a percent sign stands
    before the text. *)
Fixpoint pairFree (after : bool) (s : string) : bool :=
  match s with
  | EmptyString => negb after
  | String c s' =>
      if Ascii.eqb c "%" then negb after && pairFree true s' else pairFree false s'
  end.

(** No percent sign occurs in the name, the path or the base name of a
    child. *)
Definition percentFreeNode (child : TAbstractFile) : bool :=
  match child with
  | File f =>
      percentFree (file_name f) && percentFree (file_path f) && percentFree (basename f)
  | Folder d => percentFree (folder_name d) && percentFree (folder_path d)
  end.

(** No percent sign occurs in what the renderer reads for a folder: the
    name and the path of the folder and of its children, the configured
    folder-note name, the front-matter values as they are printed, and the
    date cells. *)
Record PercentFreeNames
    (dateCell : option (gmap string YamlValue) -> TFile -> string)
    (settings : WaypointSettings) (v : Vault) (folder : TFolder) : Prop := {
  folder_percentFree : percentFreeNode (Folder folder) = true;
  noteName_percentFree : percentFree (folderNoteName settings) = true;
  children_percentFree : forall child,
    In child (childrenOf v (Folder folder)) -> percentFreeNode child = true;
  frontmatter_percentFree : forall p fm key val,
    metadataCache v !! p = Some fm -> fm !! key = Some val ->
    percentFree (YamlValue_toString val) = true;
  dateCell_percentFree : forall f child, percentFree (dateCell f child) = true
}.

(** The kind of index the text of a note is marked for: a waypoint when it
    holds the begin delimiter or the trigger flag of waypoints, and else a
    landmark when it holds those of landmarks. *)
Definition markedAs (settings : WaypointSettings) (text : string) : option WaypointType :=
  if includes text BEGIN_WAYPOINT || includes text (waypointFlag settings)
  then Some Waypoint
  else if includes text BEGIN_LANDMARK || includes text (landmarkFlag settings)
  then Some Landmark
  else None.

(** The folder note of a folder that holds an index: the note that lies in
    the folder under the folder's name, with the kind its text is marked
    for. *)
Definition indexedNote (settings : WaypointSettings) (v : Vault) (a : TFolder)
    : option (WaypointType * TFile) :=
  match fileMap v !! (folder_path a +:+ "/" +:+ folder_name a +:+ ".md") with
  | Some (File note) => (fun kind => (kind, note)) <$> markedAs settings (read v note)
  | _ => None
  end.

Section AmendedTerms.

Context {engine : RegExpEngine}.
Variable fileRow : Vault -> WaypointSettings -> list YamlValue -> TFile -> string.
Variable settings : WaypointSettings.

(** [text] is the note of [point], as it reads in [v], with its index
    regenerated: the lines above the first start line, the new block around
    the table rendered for the note, and the lines below the old block. *)
Definition regeneratedText (v : Vault) (point : WaypointType * TFile) (text : string)
    : Prop :=
  let flag := getWaypointFlag settings (fst point) in
  let beginWaypoint := fst (getWaypointBounds (fst point)) in
  let endWaypoint := snd (getWaypointBounds (fst point)) in
  exists fileTree pre l post,
    renderFolderOf fileRow settings v (snd point) = Return fileTree
    /\ split (read v (snd point)) = pre ++ l :: post
    /\ Forall (fun x => isStartLine flag beginWaypoint x = false) pre
    /\ isStartLine flag beginWaypoint l = true
    /\ split text
       = pre
         ++ emittedLines (fst point) fileTree (startsWith (trim l) ">")
              (includes (trim l) flag)
         ++ afterBlock endWaypoint post.

End AmendedTerms.

(** * A runtime and a vault for the examples *)

(** Characters with a meaning of their own in a pattern. *)
Definition isSyntaxCharacter (c : ascii) : bool :=
  includes "^$\.*+?()[]{}|" (String c EmptyString).

Fixpoint literalSource (source : string) : bool :=
  match source with
  | EmptyString => true
  | String c rest => negb (isSyntaxCharacter c) && literalSource rest
  end.

(** An engine for the sources used below.  A source without syntax
    characters is searched as a substring, which is what the runtime does
    with it.  Every other source is rejected: the one used below is [(],
    an unterminated group, which the runtime rejects too. *)
Definition LiteralEngine : RegExpEngine := {|
  RegExp := string;
  RegExp_new := fun source => if literalSource source then Some source else None;
  String_match := fun s regex => includes s regex
|}.

(** A row text for files in the examples: the title link of a markdown
    file under wiki links, and empty cells after it. *)
Definition titleOnlyRow (_ : Vault) (_ : WaypointSettings) (keyList : list YamlValue)
    (f : TFile) : string :=
  "|[[" +:+ file_path f +:+ "\|" +:+ basename f +:+ "]]"
    +:+ String.concat EmptyString (map (fun _ => "|") (tail keyList))
    +:+ "|" +:+ String LF EmptyString.

Definition mkFile (dir base : string) (created : Z) : TFile := {|
  file_name := base +:+ ".md";
  file_path := dir +:+ "/" +:+ base +:+ ".md";
  basename := base;
  extension := "md";
  file_parent := Some dir;
  stat := Some {| ctime := created |}
|}.

Definition rootFolder : TFolder := {|
  folder_name := EmptyString;
  folder_path := "/";
  folder_parent := None;
  isRoot := true;
  children := ["Projects"; "index.md"]
|}.

Definition projectsFolder : TFolder := {|
  folder_name := "Projects";
  folder_path := "Projects";
  folder_parent := Some "/";
  isRoot := false;
  children := ["Projects/Projects.md"; "Projects/Alpha.md"; "Projects/Beta.md";
               "Projects/Archive"; "Projects/_attachments"]
|}.

Definition archiveFolder : TFolder := {|
  folder_name := "Archive";
  folder_path := "Projects/Archive";
  folder_parent := Some "Projects";
  isRoot := false;
  children := ["Projects/Archive/Archive.md"; "Projects/Archive/Old.md"]
|}.

Definition attachmentsFolder : TFolder := {|
  folder_name := "_attachments";
  folder_path := "Projects/_attachments";
  folder_parent := Some "Projects";
  isRoot := false;
  children := ["Projects/_attachments/_attachments.md"]
|}.

Definition indexNote : TFile := {|
  file_name := "index.md";
  file_path := "index.md";
  basename := "index";
  extension := "md";
  file_parent := Some "/";
  stat := Some {| ctime := 10 |}
|}.

Definition projectsNote : TFile := mkFile "Projects" "Projects" 50.
Definition alphaNote : TFile := mkFile "Projects" "Alpha" 100.
Definition betaNote : TFile := mkFile "Projects" "Beta" 200.
Definition archiveNote : TFile := mkFile "Projects/Archive" "Archive" 300.
Definition oldNote : TFile := mkFile "Projects/Archive" "Old" 20.
Definition attachmentsNote : TFile := mkFile "Projects/_attachments" "_attachments" 30.

Definition demoVault : Vault := {|
  fileMap :=
    list_to_map
      [("/", Folder rootFolder);
       ("index.md", File indexNote);
       ("Projects", Folder projectsFolder);
       ("Projects/Projects.md", File projectsNote);
       ("Projects/Alpha.md", File alphaNote);
       ("Projects/Beta.md", File betaNote);
       ("Projects/Archive", Folder archiveFolder);
       ("Projects/Archive/Archive.md", File archiveNote);
       ("Projects/Archive/Old.md", File oldNote);
       ("Projects/_attachments", Folder attachmentsFolder);
       ("Projects/_attachments/_attachments.md", File attachmentsNote)];
  data :=
    list_to_map
      [("index.md", "%% Waypoint %%" +:+ String LF ("notes" +:+ String LF "%% Waypoint %%"));
       ("Projects/Projects.md", "%% Waypoint %%");
       ("Projects/Archive/Archive.md", "%% Landmark %%");
       ("Projects/_attachments/_attachments.md", "%% Waypoint %%")];
  metadataCache := ∅
|}.

Definition withOverride (name : string) : WaypointSettings := {|
  waypointFlag := waypointFlag DEFAULT_SETTINGS;
  landmarkFlag := landmarkFlag DEFAULT_SETTINGS;
  showFolderNotes := showFolderNotes DEFAULT_SETTINGS;
  useWikiLinks := useWikiLinks DEFAULT_SETTINGS;
  useFrontMatterTitle := useFrontMatterTitle DEFAULT_SETTINGS;
  folderNoteType := folderNoteType DEFAULT_SETTINGS;
  folderNoteName := name;
  ignorePaths := ignorePaths DEFAULT_SETTINGS
|}.

Definition withIgnorePaths (patterns : list string) : WaypointSettings := {|
  waypointFlag := waypointFlag DEFAULT_SETTINGS;
  landmarkFlag := landmarkFlag DEFAULT_SETTINGS;
  showFolderNotes := showFolderNotes DEFAULT_SETTINGS;
  useWikiLinks := useWikiLinks DEFAULT_SETTINGS;
  useFrontMatterTitle := useFrontMatterTitle DEFAULT_SETTINGS;
  folderNoteType := folderNoteType DEFAULT_SETTINGS;
  folderNoteName := folderNoteName DEFAULT_SETTINGS;
  ignorePaths := patterns
|}.

(** The table rendered for [Projects] in that vault. *)
Definition demoTable : string :=
  String_concat
    (map (fun line => line +:+ String LF EmptyString)
       ["# Projects";
        "[[Projects/new file.md\|new file]] | [[Projects/new folder/new folder.md\|new folder]]";
        EmptyString;
        "|TITLE|DATE|";
        "|---|---|";
        "|[[Projects/Archive/Archive.md\|Archive]]||";
        "|[[Projects/Beta.md\|Beta]]||";
        "|[[Projects/Alpha.md\|Alpha]]||"]).

(** The note a callout flag turns into, and the notes after one and after
    two further updates with the same rendered table [T]. *)
Definition calloutBlock : list string :=
  [">[!waypoint]"; ">%% Begin Waypoint %%"; ">T"; ">"; ">%% End Waypoint %%"].

Definition calloutBlockOnce : list string :=
  [">[!waypoint]"; ">%% Begin Waypoint %%"; ">T"; ">"; ">%% End Waypoint %%";
   ">T"; ">"; ">%% End Waypoint %%"].

Definition calloutBlockTwice : list string :=
  [">[!waypoint]"; ">%% Begin Waypoint %%"; ">T"; ">"; ">%% End Waypoint %%";
   ">T"; ">"; ">%% End Waypoint %%"; ">T"; ">"; ">%% End Waypoint %%"].

(** The vault of the examples with a callout flag in the note of
    [Projects], and one update of that note. *)
Definition calloutVault : Vault :=
  modify demoVault projectsNote "> %% Waypoint %%".

Definition updateProjects (v : Vault) : Outcome Vault :=
  @updateWaypoint LiteralEngine titleOnlyRow DEFAULT_SETTINGS v projectsNote
    Waypoint.

(** A note with two flag lines. *)
Definition twoFlags : list string :=
  ["%% Waypoint %%"; "notes"; "%% Waypoint %%"].

(** Height of a reference in the vault of the examples. *)
Fixpoint slashes (s : string) : nat :=
  match s with
  | EmptyString => O
  | String c s' => ((if Ascii.eqb c "/" then 1 else 0) + slashes s')%nat
  end.

Definition demoRank (k : string) : nat :=
  if String.eqb k "/" then O else S (slashes k).

(** ** Further examples *)

(** A vault whose folder note is named by an override: the folder [Docs]
    holds [README.md] with a flag, and no note named after the folder. *)
Definition docsFolder : TFolder := {|
  folder_name := "Docs";
  folder_path := "Docs";
  folder_parent := Some "/";
  isRoot := false;
  children := ["Docs/README.md"; "Docs/Guide.md"]
|}.

Definition readmeNote : TFile := mkFile "Docs" "README" 40.
Definition guideNote : TFile := mkFile "Docs" "Guide" 60.

Definition docsVault : Vault := {|
  fileMap :=
    list_to_map
      [("/", Folder {| folder_name := EmptyString; folder_path := "/";
                       folder_parent := None; isRoot := true;
                       children := ["Docs"] |});
       ("Docs", Folder docsFolder);
       ("Docs/README.md", File readmeNote);
       ("Docs/Guide.md", File guideNote)];
  data := list_to_map [("Docs/README.md", "%% Waypoint %%")];
  metadataCache := ∅
|}.

(** The vault of the examples with a flag in [Alpha.md], which is not a
    folder note. *)
Definition strayFlagVault : Vault := modify demoVault alphaNote "%% Waypoint %%".

(** The default settings with links in Markdown style. *)
Definition markdownLinks : WaypointSettings := withUseWikiLinks DEFAULT_SETTINGS false.

(** ** Examples of the amended claims *)

(** The date cell of a file created on the first day of 1970, a Thursday;
    the name of the day, a Korean character in the source, is written in
    Latin letters. *)
Definition epochDateCell (_ : option (gmap string YamlValue)) (_ : TFile) : string :=
  "|1970-01-01 (Thu)".

(** A folder with a note created at time [0]. *)
Definition logFolder : TFolder := {|
  folder_name := "Log";
  folder_path := "Log";
  folder_parent := Some "/";
  isRoot := false;
  children := ["Log/Log.md"; "Log/May.md"; "Log/April.md"; "Log/Epoch.md"]
|}.

Definition logNote : TFile := mkFile "Log" "Log" 50.
Definition mayNote : TFile := mkFile "Log" "May" 200.
Definition aprilNote : TFile := mkFile "Log" "April" 100.
Definition epochNote : TFile := mkFile "Log" "Epoch" 0.

Definition epochVault : Vault := {|
  fileMap :=
    list_to_map
      [("/", Folder {| folder_name := EmptyString; folder_path := "/";
                       folder_parent := None; isRoot := true;
                       children := ["Log"] |});
       ("Log", Folder logFolder);
       ("Log/Log.md", File logNote);
       ("Log/May.md", File mayNote);
       ("Log/April.md", File aprilNote);
       ("Log/Epoch.md", File epochNote)];
  data := list_to_map [("Log/Log.md", "%% Waypoint %%")];
  metadataCache := ∅
|}.

(** The table rendered for [Log] in that vault. *)
Definition logTable : string :=
  linesText
    ["# Log";
     "[[Log/new file.md\|new file]] | [[Log/new folder/new folder.md\|new folder]]";
     EmptyString;
     "|TITLE|DATE|";
     "|---|---|";
     "|[[Log/Epoch.md\|Epoch]]|1970-01-01 (Thu)|";
     "|[[Log/May.md\|May]]|1970-01-01 (Thu)|";
     "|[[Log/April.md\|April]]|1970-01-01 (Thu)|"].

(** A folder with a note whose name is the trigger flag. *)
Definition notesFolder : TFolder := {|
  folder_name := "Notes";
  folder_path := "Notes";
  folder_parent := Some "/";
  isRoot := false;
  children := ["Notes/Notes.md"; "Notes/%% Waypoint %%.md"]
|}.

Definition notesNote : TFile := mkFile "Notes" "Notes" 50.
Definition flagNamedNote : TFile := mkFile "Notes" "%% Waypoint %%" 70.

Definition flagNameVault : Vault := {|
  fileMap :=
    list_to_map
      [("/", Folder {| folder_name := EmptyString; folder_path := "/";
                       folder_parent := None; isRoot := true;
                       children := ["Notes"] |});
       ("Notes", Folder notesFolder);
       ("Notes/Notes.md", File notesNote);
       ("Notes/%% Waypoint %%.md", File flagNamedNote)];
  data := list_to_map [("Notes/Notes.md", "%% Waypoint %%")];
  metadataCache := ∅
|}.

(** The table rendered for [Projects] in the vault of the examples, with
    the date cells of [epochDateCell]. *)
Definition datedTable : string :=
  linesText
    ["# Projects";
     "[[Projects/new file.md\|new file]] | [[Projects/new folder/new folder.md\|new folder]]";
     EmptyString;
     "|TITLE|DATE|";
     "|---|---|";
     "|[[Projects/Archive/Archive.md\|Archive]]||";
     "|[[Projects/Beta.md\|Beta]]|1970-01-01 (Thu)|";
     "|[[Projects/Alpha.md\|Alpha]]|1970-01-01 (Thu)|"].

(** * The primitives on small inputs *)

Example split_two_lines : split ("a" +:+ String LF "b") = ["a"; "b"].
Proof. reflexivity. Qed.

Example split_empty_text : split EmptyString = [EmptyString].
Proof. reflexivity. Qed.

Example split_trailing_line_feed :
  split ("a" +:+ String LF EmptyString) = ["a"; EmptyString].
Proof. reflexivity. Qed.

Example join_three_lines :
  join ["a"; EmptyString; "b"] = "a" +:+ String LF (String LF "b").
Proof. reflexivity. Qed.

Example trim_both_sides : trim "  > %% Waypoint %%   " = "> %% Waypoint %%".
Proof. reflexivity. Qed.

Example trim_white_space_only : trim "   " = EmptyString.
Proof. reflexivity. Qed.

Example includes_flag_in_callout : includes "> %% Waypoint %%" "%% Waypoint %%" = true.
Proof. reflexivity. Qed.

Example begin_delimiter_lacks_flag : includes BEGIN_WAYPOINT "%% Waypoint %%" = false.
Proof. reflexivity. Qed.

Example replaceAll_spaces : replaceAll "a b c" " " "%20" = "a%20b%20c".
Proof. reflexivity. Qed.

Example splice_range : splice [1; 2; 3; 4]%nat 1 2 9%nat = [1; 9; 4]%nat.
Proof. reflexivity. Qed.

Example default_flags_accepted :
  acceptedFlag (waypointFlag DEFAULT_SETTINGS) = true
  /\ acceptedFlag (landmarkFlag DEFAULT_SETTINGS) = true.
Proof. split; reflexivity. Qed.

Example unwrapped_flag_rejected : acceptedFlag "hello" = false.
Proof. reflexivity. Qed.

Example bare_delimiters_rejected :
  acceptedFlag "%%" = false /\ acceptedFlag "%%%" = false /\ acceptedFlag "%%%%" = false.
Proof. repeat split; reflexivity. Qed.

Example sort_folder_then_newest :
  Array_sort compareChildren [File alphaNote; Folder archiveFolder; File betaNote]
  = [Folder archiveFolder; File betaNote; File alphaNote].
Proof. reflexivity. Qed.

Example scan_finds_block :
  scanBounds "%% Waypoint %%" BEGIN_WAYPOINT END_WAYPOINT 0
    ["intro"; "%% Begin Waypoint %%"; "old"; "%% End Waypoint %%"; "outro"] noBounds
  = {| waypointStart := Some 1%nat; waypointEnd := Some 3%nat;
       isCallout := false; initialWaypoint := false |}.
Proof. reflexivity. Qed.

Example projects_note_after_update :
  (fun v => read v projectsNote)
    <$> @updateWaypoint LiteralEngine titleOnlyRow DEFAULT_SETTINGS demoVault
          projectsNote Waypoint
  = Return (join (BEGIN_WAYPOINT :: split demoTable ++ [EmptyString; END_WAYPOINT])).
Proof. vm_compute. reflexivity. Qed.

(** * Facts about the string primitives *)

Section StringFacts.

Lemma split_not_nil (s : string) : split s <> [].
Proof.
  induction s as [|c s IH]; simpl; [discriminate|].
  destruct (Ascii.eqb c LF); [discriminate|].
  destruct (split s); discriminate.
Qed.

(** A line feed between two texts separates their pieces. *)
Lemma split_app_LF (a b : string) :
  split (a +:+ String LF b) = split a ++ split b.
Proof.
  induction a as [|c a IH]; simpl.
  - reflexivity.
  - destruct (Ascii.eqb c LF); rewrite IH; [reflexivity|].
    pose proof (split_not_nil a) as Hne.
    destruct (split a) as [|l ls]; [contradiction|reflexivity].
Qed.

Lemma join_cons (l : string) (ls : list string) :
  ls <> [] -> join (l :: ls) = l +:+ String LF (join ls).
Proof. destruct ls; [contradiction|reflexivity]. Qed.

Lemma join_String_cons (c : ascii) (l : string) (ls : list string) :
  join (String c l :: ls) = String c (join (l :: ls)).
Proof. destruct ls; reflexivity. Qed.

Lemma join_split (s : string) : join (split s) = s.
Proof.
  induction s as [|c s IH]; [reflexivity|].
  cbn [split]. destruct (Ascii.eqb c LF) eqn:E.
  - apply Ascii.eqb_eq in E. subst c.
    rewrite join_cons by apply split_not_nil. now rewrite IH.
  - pose proof (split_not_nil s) as Hne.
    destruct (split s) as [|l ls]; [contradiction|].
    now rewrite join_String_cons, IH.
Qed.

Lemma singleLine_split (s : string) : Forall singleLine (split s).
Proof.
  induction s as [|c s IH]; simpl.
  - repeat constructor.
  - destruct (Ascii.eqb c LF) eqn:E.
    + constructor; [reflexivity|assumption].
    + pose proof (split_not_nil s) as Hne.
      destruct (split s) as [|l ls]; [contradiction|].
      inversion IH as [|? ? Hl Hls]; subst.
      constructor; [|assumption].
      unfold singleLine in *. simpl. now rewrite E, Hl.
Qed.

Lemma singleLine_cons (c : ascii) (s : string) :
  Ascii.eqb c LF = false -> singleLine s -> singleLine (String c s).
Proof. unfold singleLine. intros E H. simpl. now rewrite E, H. Qed.

Lemma split_join (lines : list string) :
  lines <> [] -> split (join lines) = concat (map split lines).
Proof.
  induction lines as [|l ls IH]; [contradiction|intros _].
  destruct ls as [|l' ls'].
  - simpl. now rewrite app_nil_r.
  - rewrite join_cons by discriminate.
    rewrite split_app_LF, IH by discriminate. reflexivity.
Qed.

Lemma concat_split_singleLine (lines : list string) :
  Forall singleLine lines -> concat (map split lines) = lines.
Proof.
  induction 1 as [|l ls Hl _ IH]; simpl; [reflexivity|].
  now rewrite Hl, IH.
Qed.

Lemma split_join_lines (lines : list string) :
  lines <> [] -> Forall singleLine lines -> split (join lines) = lines.
Proof.
  intros Hne Hall. rewrite split_join by assumption.
  now apply concat_split_singleLine.
Qed.

Lemma prefix_app (p s t : string) :
  String.prefix p s = true -> String.prefix p (s +:+ t) = true.
Proof.
  revert s. induction p as [|c p IH]; intros [|d s]; simpl; try easy.
  - now destruct t.
  - destruct (ascii_dec c d); [apply IH|easy].
Qed.

Lemma prefix_refl (s : string) : String.prefix s s = true.
Proof.
  induction s as [|c s IH]; [reflexivity|]. simpl.
  destruct (ascii_dec c c); [exact IH|contradiction].
Qed.

Lemma includes_refl (s : string) : includes s s = true.
Proof. destruct s; cbn [includes]; now rewrite prefix_refl. Qed.

Lemma includes_String (c : ascii) (s sub : string) :
  includes (String c s) sub = String.prefix sub (String c s) || includes s sub.
Proof. reflexivity. Qed.

Lemma includes_empty (sub : string) :
  includes EmptyString sub = String.prefix sub EmptyString.
Proof. apply orb_false_r. Qed.

Lemma includes_app_l (s t sub : string) :
  includes s sub = true -> includes (s +:+ t) sub = true.
Proof.
  induction s as [|c s IH].
  - rewrite includes_empty. intros H. apply (prefix_app _ _ t) in H.
    destruct (EmptyString +:+ t) eqn:E.
    + now rewrite includes_empty.
    + now rewrite includes_String, H.
  - change (String c s +:+ t) with (String c (s +:+ t)).
    rewrite !includes_String. intros H.
    apply orb_true_iff in H as [H|H].
    + apply (prefix_app _ _ t) in H.
      change (String c s +:+ t) with (String c (s +:+ t)) in H. now rewrite H.
    + rewrite (IH H). apply orb_true_r.
Qed.

Lemma includes_app_r (s t sub : string) :
  includes t sub = true -> includes (s +:+ t) sub = true.
Proof.
  induction s as [|c s IH]; intros H; [assumption|].
  change (String c s +:+ t) with (String c (s +:+ t)).
  rewrite includes_String, (IH H). apply orb_true_r.
Qed.

End StringFacts.

(** * Facts about the marker scan and the splice *)

Section ScanFacts.

Variables flag beginWaypoint endWaypoint : string.

(** Once the start is known the loop only looks for the end delimiter. *)
Lemma scanBounds_started (lines : list string) :
  forall i b st,
    waypointStart b = Some st ->
    scanBounds flag beginWaypoint endWaypoint i lines b =
    {| waypointStart := Some st;
       waypointEnd := match findIndex (isEndLine endWaypoint) lines with
                      | Some e => Some (i + e)%nat
                      | None => waypointEnd b
                      end;
       isCallout := isCallout b;
       initialWaypoint := initialWaypoint b |}.
Proof.
  induction lines as [|line rest IH]; intros i b st Hst; cbn [scanBounds findIndex].
  - destruct b; simpl in *; now subst.
  - rewrite Hst. rewrite bool_decide_eq_false_2 by discriminate.
    cbn [andb negb]. unfold isEndLine.
    destruct (String.eqb (trim line) endWaypoint).
    + now rewrite Nat.add_0_r.
    + rewrite (IH (S i) b st Hst).
      destruct (findIndex _ rest) as [e|]; cbn; [|reflexivity].
      do 2 f_equal. lia.
Qed.

(** Lines that fail the start test are passed over. *)
Lemma scanBounds_skip (pre rest : list string) :
  forall i,
    Forall (fun l => isStartLine flag beginWaypoint l = false) pre ->
    scanBounds flag beginWaypoint endWaypoint i (pre ++ rest) noBounds =
    scanBounds flag beginWaypoint endWaypoint (i + length pre) rest noBounds.
Proof.
  induction pre as [|l pre IH]; intros i Hpre.
  - simpl. now rewrite Nat.add_0_r.
  - inversion Hpre as [|? ? Hl Hpre']; subst.
    cbn [app scanBounds]. unfold isStartLine in Hl. rewrite Hl.
    cbn [waypointStart noBounds]. rewrite andb_false_r.
    rewrite bool_decide_eq_true_2 by reflexivity. cbn [negb andb].
    rewrite IH by assumption. f_equal. simpl. lia.
Qed.

(** The scan stops at the first line that passes the start test, and then
    at the first end delimiter below it. *)
Lemma scanBounds_first (pre post : list string) (l : string) :
  Forall (fun x => isStartLine flag beginWaypoint x = false) pre ->
  isStartLine flag beginWaypoint l = true ->
  scanBounds flag beginWaypoint endWaypoint 0 (pre ++ l :: post) noBounds =
  {| waypointStart := Some (length pre);
     waypointEnd := match findIndex (isEndLine endWaypoint) post with
                    | Some e => Some (S (length pre) + e)%nat
                    | None => None
                    end;
     isCallout := startsWith (trim l) ">";
     initialWaypoint := includes (trim l) flag |}.
Proof.
  intros Hpre Hl. rewrite scanBounds_skip by assumption.
  cbn [scanBounds]. unfold isStartLine in Hl. rewrite Hl.
  cbn [waypointStart noBounds].
  rewrite bool_decide_eq_true_2 by reflexivity. cbn [andb].
  erewrite scanBounds_started by reflexivity. reflexivity.
Qed.

Lemma scanBounds_none (lines : list string) :
  Forall (fun x => isStartLine flag beginWaypoint x = false) lines ->
  scanBounds flag beginWaypoint endWaypoint 0 lines noBounds = noBounds.
Proof.
  intros H. rewrite <- (app_nil_r lines).
  now rewrite scanBounds_skip.
Qed.

End ScanFacts.

Section SpliceFacts.

Variable settings : WaypointSettings.
Variable flagType : WaypointType.

Lemma singleLine_beginWaypoint : singleLine (fst (getWaypointBounds flagType)).
Proof. destruct flagType; reflexivity. Qed.

Lemma singleLine_endWaypoint : singleLine (snd (getWaypointBounds flagType)).
Proof. destruct flagType; reflexivity. Qed.

Lemma singleLine_calloutLabel : singleLine (calloutLabel flagType).
Proof. destruct flagType; reflexivity. Qed.

Lemma split_waypointBlock (fileTree : Value) :
  split (waypointBlock flagType fileTree) = blockLines flagType fileTree.
Proof.
  unfold waypointBlock, blockLines.
  destruct (getWaypointBounds flagType) as [b e] eqn:E.
  pose proof singleLine_beginWaypoint as Hb.
  pose proof singleLine_endWaypoint as He.
  rewrite E in Hb, He. cbn [fst snd] in *.
  change (String LF (toString fileTree) +:+ String LF (String LF e))
    with (String LF (toString fileTree +:+ String LF (String LF e))).
  rewrite !split_app_LF, Hb.
  change (split (String LF e)) with (EmptyString :: split e).
  now rewrite He.
Qed.

Lemma singleLine_blockLines (fileTree : Value) :
  Forall singleLine (blockLines flagType fileTree).
Proof.
  rewrite <- split_waypointBlock. apply singleLine_split.
Qed.

Lemma split_prefixed (lines : list string) :
  lines <> [] ->
  Forall singleLine lines ->
  split (join (map (fun line => ">" +:+ line) lines))
  = map (fun line => ">" +:+ line) lines.
Proof.
  intros Hne Hall. apply split_join_lines.
  - destruct lines; [contradiction|discriminate].
  - apply Forall_map. eapply Forall_impl; [exact Hall|].
    intros l Hl. now apply singleLine_cons.
Qed.

Lemma split_waypointToInsert (fileTree : Value) (b : Bounds) :
  split (waypointToInsert flagType fileTree b)
  = emittedLines flagType fileTree (isCallout b) (initialWaypoint b).
Proof.
  unfold waypointToInsert, emittedLines.
  destruct (isCallout b); [|apply split_waypointBlock].
  destruct (initialWaypoint b).
  - rewrite split_app_LF, singleLine_calloutLabel, split_waypointBlock.
    apply split_prefixed; [discriminate|].
    constructor; [apply singleLine_calloutLabel|apply singleLine_blockLines].
  - rewrite split_waypointBlock.
    apply split_prefixed; [discriminate|apply singleLine_blockLines].
Qed.

Lemma emittedLines_not_nil (fileTree : Value) (callout initial : bool) :
  emittedLines flagType fileTree callout initial <> [].
Proof.
  unfold emittedLines, blockLines.
  destruct callout, initial; discriminate.
Qed.

(** The note after [updateWaypoint], line by line: the lines above the
    first start line, the emitted block, the lines below the old block. *)
Lemma updateWaypointText_found (fileTree : Value) (text : string)
    (pre post : list string) (l : string) :
  split text = pre ++ l :: post ->
  Forall (fun x => isStartLine (getWaypointFlag settings flagType)
                     (fst (getWaypointBounds flagType)) x = false) pre ->
  isStartLine (getWaypointFlag settings flagType)
    (fst (getWaypointBounds flagType)) l = true ->
  exists r,
    updateWaypointText settings flagType fileTree text = Some r
    /\ split r =
       pre
       ++ emittedLines flagType fileTree (startsWith (trim l) ">")
            (includes (trim l) (getWaypointFlag settings flagType))
       ++ afterBlock (snd (getWaypointBounds flagType)) post.
Proof.
  intros Hsplit Hpre Hl.
  unfold updateWaypointText.
  destruct (getWaypointBounds flagType) as [bw ew] eqn:E. cbn [fst snd] in *.
  rewrite Hsplit, (scanBounds_first _ _ _ pre post l Hpre Hl).
  cbn [waypointStart waypointEnd].
  eexists; split; [reflexivity|].
  pose proof (singleLine_split text) as Hall. rewrite Hsplit in Hall.
  apply Forall_app in Hall as [Hall1 Hall2].
  inversion Hall2 as [|? ? _ Hall3]; subst.
  set (b := {| waypointStart := _ |}).
  assert (Hspliced :
    splice (pre ++ l :: post) (length pre)
      match
        match findIndex (isEndLine ew) post with
        | Some e => Some (S (length pre) + e)%nat
        | None => None
        end
      with
      | Some e => (e - length pre + 1)%nat
      | None => 1%nat
      end (waypointToInsert flagType fileTree b)
    = pre ++ waypointToInsert flagType fileTree b :: afterBlock ew post).
  { unfold splice. rewrite take_app_length. do 2 f_equal.
    rewrite drop_app_add'; [|reflexivity].
    unfold afterBlock.
    destruct (findIndex (isEndLine ew) post) as [e|]; [|reflexivity].
    replace (S (length pre) + e - length pre + 1)%nat with (S (S e)) by lia.
    reflexivity. }
  rewrite Hspliced.
  rewrite split_join by (destruct pre; discriminate).
  rewrite map_app, concat_app. cbn [map concat].
  rewrite (concat_split_singleLine pre Hall1).
  rewrite concat_split_singleLine.
  - rewrite split_waypointToInsert. reflexivity.
  - unfold afterBlock. destruct (findIndex _ post); [|assumption].
    now apply Forall_drop.
Qed.

Lemma updateWaypointText_not_found (fileTree : Value) (text : string) :
  Forall (fun x => isStartLine (getWaypointFlag settings flagType)
                     (fst (getWaypointBounds flagType)) x = false) (split text) ->
  updateWaypointText settings flagType fileTree text = None.
Proof.
  intros H. unfold updateWaypointText.
  destruct (getWaypointBounds flagType) as [bw ew]. cbn [fst] in H.
  now rewrite scanBounds_none.
Qed.

End SpliceFacts.

(** * Facts about flags, counting and searching *)

Section FlagFacts.

Lemma endsWith_not_empty (s p : string) :
  p <> EmptyString -> endsWith s p = true -> s <> EmptyString.
Proof.
  intros Hp H ->. simpl in H. destruct p; [contradiction|discriminate].
Qed.

Lemma trimEnd_endsWith (s : string) (c : ascii) (p : string) :
  trimEnd (String c p) = String c p ->
  endsWith s (String c p) = true -> trimEnd s = s.
Proof.
  intros Hp. induction s as [|d s IH]; intros H; [reflexivity|].
  cbn [endsWith] in H. apply orb_true_iff in H as [H|H].
  - apply String.eqb_eq in H. now rewrite H.
  - specialize (IH H). cbn [trimEnd]. rewrite IH.
    pose proof (endsWith_not_empty s (String c p) ltac:(discriminate) H) as Hne.
    destruct s; [contradiction|reflexivity].
Qed.

(** A flag the settings tab accepts has no white space around it and does
    not open a callout. *)
Lemma acceptedFlag_trim (flag : string) :
  acceptedFlag flag = true ->
  trim flag = flag /\ startsWith flag ">" = false /\ flag <> EmptyString.
Proof.
  unfold acceptedFlag. rewrite !andb_true_iff.
  intros [[[[[Hne Hs] He] _] _] _].
  destruct flag as [|c flag]; [discriminate|].
  unfold startsWith in Hs. cbn [String.prefix] in Hs.
  destruct (ascii_dec "%" c) as [<-|]; [|discriminate].
  repeat split; [|discriminate].
  unfold trim. cbn [trimStart]. change (isWhiteSpace "%") with false. cbn iota.
  eapply (trimEnd_endsWith _ "%" "%"); [reflexivity|exact He].
Qed.

Lemma findIndex_app {A} (p : A -> bool) (xs ys : list A) :
  Forall (fun x => p x = false) xs ->
  findIndex p (xs ++ ys) = (fun i => (length xs + i)%nat) <$> findIndex p ys.
Proof.
  induction 1 as [|x xs Hx _ IH]; cbn [app findIndex length].
  - now destruct (findIndex p ys).
  - rewrite Hx, IH. now destruct (findIndex p ys).
Qed.

Lemma findIndex_Some {A} (p : A -> bool) (l : list A) (i : nat) :
  findIndex p l = Some i ->
  exists x, l !! i = Some x /\ p x = true
            /\ Forall (fun y => p y = false) (take i l).
Proof.
  revert i. induction l as [|y l IH]; intros i; cbn [findIndex]; [discriminate|].
  destruct (p y) eqn:E.
  - intros [= <-]. exists y. repeat split; [assumption|constructor].
  - destruct (findIndex p l) as [j|]; [|discriminate].
    intros [= <-]. destruct (IH j eq_refl) as (x & Hx & Hpx & Hall).
    exists x. repeat split; [assumption..|]. now constructor.
Qed.

Lemma findIndex_None {A} (p : A -> bool) (l : list A) :
  findIndex p l = None -> Forall (fun y => p y = false) l.
Proof.
  induction l as [|y l IH]; cbn [findIndex]; [constructor|].
  destruct (p y) eqn:E; [discriminate|].
  destruct (findIndex p l); [discriminate|]. intros _. constructor; auto.
Qed.

(** [printError]'s loop keeps the last line that holds the flag. *)
Lemma findFlagLine_last (pointFlag : string) (lines : list string) :
  forall i acc,
    findFlagLine pointFlag i lines acc =
    match findLastIndex (fun x => includes (trim x) pointFlag) lines with
    | Some k => Some (i + k)%nat
    | None => acc
    end.
Proof.
  induction lines as [|l lines IH]; intros i acc; cbn [findFlagLine findLastIndex].
  - reflexivity.
  - rewrite IH. destruct (findLastIndex _ lines) as [k|].
    + f_equal. lia.
    + destruct (includes (trim l) pointFlag); [f_equal; lia|reflexivity].
Qed.

Lemma findLastIndex_Some {A} (p : A -> bool) (l : list A) (i : nat) :
  findLastIndex p l = Some i ->
  exists x, l !! i = Some x /\ p x = true
            /\ Forall (fun y => p y = false) (drop (S i) l).
Proof.
  revert i. induction l as [|y l IH]; intros i; cbn [findLastIndex]; [discriminate|].
  destruct (findLastIndex p l) as [j|] eqn:E.
  - intros [= <-]. destruct (IH j eq_refl) as (x & Hx & Hpx & Hall).
    exists x. repeat split; assumption.
  - destruct (p y) eqn:Ey; [|discriminate]. intros [= <-].
    exists y. repeat split; [assumption|].
    clear IH. cbn [drop]. rewrite drop_0.
    induction l as [|z l IHl]; [constructor|].
    cbn [findLastIndex] in E. destruct (findLastIndex p l); [discriminate|].
    destruct (p z) eqn:Ez; [discriminate|]. constructor; auto.
Qed.

Lemma findLastIndex_exists {A} (p : A -> bool) (l : list A) :
  Exists (fun x => p x = true) l -> is_Some (findLastIndex p l).
Proof.
  induction 1 as [x l Hx|x l _ IH]; cbn [findLastIndex].
  - destruct (findLastIndex p l); [eauto|]. rewrite Hx. eauto.
  - destruct IH as [i ->]. eauto.
Qed.

Lemma splice_one {A} (l : list A) (i : nat) (x : A) :
  (i < length l)%nat -> splice l i 1 x = <[i:=x]> l.
Proof.
  revert i. induction l as [|y l IH]; intros i Hi; [simpl in Hi; lia|].
  destruct i as [|i]; unfold splice in *; cbn.
  - now rewrite drop_0.
  - f_equal. rewrite <- IH by (simpl in Hi; lia).
    now replace (i + 1)%nat with (S i) by lia.
Qed.

End FlagFacts.

Lemma countLines_app (p : string -> bool) (xs ys : list string) :
  countLines p (xs ++ ys) = (countLines p xs + countLines p ys)%nat.
Proof. unfold countLines. now rewrite List.filter_app, length_app. Qed.

Lemma countLines_none (p : string -> bool) (xs : list string) :
  Forall (fun x => p x = false) xs -> countLines p xs = O.
Proof.
  unfold countLines. induction 1 as [|x xs Hx _ IH]; [reflexivity|].
  cbn [List.filter]. now rewrite Hx.
Qed.

(** * Facts about the ignore filter *)

Section IgnoreFacts.

Context {engine : RegExpEngine}.

Lemma ignorePath_forEach_ok (path : string) (patterns : list string) :
  Forall compiles patterns ->
  forall found,
  exists b,
    ignorePath_forEach path patterns found = Return b
    /\ (b = true <-> found = true \/ Exists (matchesPattern path) patterns).
Proof.
  induction 1 as [|p patterns Hp _ IH]; intros found; cbn [ignorePath_forEach].
  - exists found. split; [reflexivity|]. rewrite Exists_nil. tauto.
  - destruct (String.eqb p EmptyString) eqn:E.
    + apply String.eqb_eq in E. subst p.
      destruct (IH found) as (b & Hb & Hiff). exists b. split; [exact Hb|].
      assert (Hno : ~ matchesPattern path EmptyString) by (intros [Hne _]; now apply Hne).
      rewrite Hiff, Exists_cons. tauto.
    + apply String.eqb_neq in E.
      destruct Hp as [Hp|[regex Hregex]]; [contradiction|]. rewrite Hregex.
      destruct (IH (if String_match path regex then true else found))
        as (b & Hb & Hiff).
      exists b. split; [exact Hb|].
      assert (Hm : matchesPattern path p <-> String_match path regex = true).
      { split.
        - intros (_ & regex' & Hr' & Hm). rewrite Hregex in Hr'.
          now injection Hr' as <-.
        - intros Hm. split; [assumption|]. now exists regex. }
      rewrite Hiff, Exists_cons, Hm.
      destruct (String_match path regex); intuition discriminate.
Qed.

(** A source that does not compile stops the loop with the exception. *)
Lemma ignorePath_forEach_malformed (path : string) (patterns : list string) :
  Exists (fun p => ~ compiles p) patterns ->
  forall found, ignorePath_forEach path patterns found = Throw SyntaxError.
Proof.
  induction patterns as [|p patterns IH]; intros Hex found.
  - now apply Exists_nil in Hex.
  - cbn [ignorePath_forEach].
    destruct (String.eqb p EmptyString) eqn:E.
    + apply String.eqb_eq in E. subst p.
      apply Exists_cons in Hex as [Hbad|Hex]; [|now apply IH].
      exfalso. apply Hbad. now left.
    + destruct (RegExp_new p) as [regex|] eqn:Er; [|reflexivity].
      apply Exists_cons in Hex as [Hbad|Hex]; [|now apply IH].
      exfalso. apply Hbad. right. rewrite Er. eauto.
Qed.

Lemma compiles_dec (p : string) : compiles p \/ ~ compiles p.
Proof.
  unfold compiles. destruct (String.eqb p EmptyString) eqn:E.
  - apply String.eqb_eq in E. now left; left.
  - apply String.eqb_neq in E.
    destruct (RegExp_new p) as [regex|]; [left; right; eauto|].
    right. intros [H|[regex H]]; [contradiction|discriminate].
Qed.

Lemma not_all_compile (patterns : list string) :
  ~ Forall compiles patterns -> Exists (fun p => ~ compiles p) patterns.
Proof.
  induction patterns as [|p patterns IH]; intros Hnot.
  - exfalso. apply Hnot. constructor.
  - destruct (compiles_dec p) as [Hp|Hp]; [|now left].
    right. apply IH. intros Hall. apply Hnot. now constructor.
Qed.

End IgnoreFacts.

(** * Facts about flag detection *)

Section DetectFacts.

Context {engine : RegExpEngine}.
Variable fileRow : Vault -> WaypointSettings -> list YamlValue -> TFile -> string.
Variable settings : WaypointSettings.

(** The loop acts at the first line that holds the flag. *)
Lemma detectFlag_for_found (fuel : nat) (v : Vault) (file : TFile)
    (flagType : WaypointType) (lines : list string) :
  Exists (fun line => includes (trim line) (getWaypointFlag settings flagType) = true)
    lines ->
  detectFlag_for fileRow settings fuel v file flagType lines
  = detectFlag_found fileRow settings fuel v file flagType.
Proof.
  induction lines as [|line rest IH]; intros Hex.
  - now apply Exists_nil in Hex.
  - cbn [detectFlag_for].
    destruct (includes (trim line) (getWaypointFlag settings flagType)) eqn:E;
      [reflexivity|].
    apply Exists_cons in Hex as [Hex|Hex]; [congruence|]. now apply IH.
Qed.

Lemma detectFlag_for_none (fuel : nat) (v : Vault) (file : TFile)
    (flagType : WaypointType) (lines : list string) :
  Forall (fun line => includes (trim line) (getWaypointFlag settings flagType) = false)
    lines ->
  detectFlag_for fileRow settings fuel v file flagType lines = Some (Return (v, [])).
Proof.
  induction 1 as [|line rest Hl _ IH]; cbn [detectFlag_for]; [reflexivity|].
  now rewrite Hl.
Qed.

(** [printError] overwrites the last line that holds the flag. *)
Lemma printError_last (v : Vault) (file : TFile) (error : string)
    (flagType : WaypointType) (i : nat) :
  findLastIndex (fun x => includes (trim x) (getWaypointFlag settings flagType))
    (split (read v file)) = Some i ->
  printError settings v file error flagType
  = modify v file (join (<[i := error]> (split (read v file)))).
Proof.
  intros Hi. unfold printError, printErrorText.
  rewrite findFlagLine_last, Hi. cbn [Nat.add].
  rewrite splice_one; [reflexivity|].
  destruct (findLastIndex_Some _ _ _ Hi) as (x & Hx & _).
  now apply lookup_lt_Some in Hx.
Qed.

End DetectFacts.

(** * Facts about the order of children *)

Section SortFacts.

Lemma timed_ctime (a : TAbstractFile) :
  lacksCtime a = false -> exists t, ctimeOf a = Some t /\ t <> 0.
Proof.
  unfold lacksCtime. destruct (ctimeOf a) as [t|]; [|discriminate].
  intros H. exists t. split; [reflexivity|]. now apply Z.eqb_neq.
Qed.

Lemma Date_getTime_valid (t : Z) :
  Z.abs t <= 8640000000000000 -> Date_getTime t = Some t.
Proof.
  intros H. unfold Date_getTime.
  now rewrite (proj2 (Z.leb_le _ _) H).
Qed.

Lemma compareChildren_lt (x y : TAbstractFile) :
  validTime x -> validTime y ->
  SortCompare compareChildren x y < 0 -> newestFirst x y.
Proof.
  intros Hx Hy. unfold SortCompare, compareChildren, newestFirst.
  destruct (lacksCtime x) eqn:Ex; [now left|].
  destruct (lacksCtime y) eqn:Ey; [cbn; lia|].
  destruct (timed_ctime x Ex) as (tx & Htx & Hnx).
  destruct (timed_ctime y Ey) as (ty & Hty & Hny).
  rewrite Htx, Hty. cbn [from_option id].
  rewrite (Date_getTime_valid tx (Hx tx Htx)), (Date_getTime_valid ty (Hy ty Hty)).
  cbn. intros Hlt. right. exists tx, ty. repeat split; try assumption. lia.
Qed.

Lemma compareChildren_ge (x y : TAbstractFile) :
  validTime x -> validTime y ->
  ~ SortCompare compareChildren x y < 0 -> newestFirst y x.
Proof.
  intros Hx Hy. unfold SortCompare, compareChildren, newestFirst.
  destruct (lacksCtime x) eqn:Ex; [cbn; lia|].
  destruct (lacksCtime y) eqn:Ey; [now left|].
  destruct (timed_ctime x Ex) as (tx & Htx & Hnx).
  destruct (timed_ctime y Ey) as (ty & Hty & Hny).
  rewrite Htx, Hty. cbn [from_option id].
  rewrite (Date_getTime_valid tx (Hx tx Htx)), (Date_getTime_valid ty (Hy ty Hty)).
  cbn. intros Hge. right. exists ty, tx. repeat split; try assumption. lia.
Qed.

Lemma newestFirst_trans (a b c : TAbstractFile) :
  newestFirst a b -> newestFirst b c -> newestFirst a c.
Proof.
  intros [Ha|(ta & tb & Hta & Htb & Hna & Hnb & Hab)]; [now left|].
  intros [Hb|(tb' & tc & Htb' & Htc & _ & Hnc & Hbc)].
  - unfold lacksCtime in Hb. rewrite Htb in Hb. apply Z.eqb_eq in Hb. contradiction.
  - right. exists ta, tc. rewrite Htb in Htb'. injection Htb' as <-.
    repeat split; try assumption. lia.
Qed.

Lemma sortInsert_perm {A} (comparefn : A -> A -> option Z) (x : A) (l : list A) :
  Permutation (sortInsert comparefn x l) (x :: l).
Proof.
  induction l as [|y l IH]; cbn [sortInsert]; [reflexivity|].
  destruct (SortCompare comparefn x y <? 0); [reflexivity|].
  rewrite IH. apply perm_swap.
Qed.

Lemma sortInsert_sorted (x : TAbstractFile) (l : list TAbstractFile) :
  validTime x -> Forall validTime l ->
  StronglySorted newestFirst l ->
  StronglySorted newestFirst (sortInsert compareChildren x l).
Proof.
  intros Hx Hl Hsorted. induction Hsorted as [|y l Hsorted IH Hy]; cbn [sortInsert].
  - repeat constructor.
  - inversion Hl as [|? ? Hvy Hvl]; subst.
    destruct (SortCompare compareChildren x y <? 0) eqn:E.
    + apply Z.ltb_lt in E. pose proof (compareChildren_lt x y Hx Hvy E) as Hxy.
      constructor; [now constructor|].
      constructor; [exact Hxy|].
      eapply Forall_impl; [exact Hy|]. intros z Hz.
      now apply (newestFirst_trans x y z).
    + apply Z.ltb_ge in E.
      assert (Hyx : newestFirst y x) by (apply compareChildren_ge; [assumption..|lia]).
      constructor; [now apply IH|].
      rewrite (sortInsert_perm compareChildren x l). now constructor.
Qed.

Lemma Array_sort_acc (l acc : list TAbstractFile) :
  Forall validTime l -> Forall validTime acc ->
  StronglySorted newestFirst acc ->
  StronglySorted newestFirst
    (foldl (fun sorted x => sortInsert compareChildren x sorted) acc l)
  /\ Permutation (foldl (fun sorted x => sortInsert compareChildren x sorted) acc l)
       (acc ++ l).
Proof.
  revert acc. induction l as [|x l IH]; intros acc Hl Hacc Hsorted; cbn [foldl].
  - rewrite app_nil_r. now split.
  - inversion Hl as [|? ? Hx Hl']; subst.
    destruct (IH (sortInsert compareChildren x acc)) as [Hs Hp].
    + assumption.
    + rewrite (sortInsert_perm compareChildren x acc). now constructor.
    + now apply sortInsert_sorted.
    + split; [exact Hs|]. rewrite Hp, (sortInsert_perm compareChildren x acc).
      apply Permutation_middle.
Qed.

(** [sort] with the comparator of lines 351-354 puts the children without
    creation time first and the others newest first. *)
Lemma Array_sort_newestFirst (l : list TAbstractFile) :
  Forall validTime l ->
  StronglySorted newestFirst (Array_sort compareChildren l)
  /\ Permutation (Array_sort compareChildren l) l.
Proof.
  intros Hl. unfold Array_sort.
  destruct (Array_sort_acc l [] Hl) as [Hs Hp]; [constructor..|]. now split.
Qed.

Lemma compareChildren_le (x y : TAbstractFile) :
  validTime x -> validTime y ->
  SortCompare compareChildren x y <= 0 -> newestFirst x y.
Proof.
  intros Hx Hy. unfold SortCompare, compareChildren, newestFirst.
  destruct (lacksCtime x) eqn:Ex; [now left|].
  destruct (lacksCtime y) eqn:Ey; [cbn; lia|].
  destruct (timed_ctime x Ex) as (tx & Htx & Hnx).
  destruct (timed_ctime y Ey) as (ty & Hty & Hny).
  rewrite Htx, Hty. cbn [from_option id].
  rewrite (Date_getTime_valid tx (Hx tx Htx)), (Date_getTime_valid ty (Hy ty Hty)).
  cbn. intros Hle. right. exists tx, ty. repeat split; try assumption. lia.
Qed.

(** Any arrangement that the comparator accepts pair by pair is in that
    order too: the order of the rows does not hinge on the insertion
    strategy of [Array_sort]. *)
Lemma accepted_order_newestFirst (l : list TAbstractFile) :
  Forall validTime l ->
  StronglySorted (fun a b => SortCompare compareChildren a b <= 0) l ->
  StronglySorted newestFirst l.
Proof.
  intros Hvalid Hsorted. induction Hsorted as [|x l Hsorted IH Hx].
  - constructor.
  - inversion Hvalid as [|? ? Hvx Hvl]; subst.
    constructor; [now apply IH|].
    rewrite Forall_forall in Hx, Hvl |- *.
    intros y Hy. apply compareChildren_le; auto.
Qed.

Lemma Forall_of_sublist {A} (P : A -> Prop) (k l : list A) :
  sublist k l -> Forall P l -> Forall P k.
Proof.
  induction 1 as [|x k l Hsub IH|x k l Hsub IH]; intros Hall.
  - constructor.
  - inversion Hall; subst. constructor; auto.
  - inversion Hall; subst. auto.
Qed.

Lemma StronglySorted_sublist {A} (R : A -> A -> Prop) (k l : list A) :
  sublist k l -> StronglySorted R l -> StronglySorted R k.
Proof.
  induction 1 as [|x k l Hsub IH|x k l Hsub IH]; intros Hsorted.
  - constructor.
  - apply StronglySorted_inv in Hsorted as [Hs Hx].
    constructor; [now apply IH|]. eapply Forall_of_sublist; eassumption.
  - apply StronglySorted_inv in Hsorted as [Hs _]. now apply IH.
Qed.

End SortFacts.

Section FilterFacts.

Context {engine : RegExpEngine}.
Variable settings : WaypointSettings.

(** The filter keeps the order of the children it lets through. *)
Lemma filterChildren_sublist (v : Vault) (children : list TAbstractFile) :
  forall filtered folderNote result folderNote',
    filterChildren settings v children filtered folderNote
    = Return (result, folderNote') ->
    exists kept, result = filtered ++ kept /\ sublist kept children.
Proof.
  induction children as [|child rest IH]; intros filtered folderNote result folderNote'.
  - cbn [filterChildren]. intros [= <- <-]. exists []. now rewrite app_nil_r.
  - cbn [filterChildren].
    destruct (ignorePath settings (path child)) as [ignored|e]; [|discriminate].
    cbn [mbind Outcome_bind].
    assert (Hskip : forall fn,
      filterChildren settings v rest filtered fn = Return (result, folderNote') ->
      exists kept, result = filtered ++ kept /\ sublist kept (child :: rest)).
    { intros fn H. destruct (IH _ _ _ _ H) as (kept & -> & Hsub).
      exists kept. split; [reflexivity|]. now constructor. }
    assert (Hkeep : forall fn,
      filterChildren settings v rest (filtered ++ [child]) fn
      = Return (result, folderNote') ->
      exists kept, result = filtered ++ kept /\ sublist kept (child :: rest)).
    { intros fn H. destruct (IH _ _ _ _ H) as (kept & -> & Hsub).
      exists (child :: kept). rewrite <- app_assoc. split; [reflexivity|].
      now constructor. }
    destruct ignored; [apply Hskip|].
    destruct child as [f|d]; [|apply Hkeep].
    destruct (isFolderNote settings v f) as [isNote|e]; [|discriminate].
    cbn [mbind Outcome_bind].
    destruct isNote; [|apply Hkeep].
    destruct (showFolderNotes settings); [apply Hkeep|apply Hskip].
Qed.

End FilterFacts.

(** * Facts about propagation *)

Section PropagationFacts.

Context {engine : RegExpEngine}.
Variable fileRow : Vault -> WaypointSettings -> list YamlValue -> TFile -> string.
Variable settings : WaypointSettings.

Lemma updateParentPoint_unfold (fuel : nat) (v : Vault) (node : TAbstractFile)
    (includeCurrentNode : bool) :
  updateParentPoint fileRow settings (S fuel) v node includeCurrentNode =
  match locateParentPoint settings (S fuel) v node includeCurrentNode with
  | None => None
  | Some found => thenUpdate fileRow settings fuel v found
  end.
Proof.
  cbn [updateParentPoint].
  destruct (locateParentPoint settings (S fuel) v node includeCurrentNode)
    as [[[flag point]|]|]; reflexivity.
Qed.

Lemma parentOf_fileMap (v v' : Vault) (node : TAbstractFile) :
  fileMap v' = fileMap v -> parentOf v' node = parentOf v node.
Proof. intros H. unfold parentOf. now rewrite H. Qed.

Lemma folderNoteOf_fileMap (v v' : Vault) (folder : TAbstractFile) :
  fileMap v' = fileMap v ->
  folderNoteOf settings v' folder = folderNoteOf settings v folder.
Proof.
  intros H. unfold folderNoteOf, getAbstractFileByPath.
  now rewrite (parentOf_fileMap v v' folder H), H.
Qed.

Lemma folderNoteOf_stored (v : Vault) (folder node : TAbstractFile) :
  folderNoteOf settings v folder = Some node ->
  exists k, fileMap v !! k = Some node.
Proof.
  unfold folderNoteOf, getAbstractFileByPath.
  destruct (String.eqb _ _); [eauto|].
  destruct (parentOf v folder); [eauto|discriminate].
Qed.

Lemma parentPointAt_note (v : Vault) (folder : TAbstractFile)
    (flag : WaypointType) (point : TFile) :
  parentPointAt settings v folder = Some (flag, point) ->
  folderNoteOf settings v folder = Some (File point).
Proof.
  unfold parentPointAt.
  destruct (folderNoteOf settings v folder) as [[f|d]|]; [|discriminate..].
  destruct (_ || _); [now intros [= _ <-]|].
  destruct (_ || _); [now intros [= _ <-]|discriminate].
Qed.

Lemma updateWaypoint_fileMap (v v' : Vault) (file : TFile) (flagType : WaypointType) :
  updateWaypoint fileRow settings v file flagType = Return v' ->
  v' = v \/ exists text, v' = modify v file text.
Proof.
  unfold updateWaypoint.
  match goal with |- context [mbind _ ?m] => destruct m as [fileTree|e] end;
    [|discriminate].
  cbn [mbind Outcome_bind].
  destruct (updateWaypointText settings flagType fileTree (read v file)) as [text|].
  - intros [= <-]. right. now exists text.
  - intros [= <-]. now left.
Qed.

Lemma regenerate_cases (v : Vault) (point : WaypointType * TFile) :
  regenerate fileRow settings v point = v
  \/ exists text, regenerate fileRow settings v point = modify v (snd point) text.
Proof.
  unfold regenerate.
  destruct (updateWaypoint fileRow settings v (snd point) (fst point)) as [v'|e] eqn:E;
    [|now left].
  destruct (updateWaypoint_fileMap _ _ _ _ E) as [->|[text ->]]; [now left|].
  right. now exists text.
Qed.

Lemma regenerate_fileMap (v : Vault) (point : WaypointType * TFile) :
  fileMap (regenerate fileRow settings v point) = fileMap v.
Proof.
  destruct (regenerate_cases v point) as [->|[text ->]]; reflexivity.
Qed.

(** Folders of the chain above a folder are stored under references of
    lower rank. *)
Lemma ancestorChain_rank (v : Vault) (rank : string -> nat) :
  TreeVault settings v rank ->
  forall n start d,
    d ∈ ancestorChain n v start ->
    exists k, fileMap v !! k = Some (Folder d)
              /\ (S (rank k) <= startBound rank start)%nat.
Proof.
  intros Htree. induction n as [|n IH]; intros start d Hin.
  - cbn in Hin. now apply elem_of_nil in Hin.
  - destruct start as [k|]; [|cbn in Hin; now apply elem_of_nil in Hin].
    cbn [ancestorChain] in Hin.
    destruct (fileMap v !! k) as [[f|d0]|] eqn:Ek;
      try (now apply elem_of_nil in Hin).
    apply elem_of_cons in Hin as [->|Hin].
    + exists k. split; [assumption|reflexivity].
    + destruct (IH _ _ Hin) as (k' & Hk' & Hrank).
      exists k'. split; [assumption|].
      destruct (folder_parent d0) as [q|] eqn:Eq; [|cbn in Hrank; lia].
      pose proof (parent_above settings v rank Htree k (Folder d0) q Ek Eq).
      cbn [startBound] in *. lia.
Qed.

(** Rewriting the note found for a folder leaves the answer of the marker
    test unchanged for the folders above it. *)
Lemma parentPointAt_above (v v' : Vault) (rank : string -> nat)
    (k : string) (d d' : TFolder) (flag : WaypointType) (point : TFile)
    (text : string) (n : nat) :
  TreeVault settings v rank ->
  fileMap v' = fileMap v ->
  fileMap v !! k = Some (Folder d) ->
  parentPointAt settings v' (Folder d) = Some (flag, point) ->
  d' ∈ ancestorChain n v (folder_parent d) ->
  parentPointAt settings (modify v' point text) (Folder d')
  = parentPointAt settings v' (Folder d').
Proof.
  intros Htree Hmap Hk Hpoint Hin.
  destruct (ancestorChain_rank v rank Htree _ _ _ Hin) as (k' & Hk' & Hrank).
  assert (Hlt : (rank k' < rank k)%nat).
  { destruct (folder_parent d) as [q|] eqn:Eq; [|cbn in Hrank; lia].
    pose proof (parent_above settings v rank Htree k (Folder d) q Hk Eq).
    cbn [startBound] in Hrank. lia. }
  apply parentPointAt_note in Hpoint.
  rewrite (folderNoteOf_fileMap v v') in Hpoint by assumption.
  pose proof (note_in_folder settings v rank Htree k d point Hk Hpoint) as Hparent.
  unfold parentPointAt.
  rewrite (folderNoteOf_fileMap v' (modify v' point text)) by reflexivity.
  rewrite (folderNoteOf_fileMap v v') by assumption.
  destruct (folderNoteOf settings v (Folder d')) as [[note|?]|] eqn:Enote;
    [|reflexivity..].
  pose proof (note_in_folder settings v rank Htree k' d' note Hk' Enote) as Hparent'.
  assert (Hne : file_path point <> file_path note).
  { intros Heq.
    destruct (folderNoteOf_stored v _ _ Hpoint) as (kp & Hkp).
    destruct (folderNoteOf_stored v _ _ Enote) as (kn & Hkn).
    rewrite (file_under_path settings v rank Htree kp point Hkp) in Heq.
    rewrite (file_under_path settings v rank Htree kn note Hkn) in Heq.
    subst kn. rewrite Hkp in Hkn. injection Hkn as <-.
    rewrite Hparent in Hparent'. injection Hparent' as <-. lia. }
  unfold read, modify. cbn [data]. now rewrite lookup_insert_ne.
Qed.

(** With fuel above the height of the start, the walk and everything it
    starts return: the notes regenerated are the indexed folder notes of
    the chain, from the nearest upwards. *)
Lemma propagation_from (v : Vault) (rank : string -> nat) :
  TreeVault settings v rank ->
  forall n v' start,
    (startBound rank start <= n)%nat ->
    fileMap v' = fileMap v ->
    (forall d, d ∈ ancestorChain n v start ->
               parentPointAt settings v' (Folder d)
               = parentPointAt settings v (Folder d)) ->
    forall f1 f2,
      (n + 1 <= f1)%nat -> (n <= f2)%nat ->
      match locateParentPoint_while settings f1 v' (folderAt v start) with
      | None => None
      | Some found => thenUpdate fileRow settings f2 v' found
      end
      = let indexed :=
          omap (fun d => parentPointAt settings v (Folder d))
            (ancestorChain n v start) in
        Some (foldl (regenerate fileRow settings) v' indexed, indexed).
Proof.
  intros Htree. induction n as [|n IH]; intros v' start Hbound Hmap Hagree f1 f2 Hf1 Hf2.
  - destruct start as [k|]; [cbn in Hbound; lia|].
    destruct f1 as [|f1]; [lia|]. reflexivity.
  - destruct f1 as [|f1]; [lia|].
    destruct start as [k|]; [|reflexivity].
    cbn [folderAt ancestorChain].
    destruct (fileMap v !! k) as [[f|d]|] eqn:Ek; [reflexivity| |reflexivity].
    cbn [locateParentPoint_while].
    assert (Hup : Folder <$> parentOf v' (Folder d) = folderAt v (folder_parent d)).
    { rewrite (parentOf_fileMap v v') by assumption.
      unfold parentOf, folderAt. cbn [parent].
      destruct (folder_parent d) as [q|]; [|reflexivity].
      now destruct (fileMap v !! q) as [[?|?]|]. }
    assert (Hbound' : (startBound rank (folder_parent d) <= n)%nat).
    { destruct (folder_parent d) as [q|] eqn:Eq; [|cbn; lia].
      pose proof (parent_above settings v rank Htree k (Folder d) q Ek Eq).
      cbn [startBound] in *. lia. }
    assert (Hhere : parentPointAt settings v' (Folder d)
                    = parentPointAt settings v (Folder d)).
    { apply Hagree. cbn [ancestorChain]. rewrite Ek. now left. }
    assert (Hrest : forall d', d' ∈ ancestorChain n v (folder_parent d) ->
              parentPointAt settings v' (Folder d')
              = parentPointAt settings v (Folder d')).
    { intros d' Hin. apply Hagree. cbn [ancestorChain]. rewrite Ek. now right. }
    cbn [omap list_omap]. rewrite <- Hhere.
    destruct (parentPointAt settings v' (Folder d)) as [[flag point]|] eqn:Epoint.
    + cbn [thenUpdate snd fst].
      pose proof (parentPointAt_note _ _ _ _ Epoint) as Hnote.
      rewrite (folderNoteOf_fileMap v v') in Hnote by assumption.
      pose proof (note_in_folder settings v rank Htree k d point Ek Hnote) as Hparent.
      assert (Hp : parentOf (regenerate fileRow settings v' (flag, point)) (File point) = Some d).
      { unfold parentOf. cbn [parent]. rewrite Hparent, regenerate_fileMap, Hmap.
        now rewrite Ek. }
      rewrite Hp.
      destruct f2 as [|f2]; [lia|].
      rewrite updateParentPoint_unfold. unfold locateParentPoint.
      rewrite (parentOf_fileMap v (regenerate fileRow settings v' (flag, point)))
        by (now rewrite regenerate_fileMap).
      rewrite (parentOf_fileMap v v') in Hup by assumption.
      rewrite Hup.
      rewrite (IH (regenerate fileRow settings v' (flag, point)) (folder_parent d) Hbound').
      * reflexivity.
      * now rewrite regenerate_fileMap.
      * intros d' Hin. rewrite <- (Hrest d' Hin).
        destruct (regenerate_cases v' (flag, point)) as [->|[text ->]];
          [reflexivity|].
        now apply (parentPointAt_above v v' rank k d d' flag point text n).
      * lia.
      * lia.
    + rewrite Hup. apply (IH v' (folder_parent d) Hbound' Hmap Hrest); lia.
Qed.

End PropagationFacts.

(** * Facts about regeneration *)

(** Outside a callout a second pass writes the block over itself: the note
    after one update is a fixed point of the update, as long as no line of
    the rendered table is an end delimiter. *)
Lemma updateWaypointText_idempotent_plain (settings : WaypointSettings)
    (flagType : WaypointType) (fileTree : Value) (text : string)
    (pre post : list string) (l : string) :
  split text = pre ++ l :: post ->
  Forall (fun x => isStartLine (getWaypointFlag settings flagType)
                     (fst (getWaypointBounds flagType)) x = false) pre ->
  isStartLine (getWaypointFlag settings flagType)
    (fst (getWaypointBounds flagType)) l = true ->
  startsWith (trim l) ">" = false ->
  Forall (fun x => isEndLine (snd (getWaypointBounds flagType)) x = false)
    (split (toString fileTree)) ->
  exists r,
    updateWaypointText settings flagType fileTree text = Some r
    /\ updateWaypointText settings flagType fileTree r = Some r.
Proof.
  intros Hsplit Hpre Hl Hplain Htree.
  destruct (updateWaypointText_found settings flagType fileTree text pre post l
              Hsplit Hpre Hl) as (r & Hr & Hlines).
  exists r. split; [exact Hr|].
  rewrite Hplain in Hlines. unfold emittedLines, blockLines in Hlines.
  set (bw := fst (getWaypointBounds flagType)) in *.
  set (ew := snd (getWaypointBounds flagType)) in *.
  set (rest := afterBlock ew post) in *.
  assert (Hsplit' : split r
            = pre ++ bw :: (split (toString fileTree) ++ [EmptyString; ew] ++ rest)).
  { rewrite Hlines. cbn [app]. now rewrite <- !app_assoc. }
  assert (Hbw : isStartLine (getWaypointFlag settings flagType) bw bw = true).
  { unfold isStartLine.
    replace (includes (trim bw) bw) with true
      by (subst bw; destruct flagType; reflexivity).
    apply orb_true_r. }
  destruct (updateWaypointText_found settings flagType fileTree r pre _ bw
              Hsplit' Hpre Hbw) as (r' & Hr' & Hlines').
  rewrite Hr'. f_equal.
  rewrite <- (join_split r'), <- (join_split r). f_equal.
  rewrite Hlines', Hlines.
  replace (startsWith (trim bw) ">") with false
    by (subst bw; destruct flagType; reflexivity).
  unfold emittedLines, blockLines. fold bw ew. cbn [app]. do 2 f_equal.
  rewrite <- !app_assoc. f_equal. cbn [app]. do 2 f_equal.
  unfold afterBlock at 1.
  rewrite findIndex_app by exact Htree.
  cbn [findIndex]. unfold isEndLine at 1.
  replace (String.eqb (trim EmptyString) ew) with false
    by (subst ew; destruct flagType; reflexivity).
  unfold isEndLine at 1.
  replace (String.eqb (trim ew) ew) with true
    by (subst ew; destruct flagType; reflexivity).
  cbn [fmap option_fmap option_map].
  replace (S (length (split (toString fileTree)) + 1))
    with (length (split (toString fileTree)) + 2)%nat by lia.
  now rewrite drop_app_add.
Qed.

(** * Facts about [updateWaypoint] on the vault *)

Section UpdateFacts.

Context {engine : RegExpEngine}.
Variable fileRow : Vault -> WaypointSettings -> list YamlValue -> TFile -> string.
Variable settings : WaypointSettings.

Lemma read_modify (v : Vault) (file : TFile) (text : string) :
  read (modify v file text) file = text.
Proof. unfold read, modify. cbn [data]. now rewrite lookup_insert_eq. Qed.

(** Once the table is rendered, [updateWaypoint] is the splice on the text
    of the note. *)
Lemma updateWaypoint_rendered (v : Vault) (file : TFile) (flagType : WaypointType)
    (fileTree : Value) :
  renderFolderOf fileRow settings v file = Return fileTree ->
  updateWaypoint fileRow settings v file flagType
  = Return match updateWaypointText settings flagType fileTree (read v file) with
           | Some text => modify v file text
           | None => v
           end.
Proof.
  intros H. unfold updateWaypoint. rewrite H. cbn [mbind Outcome_bind].
  now destruct (updateWaypointText settings flagType fileTree (read v file)).
Qed.

End UpdateFacts.

(** A note whose whole text is the trigger flag becomes the block alone:
    one begin line, one end line and no line with the flag. *)
Lemma flag_only_becomes_block (settings : WaypointSettings)
    (flagType : WaypointType) (fileTree : Value) :
  let flag := getWaypointFlag settings flagType in
  let beginWaypoint := fst (getWaypointBounds flagType) in
  let endWaypoint := snd (getWaypointBounds flagType) in
  acceptedFlag flag = true ->
  singleLine flag ->
  includes beginWaypoint flag = false ->
  includes endWaypoint flag = false ->
  Forall (fun x => includes (trim x) flag = false
                   /\ includes (trim x) beginWaypoint = false
                   /\ isEndLine endWaypoint x = false)
    (split (toString fileTree)) ->
  exists r,
    updateWaypointText settings flagType fileTree flag = Some r
    /\ split r = beginWaypoint :: split (toString fileTree) ++ [EmptyString; endWaypoint]
    /\ countLines (fun x => includes (trim x) beginWaypoint) (split r) = 1%nat
    /\ countLines (isEndLine endWaypoint) (split r) = 1%nat
    /\ countLines (fun x => includes (trim x) flag) (split r) = 0%nat.
Proof.
  intros flag bw ew Hacc Hline Hfb Hfe Htree.
  destruct (acceptedFlag_trim flag Hacc) as (Htrim & Hgt & Hne).
  assert (Hstart : isStartLine flag bw flag = true).
  { unfold isStartLine. now rewrite Htrim, includes_refl. }
  destruct (updateWaypointText_found settings flagType fileTree flag [] [] flag)
    as (r & Hr & Hlines); [exact Hline|constructor|exact Hstart|].
  exists r. split; [exact Hr|].
  fold flag in Hlines. rewrite Htrim, Hgt in Hlines.
  unfold emittedLines, afterBlock, blockLines in Hlines.
  cbn [findIndex app] in Hlines. rewrite app_nil_r in Hlines.
  fold bw ew in Hlines. split; [exact Hlines|].
  rewrite Hlines.
  assert (Hbw : trim bw = bw) by (subst bw; destruct flagType; reflexivity).
  assert (Hew : trim ew = ew) by (subst ew; destruct flagType; reflexivity).
  assert (Hbb : includes bw bw = true) by (subst bw; destruct flagType; reflexivity).
  assert (Heb : includes ew bw = false) by (subst bw ew; destruct flagType; reflexivity).
  assert (Hbe : String.eqb bw ew = false) by (subst bw ew; destruct flagType; reflexivity).
  assert (Hnb : includes EmptyString bw = false) by (subst bw; destruct flagType; reflexivity).
  assert (Hnf : includes EmptyString flag = false).
  { destruct flag; [contradiction|reflexivity]. }
  assert (Hne' : String.eqb EmptyString ew = false)
    by (subst ew; destruct flagType; reflexivity).
  repeat split.
  - change (bw :: split (toString fileTree) ++ [EmptyString; ew])
      with ([bw] ++ split (toString fileTree) ++ [EmptyString; ew]).
    rewrite !countLines_app.
    rewrite (countLines_none _ (split (toString fileTree))).
    + unfold countLines. cbn [List.filter].
      change (trim EmptyString) with EmptyString.
      now rewrite Hbw, Hew, Hbb, Heb, Hnb.
    + eapply Forall_impl; [exact Htree|]. now intros x (_ & H & _).
  - change (bw :: split (toString fileTree) ++ [EmptyString; ew])
      with ([bw] ++ split (toString fileTree) ++ [EmptyString; ew]).
    rewrite !countLines_app.
    rewrite (countLines_none _ (split (toString fileTree))).
    + unfold countLines, isEndLine. cbn [List.filter].
      change (trim EmptyString) with EmptyString.
      now rewrite Hbw, Hew, Hbe, Hne', String.eqb_refl.
    + eapply Forall_impl; [exact Htree|]. now intros x (_ & _ & H).
  - change (bw :: split (toString fileTree) ++ [EmptyString; ew])
      with ([bw] ++ split (toString fileTree) ++ [EmptyString; ew]).
    rewrite !countLines_app.
    rewrite (countLines_none _ (split (toString fileTree))).
    + unfold countLines. cbn [List.filter].
      change (trim EmptyString) with EmptyString.
      now rewrite Hbw, Hew, Hfb, Hfe, Hnf.
    + eapply Forall_impl; [exact Htree|]. now intros x (H & _ & _).
Qed.

(** * Facts about the vault of the examples *)

Lemma demo_children_valid :
  Forall validTime (childrenOf demoVault (Folder projectsFolder)).
Proof.
  assert (E : childrenOf demoVault (Folder projectsFolder)
              = [File projectsNote; File alphaNote; File betaNote;
                 Folder archiveFolder; Folder attachmentsFolder])
    by (vm_compute; reflexivity).
  rewrite E.
  repeat (apply Forall_cons; split;
          [intros t Ht; cbn in Ht; try discriminate; injection Ht as <-; cbn; lia|]).
  apply Forall_nil. exact I.
Qed.

Lemma demoTable_clean :
  Forall (fun x => includes (trim x) "%% Waypoint %%" = false
                   /\ includes (trim x) BEGIN_WAYPOINT = false
                   /\ isEndLine END_WAYPOINT x = false)
    (split demoTable).
Proof.
  replace (split demoTable)
    with ["# Projects";
          "[[Projects/new file.md\|new file]] | [[Projects/new folder/new folder.md\|new folder]]";
          EmptyString;
          "|TITLE|DATE|";
          "|---|---|";
          "|[[Projects/Archive/Archive.md\|Archive]]||";
          "|[[Projects/Beta.md\|Beta]]||";
          "|[[Projects/Alpha.md\|Alpha]]||";
          EmptyString] by reflexivity.
  repeat (apply Forall_cons; split; [repeat split; reflexivity|]).
  apply Forall_nil. exact I.
Qed.

Lemma demoVault_tree : TreeVault DEFAULT_SETTINGS demoVault demoRank.
Proof.
  split.
  - intros k node q Hk Hq. apply elem_of_list_to_map_2 in Hk.
    repeat (apply elem_of_cons in Hk as [Hk|Hk];
            [simplify_eq; cbn in Hq; simplify_eq; vm_compute; lia|]).
    now apply elem_of_nil in Hk.
  - intros k d note Hk Hnote. apply elem_of_list_to_map_2 in Hk.
    repeat (apply elem_of_cons in Hk as [Hk|Hk];
            [simplify_eq; vm_compute in Hnote; simplify_eq; reflexivity|]).
    now apply elem_of_nil in Hk.
  - intros k f Hk. apply elem_of_list_to_map_2 in Hk.
    repeat (apply elem_of_cons in Hk as [Hk|Hk]; [simplify_eq; reflexivity|]).
    now apply elem_of_nil in Hk.
Qed.

(** * Further facts *)

(** * Facts about trimming and searching *)

Section TrimFacts.

Lemma append_assoc (a b c : string) : (a +:+ b) +:+ c = a +:+ (b +:+ c).
Proof.
  induction a as [|x a IH]; [reflexivity|].
  change (String x a +:+ b) with (String x (a +:+ b)).
  change (String x (a +:+ b) +:+ c) with (String x ((a +:+ b) +:+ c)).
  now rewrite IH.
Qed.

Lemma append_String (c : ascii) (a b : string) :
  String c a +:+ b = String c (a +:+ b).
Proof. reflexivity. Qed.

Lemma length_append (a b : string) :
  String.length (a +:+ b) = (String.length a + String.length b)%nat.
Proof.
  induction a as [|x a IH]; [reflexivity|].
  change (String x a +:+ b) with (String x (a +:+ b)).
  cbn [String.length]. now rewrite IH.
Qed.

Lemma prefix_String (c d : ascii) (p s : string) :
  String.prefix (String c p) (String d s) = Ascii.eqb c d && String.prefix p s.
Proof.
  cbn [String.prefix]. destruct (ascii_dec c d) as [->|Hne].
  - now rewrite Ascii.eqb_refl.
  - apply Ascii.eqb_neq in Hne. now rewrite Hne.
Qed.

Lemma prefix_empty (s : string) : String.prefix EmptyString s = true.
Proof. now destruct s. Qed.

Lemma prefix_of_empty (p : string) :
  String.prefix p EmptyString = true -> p = EmptyString.
Proof. now destruct p. Qed.

Lemma prefix_includes (s sub : string) :
  String.prefix sub s = true -> includes s sub = true.
Proof. intros H. destruct s; cbn [includes]; now rewrite H. Qed.

Lemma prefix_trans (p q s : string) :
  String.prefix p q = true -> String.prefix q s = true -> String.prefix p s = true.
Proof.
  revert q s. induction p as [|c p IH]; intros q s Hpq Hqs; [apply prefix_empty|].
  destruct q as [|d q]; [discriminate|]. destruct s as [|e s]; [discriminate|].
  rewrite prefix_String in *. apply andb_true_iff in Hpq as [Hcd Hpq].
  apply andb_true_iff in Hqs as [Hde Hqs].
  apply Ascii.eqb_eq in Hcd, Hde. subst. rewrite Ascii.eqb_refl. cbn.
  now apply (IH q s).
Qed.

(** A text that begins with a character that is no white space is found in
    a line exactly when it is found in the line without its leading white
    space. *)
Lemma includes_trimStart (x : string) (c : ascii) (f : string) :
  isWhiteSpace c = false ->
  includes (trimStart x) (String c f) = includes x (String c f).
Proof.
  intros Hc. induction x as [|d x IH]; [reflexivity|].
  cbn [trimStart]. destruct (isWhiteSpace d) eqn:Hd; [|reflexivity].
  rewrite IH, includes_String, prefix_String.
  destruct (Ascii.eqb c d) eqn:E; [|reflexivity].
  apply Ascii.eqb_eq in E. congruence.
Qed.

Lemma trimEnd_prefix (x : string) : String.prefix (trimEnd x) x = true.
Proof.
  induction x as [|d x IH]; [reflexivity|].
  cbn [trimEnd]. destruct (trimEnd x) as [|e t] eqn:E.
  - destruct (isWhiteSpace d); [reflexivity|].
    rewrite prefix_String, Ascii.eqb_refl. apply prefix_empty.
  - now rewrite prefix_String, Ascii.eqb_refl.
Qed.

(** White space only: nothing is left by [trimEnd]. *)
Lemma trimEnd_empty_prefix (p x : string) :
  String.prefix p x = true -> trimEnd x = EmptyString -> trimEnd p = EmptyString.
Proof.
  revert x. induction p as [|c p IH]; intros x Hp Hx; [reflexivity|].
  destruct x as [|d x]; [discriminate|].
  rewrite prefix_String in Hp. apply andb_true_iff in Hp as [Hcd Hp].
  apply Ascii.eqb_eq in Hcd. subst d.
  cbn [trimEnd] in Hx |- *.
  destruct (trimEnd x) as [|e t] eqn:E; [|discriminate].
  rewrite (IH x Hp E). destruct (isWhiteSpace c); [reflexivity|discriminate].
Qed.

Lemma trimEnd_fixed_tail (c : ascii) (f : string) :
  trimEnd (String c f) = String c f -> f = EmptyString \/ trimEnd f = f /\ f <> EmptyString.
Proof.
  cbn [trimEnd]. destruct (trimEnd f) as [|e t] eqn:E.
  - destruct (isWhiteSpace c); [discriminate|]. intros [= <-]. now left.
  - intros [= <-]. right. split; [reflexivity|discriminate].
Qed.

(** A text without white space at its end is a prefix of a line exactly
    when it is a prefix of the line without its trailing white space. *)
Lemma prefix_trimEnd (f x : string) :
  trimEnd f = f ->
  String.prefix f (trimEnd x) = String.prefix f x.
Proof.
  intros Hf. destruct (String.prefix f (trimEnd x)) eqn:E.
  - symmetry. eapply prefix_trans; [exact E|apply trimEnd_prefix].
  - destruct (String.prefix f x) eqn:E'; [|reflexivity].
    exfalso. revert x E E'. induction f as [|c f IH]; intros x E E'.
    + now rewrite prefix_empty in E.
    + destruct x as [|d x]; [discriminate|].
      rewrite prefix_String in E'. apply andb_true_iff in E' as [Hcd Hp].
      apply Ascii.eqb_eq in Hcd. subst d.
      destruct (trimEnd_fixed_tail c f Hf) as [->|[Hf' Hne]].
      * cbn [trimEnd] in E, Hf. destruct (trimEnd x) as [|e t].
        -- destruct (isWhiteSpace c); [discriminate|].
           now rewrite prefix_String, Ascii.eqb_refl in E.
        -- now rewrite prefix_String, Ascii.eqb_refl in E.
      * cbn [trimEnd] in E. destruct (trimEnd x) as [|e t] eqn:Ex.
        -- pose proof (trimEnd_empty_prefix f x Hp Ex) as Hw.
           rewrite Hf' in Hw. contradiction.
        -- rewrite prefix_String, Ascii.eqb_refl in E. cbn [andb] in E.
           apply (IH Hf' x); [now rewrite Ex|exact Hp].
Qed.

Lemma includes_trimEnd (x f : string) :
  trimEnd f = f -> f <> EmptyString ->
  includes (trimEnd x) f = includes x f.
Proof.
  intros Hf Hne. induction x as [|d x IH]; [reflexivity|].
  rewrite includes_String, <- IH.
  rewrite <- (prefix_trimEnd f (String d x) Hf).
  cbn [trimEnd]. destruct (trimEnd x) as [|e t] eqn:E.
  - destruct (isWhiteSpace d).
    + rewrite includes_empty. now rewrite orb_diag.
    + rewrite includes_String, includes_empty. reflexivity.
  - now rewrite includes_String.
Qed.

(** Trimming a line does not change whether it holds a text that has no
    white space at either end. *)
Lemma includes_trim (x : string) (c : ascii) (f : string) :
  isWhiteSpace c = false ->
  trimEnd (String c f) = String c f ->
  includes (trim x) (String c f) = includes x (String c f).
Proof.
  intros Hc Hf. unfold trim.
  rewrite includes_trimEnd by (assumption || discriminate).
  now apply includes_trimStart.
Qed.

End TrimFacts.

(** * Facts about lines *)

Section LineFacts.

Lemma singleLine_inv (c : ascii) (s : string) :
  singleLine (String c s) -> Ascii.eqb c LF = false /\ singleLine s.
Proof.
  unfold singleLine. cbn [split]. destruct (Ascii.eqb c LF); [discriminate|].
  pose proof (split_not_nil s) as Hne.
  destruct (split s) as [|l ls] eqn:E; [contradiction|].
  intros [= -> ->]. now split.
Qed.

(** A text without line feed that starts a note starts its first line. *)
Lemma prefix_first_line (m text : string) :
  singleLine m ->
  String.prefix m text = true ->
  exists l ls, split text = l :: ls /\ String.prefix m l = true.
Proof.
  revert text. induction m as [|a m IH]; intros text Hm Hp.
  - pose proof (split_not_nil text) as Hne.
    destruct (split text) as [|l ls]; [contradiction|].
    exists l, ls. split; [reflexivity|apply prefix_empty].
  - destruct text as [|c s]; [discriminate|].
    rewrite prefix_String in Hp. apply andb_true_iff in Hp as [Hac Hp].
    apply Ascii.eqb_eq in Hac. subst c.
    destruct (singleLine_inv a m Hm) as [Ha Hm'].
    destruct (IH s Hm' Hp) as (l & ls & Hs & Hl).
    exists (String a l), ls. cbn [split]. rewrite Ha, Hs. split; [reflexivity|].
    now rewrite prefix_String, Ascii.eqb_refl.
Qed.

(** A text without line feed that occurs in a note occurs in one of its
    lines. *)
Lemma includes_some_line (m text : string) :
  singleLine m ->
  includes text m = true ->
  Exists (fun l => includes l m = true) (split text).
Proof.
  intros Hm. induction text as [|c s IH]; intros H.
  - constructor. exact H.
  - rewrite includes_String in H. apply orb_true_iff in H as [H|H].
    + destruct (prefix_first_line m (String c s) Hm H) as (l & ls & -> & Hl).
      constructor. now apply prefix_includes.
    + specialize (IH H). cbn [split]. destruct (Ascii.eqb c LF).
      * now apply Exists_cons_tl.
      * destruct (split s) as [|l ls]; [now apply Exists_nil in IH|].
        apply Exists_cons in IH as [Hl|Hls].
        -- constructor. rewrite includes_String, Hl. apply orb_true_r.
        -- now apply Exists_cons_tl.
Qed.

(** The first element that passes a test, with what stands before it. *)
Lemma Exists_first {A} (p : A -> bool) (l : list A) :
  Exists (fun x => p x = true) l ->
  exists pre x post,
    l = pre ++ x :: post /\ Forall (fun y => p y = false) pre /\ p x = true.
Proof.
  induction l as [|y l IH]; intros H; [now apply Exists_nil in H|].
  destruct (p y) eqn:E.
  - exists [], y, l. repeat split; [constructor|assumption].
  - apply Exists_cons in H as [H|H]; [congruence|].
    destruct (IH H) as (pre & x & post & -> & Hpre & Hx).
    exists (y :: pre), x, post. repeat split; [now constructor|assumption].
Qed.

End LineFacts.

(** * Facts about markers *)

Section MarkerFacts.

(** An accepted flag begins with a percent sign and has no white space at
    its end. *)
Lemma acceptedFlag_shape (flag : string) :
  acceptedFlag flag = true ->
  exists rest, flag = String "%" rest /\ trimEnd flag = flag.
Proof.
  intros Hacc. destruct (acceptedFlag_trim flag Hacc) as (Htrim & _ & _).
  unfold acceptedFlag in Hacc. rewrite !andb_true_iff in Hacc.
  destruct Hacc as [[[[[_ Hs] _] _] _] _].
  destruct flag as [|c rest]; [discriminate|].
  unfold startsWith in Hs. rewrite prefix_String in Hs.
  apply andb_true_iff in Hs as [Hc _]. apply Ascii.eqb_eq in Hc. subst c.
  exists rest. split; [reflexivity|]. exact Htrim.
Qed.

(** A line holds an accepted flag exactly when the trimmed line does. *)
Lemma includes_trim_flag (x flag : string) :
  acceptedFlag flag = true -> includes (trim x) flag = includes x flag.
Proof.
  intros Hacc. destruct (acceptedFlag_shape flag Hacc) as (rest & -> & Hend).
  now apply includes_trim.
Qed.

Lemma includes_trim_begin (x : string) (flagType : WaypointType) :
  includes (trim x) (fst (getWaypointBounds flagType))
  = includes x (fst (getWaypointBounds flagType)).
Proof. destruct flagType; now apply includes_trim. Qed.

(** A marker of a kind somewhere in the text puts a start line of that kind
    into the note. *)
Lemma marker_gives_start_line (settings : WaypointSettings) (flagType : WaypointType)
    (text : string) :
  acceptedFlag (getWaypointFlag settings flagType) = true ->
  singleLine (getWaypointFlag settings flagType) ->
  includes text (fst (getWaypointBounds flagType))
  || includes text (getWaypointFlag settings flagType) = true ->
  Exists (fun l => isStartLine (getWaypointFlag settings flagType)
                     (fst (getWaypointBounds flagType)) l = true) (split text).
Proof.
  intros Hacc Hline H. apply orb_true_iff in H as [H|H].
  - apply includes_some_line in H; [|apply singleLine_beginWaypoint].
    eapply Exists_impl; [exact H|]. intros l Hl. unfold isStartLine.
    rewrite includes_trim_begin, Hl. apply orb_true_r.
  - apply includes_some_line in H; [|exact Hline].
    eapply Exists_impl; [exact H|]. intros l Hl. unfold isStartLine.
    now rewrite includes_trim_flag, Hl.
Qed.

End MarkerFacts.

Section FlagLength.

Lemma endsWith_app (s p : string) :
  endsWith s p = true -> exists a, s = a +:+ p.
Proof.
  induction s as [|c s IH]; cbn [endsWith]; intros H.
  - rewrite orb_false_r in H. apply String.eqb_eq in H. now exists EmptyString.
  - apply orb_true_iff in H as [H|H].
    + apply String.eqb_eq in H. now exists EmptyString.
    + destruct (IH H) as (a & ->). now exists (String c a).
Qed.

(** An accepted flag has at least five code units. *)
Lemma acceptedFlag_length (flag : string) :
  acceptedFlag flag = true -> (5 <= String.length flag)%nat.
Proof.
  intros Hacc. unfold acceptedFlag in Hacc.
  rewrite !andb_true_iff, !negb_true_iff in Hacc.
  destruct Hacc as [[[[[_ Hs] He] H2] H3] H4].
  apply String.eqb_neq in H2, H3, H4. unfold startsWith in Hs.
  destruct (endsWith_app _ _ He) as (a & ->).
  destruct a as [|x [|y [|z a]]].
  - now contradiction H2.
  - exfalso. change (String x EmptyString +:+ "%%") with (String x "%%") in *.
    rewrite prefix_String in Hs. apply andb_true_iff in Hs as [Hx _].
    apply Ascii.eqb_eq in Hx. subst x. now apply H3.
  - exfalso.
    change (String x (String y EmptyString) +:+ "%%") with (String x (String y "%%")) in *.
    rewrite !prefix_String in Hs. apply andb_true_iff in Hs as [Hx Hs].
    apply andb_true_iff in Hs as [Hy _].
    apply Ascii.eqb_eq in Hx, Hy. subst x y. now apply H4.
  - change (String x (String y (String z a)) +:+ "%%")
      with (String x (String y (String z (a +:+ "%%")))).
    cbn [String.length]. rewrite length_append. cbn [String.length]. lia.
Qed.

End FlagLength.

(** * Facts about the error comments *)

Section ErrorFacts.

(** The texts a text ends with, and the texts it begins with. *)
Fixpoint suffixes (s : string) : list string :=
  s :: match s with
       | EmptyString => []
       | String _ s' => suffixes s'
       end.

Fixpoint prefixes (s : string) : list string :=
  EmptyString :: match s with
                 | EmptyString => []
                 | String c s' => map (String c) (prefixes s')
                 end.

Lemma includes_suffix (s sub : string) :
  includes s sub = true ->
  exists t, In t (suffixes s) /\ String.prefix sub t = true.
Proof.
  induction s as [|c s IH]; intros H.
  - rewrite includes_empty in H. exists EmptyString. split; [now left|exact H].
  - rewrite includes_String in H. apply orb_true_iff in H as [H|H].
    + exists (String c s). split; [now left|exact H].
    + destruct (IH H) as (t & Ht & Hp). exists t. split; [now right|exact Hp].
Qed.

Lemma prefix_in_prefixes (p s : string) :
  String.prefix p s = true -> In p (prefixes s).
Proof.
  revert s. induction p as [|c p IH]; intros s H.
  - destruct s; now left.
  - destruct s as [|d s]; [discriminate|].
    rewrite prefix_String in H. apply andb_true_iff in H as [Hcd H].
    apply Ascii.eqb_eq in Hcd. subst d.
    right. apply in_map. now apply IH.
Qed.

(** The only text that begins and ends with two percent signs, is longer
    than these, and occurs in an error comment is the comment itself. *)
Lemma flag_in_comment (comment flag : string) :
  List.filter (fun t => startsWith t "%%") (suffixes comment) = [comment; "%%"] ->
  List.filter (fun p => endsWith p "%%") (prefixes comment) = ["%%"; comment] ->
  acceptedFlag flag = true ->
  includes comment flag = true ->
  flag = comment.
Proof.
  intros Hsuf Hpre Hacc Hin.
  unfold acceptedFlag in Hacc. rewrite !andb_true_iff, !negb_true_iff in Hacc.
  destruct Hacc as [[[[[_ Hs] He] H2] _] _].
  apply String.eqb_neq in H2.
  destruct (includes_suffix _ _ Hin) as (t & Ht & Hp).
  assert (Ht' : In t [comment; "%%"]).
  { rewrite <- Hsuf. apply filter_In. split; [exact Ht|].
    unfold startsWith in *. now apply (prefix_trans _ flag). }
  destruct Ht' as [<-|[<-|[]]].
  - apply prefix_in_prefixes in Hp.
    assert (Hp' : In flag ["%%"; comment]).
    { rewrite <- Hpre. apply filter_In. now split. }
    destruct Hp' as [<-|[<-|[]]]; [contradiction|reflexivity].
  - exfalso. unfold startsWith in Hs.
    destruct flag as [|a flag]; [discriminate|].
    rewrite prefix_String in Hs, Hp.
    apply andb_true_iff in Hs as [Ha Hs]. apply andb_true_iff in Hp as [_ Hp].
    destruct flag as [|b flag]; [discriminate|].
    rewrite prefix_String in Hs, Hp.
    apply andb_true_iff in Hs as [Hb _]. apply andb_true_iff in Hp as [_ Hp].
    apply prefix_of_empty in Hp. apply Ascii.eqb_eq in Ha, Hb. subst.
    now apply H2.
Qed.

End ErrorFacts.

(** * Facts about [printError] *)

Section PrintErrorFacts.

Variable settings : WaypointSettings.

Lemma countLines_insert (p : string -> bool) (lines : list string) (i : nat)
    (x y : string) :
  lines !! i = Some x ->
  (countLines p (<[i := y]> lines) + (if p x then 1 else 0)
   = countLines p lines + (if p y then 1 else 0))%nat.
Proof.
  intros Hx. pose proof (lookup_lt_Some _ _ _ Hx) as Hi.
  rewrite insert_take_drop by assumption.
  rewrite <- (take_drop_middle lines i x Hx) at 3.
  rewrite !countLines_app. unfold countLines. cbn [List.filter].
  destruct (p x), (p y); cbn [length]; lia.
Qed.

(** The lines of the note after [printError] has put a one-line comment in
    place of the line it chose. *)
Lemma printError_lines (v : Vault) (file : TFile) (error : string)
    (flagType : WaypointType) (i : nat) :
  singleLine error ->
  findLastIndex (fun x => includes (trim x) (getWaypointFlag settings flagType))
    (split (read v file)) = Some i ->
  split (read (printError settings v file error flagType) file)
  = <[i := error]> (split (read v file)).
Proof.
  intros Herror Hi. rewrite (printError_last settings v file error flagType i Hi).
  rewrite read_modify. apply split_join_lines.
  - pose proof (split_not_nil (read v file)) as Hne.
    destruct (split (read v file)); [contradiction|]. now destruct i.
  - apply Forall_insert; [apply singleLine_split|exact Herror].
Qed.

End PrintErrorFacts.

(** * Further facts about propagation *)

Section FrameFacts.

Context {engine : RegExpEngine}.
Variable fileRow : Vault -> WaypointSettings -> list YamlValue -> TFile -> string.
Variable settings : WaypointSettings.

Lemma regenerate_metadataCache (v : Vault) (point : WaypointType * TFile) :
  metadataCache (regenerate fileRow settings v point) = metadataCache v.
Proof.
  destruct (regenerate_cases fileRow settings v point) as [->|[text ->]]; reflexivity.
Qed.

Lemma read_modify_other (v : Vault) (file other : TFile) (text : string) :
  file_path file <> file_path other -> read (modify v file text) other = read v other.
Proof. intros Hne. unfold read, modify. cbn [data]. now rewrite lookup_insert_ne. Qed.

Lemma regenerate_read_other (v : Vault) (point : WaypointType * TFile) (other : TFile) :
  file_path (snd point) <> file_path other ->
  read (regenerate fileRow settings v point) other = read v other.
Proof.
  intros Hne.
  destruct (regenerate_cases fileRow settings v point) as [->|[text ->]];
    [reflexivity|now apply read_modify_other].
Qed.

(** What the walk answers with is the answer of the marker test at one of
    the folders it visits. *)
Lemma locateParentPoint_while_found (fuel : nat) (v : Vault)
    (start : option TAbstractFile) (point : WaypointType * TFile) :
  locateParentPoint_while settings fuel v start = Some (Some point) ->
  exists folder, parentPointAt settings v folder = Some point.
Proof.
  revert start. induction fuel as [|fuel IH]; intros start; [discriminate|].
  cbn [locateParentPoint_while]. destruct start as [folder|]; [|discriminate].
  destruct (parentPointAt settings v folder) as [found|] eqn:E.
  - intros [= <-]. now exists folder.
  - apply IH.
Qed.

End FrameFacts.

Section ReachFacts.

Context {engine : RegExpEngine}.
Variable fileRow : Vault -> WaypointSettings -> list YamlValue -> TFile -> string.
Variable settings : WaypointSettings.

Lemma foldl_regenerate_read (points : list (WaypointType * TFile)) (other : TFile) :
  forall v,
    Forall (fun point => file_path (snd point) <> file_path other) points ->
    read (foldl (regenerate fileRow settings) v points) other = read v other.
Proof.
  induction points as [|point points IH]; intros v Hall; [reflexivity|].
  apply Forall_cons in Hall as [Hpoint Hall]. cbn [foldl].
  rewrite IH by assumption. now apply regenerate_read_other.
Qed.

(** The note looked up for a folder above a folder lies in a folder of
    lower rank: it is none of the notes stored in the folder itself. *)
Lemma note_above_differs (v : Vault) (rank : string -> nat) (k : string)
    (d d' : TFolder) (n : nat) (note other : TFile) :
  TreeVault settings v rank ->
  fileMap v !! k = Some (Folder d) ->
  fileMap v !! file_path other = Some (File other) ->
  file_parent other = Some k ->
  d' ∈ ancestorChain n v (folder_parent d) ->
  folderNoteOf settings v (Folder d') = Some (File note) ->
  file_path note <> file_path other.
Proof.
  intros Htree Hk Hother Hparent Hd' Hpoint.
  destruct (ancestorChain_rank settings v rank Htree _ _ _ Hd') as (k' & Hk' & Hrank).
  assert (Hlt : (rank k' < rank k)%nat).
  { destruct (folder_parent d) as [q|] eqn:Eq; [|cbn in Hrank; lia].
    pose proof (parent_above settings v rank Htree k (Folder d) q Hk Eq).
    cbn [startBound] in Hrank. lia. }
  pose proof (note_in_folder settings v rank Htree k' d' note Hk' Hpoint) as Hnote.
  destruct (folderNoteOf_stored settings v _ _ Hpoint) as (kn & Hkn).
  pose proof (file_under_path settings v rank Htree kn note Hkn) as Hpath.
  intros Heq. rewrite <- Hpath, Heq in Hkn.
  rewrite Hother in Hkn. injection Hkn as <-.
  rewrite Hparent in Hnote. injection Hnote as <-. lia.
Qed.

Lemma notes_above_differ (v : Vault) (rank : string -> nat) (k : string)
    (d : TFolder) (n : nat) (other : TFile) :
  TreeVault settings v rank ->
  fileMap v !! k = Some (Folder d) ->
  fileMap v !! file_path other = Some (File other) ->
  file_parent other = Some k ->
  Forall (fun point => file_path (snd point) <> file_path other)
    (omap (fun a => parentPointAt settings v (Folder a))
       (ancestorChain n v (folder_parent d))).
Proof.
  intros Htree Hk Hother Hparent. apply Forall_forall. intros [flag note] Hin.
  apply list_elem_of_omap in Hin as (d' & Hd' & Hpoint).
  apply parentPointAt_note in Hpoint.
  now apply (note_above_differs v rank k d d' n note other).
Qed.

(** Rewriting a note leaves the marker test of a folder as it was when the
    note is not the one looked up for the folder. *)
Lemma parentPointAt_modify_other (v : Vault) (file : TFile) (text : string)
    (folder : TAbstractFile) :
  (forall note, folderNoteOf settings v folder = Some (File note) ->
                file_path note <> file_path file) ->
  parentPointAt settings (modify v file text) folder = parentPointAt settings v folder.
Proof.
  intros Hother. unfold parentPointAt.
  rewrite (folderNoteOf_fileMap settings v (modify v file text)) by reflexivity.
  destruct (folderNoteOf settings v folder) as [[note|?]|] eqn:E; [|reflexivity..].
  rewrite read_modify_other; [reflexivity|].
  intros Heq. now apply (Hother note eq_refl).
Qed.

End ReachFacts.

Lemma docsVault_tree (name : string) : TreeVault (withOverride name) docsVault demoRank.
Proof.
  split.
  - intros k node q Hk Hq. apply elem_of_list_to_map_2 in Hk.
    repeat (apply elem_of_cons in Hk as [Hk|Hk];
            [simplify_eq; cbn in Hq; simplify_eq; vm_compute; lia|]).
    now apply elem_of_nil in Hk.
  - intros k d note Hk Hnote. apply elem_of_list_to_map_2 in Hk.
    repeat (apply elem_of_cons in Hk as [Hk|Hk];
            [simplify_eq; vm_compute in Hnote; simplify_eq; reflexivity|]).
    now apply elem_of_nil in Hk.
  - intros k f Hk. apply elem_of_list_to_map_2 in Hk.
    repeat (apply elem_of_cons in Hk as [Hk|Hk]; [simplify_eq; reflexivity|]).
    now apply elem_of_nil in Hk.
Qed.

(** * Facts about the flag in the emitted block *)

Section ConsumeFacts.

(** A text without percent sign holds no accepted flag. *)
Lemma no_percent_no_flag (s flag : string) :
  List.filter (fun t => startsWith t "%") (suffixes s) = [] ->
  acceptedFlag flag = true ->
  includes s flag = false.
Proof.
  intros Hnone Hacc. destruct (includes s flag) eqn:E; [|reflexivity].
  exfalso. destruct (acceptedFlag_shape flag Hacc) as (rest & -> & _).
  destruct (includes_suffix _ _ E) as (t & Ht & Hp).
  assert (Hin : In t (List.filter (fun t => startsWith t "%") (suffixes s))).
  { apply filter_In. split; [exact Ht|].
    unfold startsWith. apply (prefix_trans _ (String "%" rest)); [|exact Hp].
    now rewrite prefix_String, Ascii.eqb_refl, prefix_empty. }
  now rewrite Hnone in Hin.
Qed.

(** The callout prefix does not change whether a line holds an accepted
    flag. *)
Lemma holdsFlag_prefixed (x flag : string) :
  acceptedFlag flag = true ->
  includes (trim (">" +:+ x)) flag = includes (trim x) flag.
Proof.
  intros Hacc. rewrite !includes_trim_flag by assumption.
  destruct (acceptedFlag_shape flag Hacc) as (rest & -> & _).
  change (">" +:+ x) with (String ">" x).
  now rewrite includes_String, prefix_String.
Qed.

Lemma callout_label_holds_no_flag (flagType : WaypointType) (flag : string) :
  acceptedFlag flag = true ->
  includes (trim (calloutLabel flagType)) flag = false.
Proof.
  intros Hacc. rewrite includes_trim_flag by assumption.
  apply no_percent_no_flag; [|exact Hacc]. now destruct flagType.
Qed.

(** None of the emitted lines holds the flag when neither the delimiters
    nor the lines of the table do. *)
Lemma emittedLines_hold_no_flag (flagType : WaypointType) (fileTree : Value)
    (callout initial : bool) (flag : string) :
  acceptedFlag flag = true ->
  includes (fst (getWaypointBounds flagType)) flag = false ->
  includes (snd (getWaypointBounds flagType)) flag = false ->
  Forall (fun x => includes (trim x) flag = false) (split (toString fileTree)) ->
  Forall (fun x => includes (trim x) flag = false)
    (emittedLines flagType fileTree callout initial).
Proof.
  intros Hacc Hb He Htree.
  assert (Hblock : Forall (fun x => includes (trim x) flag = false)
                     (blockLines flagType fileTree)).
  { unfold blockLines. constructor.
    - now rewrite includes_trim_flag.
    - apply Forall_app. split; [exact Htree|].
      repeat constructor.
      + rewrite includes_trim_flag by assumption.
        destruct (acceptedFlag_shape flag Hacc) as (rest & -> & _). reflexivity.
      + now rewrite includes_trim_flag. }
  unfold emittedLines. destruct callout; [|exact Hblock].
  apply Forall_map. apply Forall_app. split.
  - destruct initial; [|constructor].
    repeat constructor. cbn beta. rewrite holdsFlag_prefixed by assumption.
    now apply callout_label_holds_no_flag.
  - eapply Forall_impl; [exact Hblock|]. intros x Hx. cbn beta.
    now rewrite holdsFlag_prefixed.
Qed.

End ConsumeFacts.

(** * The renderer reads the tree and the front-matter only *)

Section RenderReads.

Context {engine : RegExpEngine}.
Variable fileRow : Vault -> WaypointSettings -> list YamlValue -> TFile -> string.
Variable settings : WaypointSettings.
Variables v v' : Vault.
Hypothesis Hmap : fileMap v' = fileMap v.
Hypothesis Hmeta : metadataCache v' = metadataCache v.
Hypothesis Hrow : forall keyList f, fileRow v' settings keyList f = fileRow v settings keyList f.

Lemma getCleanParentPath_reads (node : TAbstractFile) :
  getCleanParentPath v' node = getCleanParentPath v node.
Proof. unfold getCleanParentPath. now rewrite (parentOf_fileMap v v' node Hmap). Qed.

Lemma isFolderNote_reads (file : TFile) :
  isFolderNote settings v' file = isFolderNote settings v file.
Proof.
  unfold isFolderNote, getAbstractFileByPath.
  now rewrite (parentOf_fileMap v v' _ Hmap), getCleanParentPath_reads, Hmap.
Qed.

Lemma filterChildren_reads (children : list TAbstractFile) :
  forall filtered folderNote,
    filterChildren settings v' children filtered folderNote
    = filterChildren settings v children filtered folderNote.
Proof.
  induction children as [|child rest IH]; intros filtered folderNote; [reflexivity|].
  cbn [filterChildren].
  destruct (ignorePath settings (path child)) as [[|]|e]; cbn [mbind Outcome_bind];
    [apply IH| |reflexivity].
  destruct child as [f|d]; [|apply IH].
  rewrite isFolderNote_reads.
  destruct (isFolderNote settings v f) as [[|]|e]; cbn [mbind Outcome_bind];
    [|apply IH|reflexivity].
  destruct (showFolderNotes settings); apply IH.
Qed.

Lemma folderCell_reads (node : TAbstractFile) (child : TFolder) (key : YamlValue) :
  folderCell settings v' node child key = folderCell settings v node child key.
Proof.
  unfold folderCell, folderLinkPath. destruct key; [|reflexivity..].
  now rewrite (parentOf_fileMap v v' node Hmap).
Qed.

Lemma tableRow_reads (node : TAbstractFile) (keyList : list YamlValue)
    (child : TAbstractFile) :
  tableRow fileRow settings v' node keyList child
  = tableRow fileRow settings v node keyList child.
Proof.
  unfold tableRow. destruct child as [f|d]; [apply Hrow|].
  now rewrite (map_ext _ _ (folderCell_reads node d)).
Qed.

Lemma tableHeading_reads (rootNode : TFolder) (node : TAbstractFile) :
  tableHeading settings v' rootNode node = tableHeading settings v rootNode node.
Proof. unfold tableHeading. now rewrite (parentOf_fileMap v v' node Hmap). Qed.

Lemma getFileTreeRepresentation_reads (rootNode : option TFolder)
    (node : option TAbstractFile) :
  getFileTreeRepresentation fileRow settings v' rootNode node
  = getFileTreeRepresentation fileRow settings v rootNode node.
Proof.
  unfold getFileTreeRepresentation. destruct node as [node|]; [|reflexivity].
  destruct (ignorePath settings (path node)) as [[|]|e]; cbn [mbind Outcome_bind];
    [reflexivity| |reflexivity].
  assert (Hchildren : childrenOf v' node = childrenOf v node).
  { unfold childrenOf. now rewrite Hmap. }
  rewrite Hchildren, filterChildren_reads.
  destruct (filterChildren settings v _ [] None) as [[listed folderNote]|e];
    cbn [mbind Outcome_bind]; [|reflexivity].
  destruct rootNode as [rootNode|]; [|reflexivity].
  assert (Hkeys : columnKeys v' folderNote node = columnKeys v folderNote node).
  { unfold columnKeys. now rewrite Hmeta. }
  rewrite Hkeys, tableHeading_reads.
  now rewrite (map_ext _ _ (tableRow_reads node (columnKeys v folderNote node))).
Qed.

Lemma renderFolderOf_reads (file : TFile) :
  renderFolderOf fileRow settings v' file = renderFolderOf fileRow settings v file.
Proof.
  unfold renderFolderOf, getAbstractFileByPath.
  rewrite getCleanParentPath_reads, (parentOf_fileMap v v' _ Hmap), Hmap.
  destruct (String.eqb (folderNoteType settings) INSIDE_FOLDER).
  - now rewrite getFileTreeRepresentation_reads.
  - destruct (getCleanParentPath v (File file)) as [clean|e]; [|reflexivity].
    cbn [mbind Outcome_bind].
    destruct (fileMap v !! (clean +:+ basename file)) as [[f|d]|]; try reflexivity.
    now rewrite getFileTreeRepresentation_reads.
Qed.

End RenderReads.

Lemma modify_modify (v : Vault) (file : TFile) (text text' : string) :
  modify (modify v file text) file text' = modify v file text'.
Proof. unfold modify. cbn [fileMap data metadataCache]. f_equal. apply insert_insert_eq. Qed.

(** * Facts about [addZero] and [convertLink] *)

Section HelperFacts.

Lemma Number_toString_not_empty (n : Z) : Number_toString n <> EmptyString.
Proof.
  unfold Number_toString. destruct n as [|p|p]; cbn; [discriminate| |discriminate].
  pose proof (DecimalPos.Unsigned.to_uint_nonnil p) as Hne.
  destruct (Pos.to_uint p); [contradiction|discriminate..].
Qed.

Lemma addZero_ok_below_100 (n : Z) : 0 <= n <= 99 -> addZero_ok n = true.
Proof.
  intros Hn.
  assert (Hall : forallb addZero_ok (map Z.of_nat (seq 0 100)) = true)
    by (vm_compute; reflexivity).
  rewrite forallb_forall in Hall. apply Hall.
  rewrite <- (Z2Nat.id n) by lia. apply in_map, in_seq. lia.
Qed.

(** A replacement text without dollar sign is inserted as it is. *)
Lemma GetSubstitution_plain (matched before after template : string) :
  includes template "$" = false ->
  GetSubstitution matched before after template = template.
Proof.
  induction template as [|c rest IH]; intros H; [reflexivity|].
  rewrite includes_String, prefix_String in H.
  apply orb_false_iff in H as [Hc Hrest]. rewrite prefix_empty, andb_true_r in Hc.
  cbn [GetSubstitution]. rewrite Ascii.eqb_sym, Hc. now rewrite IH.
Qed.

Lemma includes_char_app (s t : string) (c : ascii) :
  includes (s +:+ t) (String c EmptyString)
  = includes s (String c EmptyString) || includes t (String c EmptyString).
Proof.
  induction s as [|d s IH].
  - cbn [String.append]. rewrite includes_empty. reflexivity.
  - change (String d s +:+ t) with (String d (s +:+ t)).
    rewrite !includes_String, !prefix_String, !prefix_empty, IH.
    now rewrite orb_assoc.
Qed.

(** The cut at the first [\]\]] when none begins earlier. *)
Lemma cutAtFirst_brackets (a b : string) :
  includes (a +:+ "]") "]]" = false ->
  cutAtFirst (a +:+ "]]" +:+ b) "]]" = Some (a, b).
Proof.
  induction a as [|c a IH]; intros H.
  { change (EmptyString +:+ "]]" +:+ b) with (String "]" (String "]" b)).
    cbn [cutAtFirst]. now rewrite !prefix_String, prefix_empty. }
  change (String c a +:+ "]") with (String c (a +:+ "]")) in H.
  rewrite includes_String in H. apply orb_false_iff in H as [Hhere Hrest].
  change (String c a +:+ "]]" +:+ b) with (String c (a +:+ "]]" +:+ b)).
  cbn [cutAtFirst].
  assert (Hp : String.prefix "]]" (String c (a +:+ "]]" +:+ b)) = false).
  { rewrite prefix_String in Hhere |- *.
    destruct (Ascii.eqb "]" c); [|reflexivity]. cbn [andb] in Hhere |- *.
    destruct a as [|d a]; [discriminate|].
    change (String d a +:+ "]") with (String d (a +:+ "]")) in Hhere.
    change (String d a +:+ "]]" +:+ b) with (String d (a +:+ "]]" +:+ b)).
    rewrite prefix_String in Hhere |- *.
    destruct (Ascii.eqb "]" d); [|reflexivity].
    now rewrite prefix_empty in Hhere. }
  rewrite Hp. now rewrite (IH Hrest).
Qed.

End HelperFacts.

(** * Facts about paths *)

Section PathFacts.

Variable sep : ascii.

Lemma splitOn_not_nil (s : string) : splitOn sep s <> [].
Proof.
  induction s as [|c s IH]; cbn [splitOn]; [discriminate|].
  destruct (Ascii.eqb c sep); [discriminate|].
  destruct (splitOn sep s); discriminate.
Qed.

Lemma splitOn_app_sep (a b : string) :
  splitOn sep (a +:+ String sep b) = splitOn sep a ++ splitOn sep b.
Proof.
  induction a as [|c a IH].
  - change (EmptyString +:+ String sep b) with (String sep b).
    cbn [splitOn app]. now rewrite Ascii.eqb_refl.
  - change (String c a +:+ String sep b) with (String c (a +:+ String sep b)).
    cbn [splitOn]. rewrite IH. destruct (Ascii.eqb c sep); [reflexivity|].
    pose proof (splitOn_not_nil a) as Hne.
    destruct (splitOn sep a) as [|l ls]; [contradiction|reflexivity].
Qed.

(** A text in which the separator does not occur is not split. *)
Lemma splitOn_whole (s : string) :
  includes s (String sep EmptyString) = false -> splitOn sep s = [s].
Proof.
  induction s as [|c s IH]; intros H; [reflexivity|].
  rewrite includes_String, prefix_String, prefix_empty, andb_true_r in H.
  apply orb_false_iff in H as [Hc Hs]. cbn [splitOn].
  rewrite Ascii.eqb_sym, Hc. now rewrite (IH Hs).
Qed.

Lemma joinWith_cons (l : string) (ls : list string) :
  ls <> [] ->
  joinWith (String sep EmptyString) (l :: ls)
  = l +:+ String sep (joinWith (String sep EmptyString) ls).
Proof. destruct ls; [contradiction|reflexivity]. Qed.

Lemma joinWith_String_cons (c : ascii) (l : string) (ls : list string) :
  joinWith (String sep EmptyString) (String c l :: ls)
  = String c (joinWith (String sep EmptyString) (l :: ls)).
Proof. destruct ls; reflexivity. Qed.

(** Joining the pieces with the separator gives the text back. *)
Lemma joinWith_splitOn (s : string) :
  joinWith (String sep EmptyString) (splitOn sep s) = s.
Proof.
  induction s as [|c s IH]; [reflexivity|].
  cbn [splitOn]. destruct (Ascii.eqb c sep) eqn:E.
  - apply Ascii.eqb_eq in E. subst c.
    rewrite joinWith_cons by apply splitOn_not_nil. now rewrite IH.
  - pose proof (splitOn_not_nil s) as Hne.
    destruct (splitOn sep s) as [|l ls]; [contradiction|].
    now rewrite joinWith_String_cons, IH.
Qed.

End PathFacts.

(** * Facts about the children that are listed *)

Section ListedFacts.

Context {engine : RegExpEngine}.
Variable settings : WaypointSettings.

(** The filter lets through the listed children, in their order. *)
Lemma filterChildren_listed (v : Vault) (children : list TAbstractFile) :
  forall filtered folderNote result folderNote',
    filterChildren settings v children filtered folderNote
    = Return (result, folderNote') ->
    result = filtered ++ List.filter (isListed settings v) children.
Proof.
  induction children as [|child rest IH]; intros filtered folderNote result folderNote'.
  - cbn [filterChildren List.filter]. intros [= <- <-]. now rewrite app_nil_r.
  - cbn [filterChildren List.filter]. unfold isListed at 1, isIgnored.
    destruct (ignorePath settings (path child)) as [ignored|e]; [|discriminate].
    cbn [mbind Outcome_bind]. destruct ignored; cbn [negb andb]; [apply IH|].
    assert (Hkeep :
      filterChildren settings v rest (filtered ++ [child]) folderNote
      = Return (result, folderNote') ->
      result = filtered ++ child :: List.filter (isListed settings v) rest).
    { intros H. rewrite (IH _ _ _ _ H). now rewrite <- app_assoc. }
    destruct child as [f|d]; cbn [isHiddenNote negb]; [|exact Hkeep].
    destruct (isFolderNote settings v f) as [isNote|e]; [|discriminate].
    cbn [mbind Outcome_bind]. destruct isNote; cbn [andb negb]; [|exact Hkeep].
    destruct (showFolderNotes settings); cbn [negb].
    + intros H. rewrite (IH _ _ _ _ H). now rewrite <- app_assoc.
    + apply IH.
Qed.

Lemma last_cons_option {A} (x : A) (l : list A) :
  last (x :: l) = match last l with Some y => Some y | None => Some x end.
Proof. change (x :: l) with ([x] ++ l). now rewrite last_app. Qed.

(** The folder note that the filter reports is the last one it met. *)
Lemma filterChildren_note (v : Vault) (children : list TAbstractFile) :
  forall filtered folderNote result folderNote',
    filterChildren settings v children filtered folderNote
    = Return (result, folderNote') ->
    folderNote' = match columnsNote settings v children with
                  | Some f => Some f
                  | None => folderNote
                  end.
Proof.
  unfold columnsNote.
  induction children as [|child rest IH]; intros filtered folderNote result folderNote'.
  - cbn [filterChildren]. now intros [= _ <-].
  - cbn [filterChildren omap list_omap]. unfold visibleNote at 1, isIgnored.
    destruct (ignorePath settings (path child)) as [ignored|e]; [|discriminate].
    cbn [mbind Outcome_bind].
    destruct child as [f|d]; [|destruct ignored; apply IH].
    destruct ignored.
    { intros H. rewrite (IH _ _ _ _ H).
      now destruct (isFolderNote settings v f) as [[|]|]. }
    destruct (isFolderNote settings v f) as [isNote|e]; [|discriminate].
    cbn [mbind Outcome_bind]. destruct isNote; [|apply IH].
    assert (Hnote : forall filtered',
      filterChildren settings v rest filtered' (Some f) = Return (result, folderNote') ->
      folderNote' = match last (f :: omap (visibleNote settings v) rest) with
                    | Some g => Some g
                    | None => folderNote
                    end).
    { intros filtered' H. rewrite (IH _ _ _ _ H), last_cons_option.
      now destruct (last (omap (visibleNote settings v) rest)). }
    destruct (showFolderNotes settings); apply Hnote.
Qed.

(** With patterns that compile and children whose parent is in the vault,
    the filter returns. *)
Lemma filterChildren_returns (v : Vault) (children : list TAbstractFile) :
  Forall compiles (ignorePaths settings) ->
  Forall (fun c => is_Some (parentOf v c)) children ->
  forall filtered folderNote,
    exists result folderNote',
      filterChildren settings v children filtered folderNote
      = Return (result, folderNote').
Proof.
  intros Hok. induction 1 as [|child rest Hchild _ IH]; intros filtered folderNote.
  - now exists filtered, folderNote.
  - cbn [filterChildren]. unfold ignorePath.
    destruct (ignorePath_forEach_ok (path child) (ignorePaths settings) Hok false)
      as (b & -> & _).
    cbn [mbind Outcome_bind]. destruct b; [apply IH|].
    destruct child as [f|d]; [|apply IH].
    assert (Hnote : exists isNote, isFolderNote settings v f = Return isNote).
    { unfold isFolderNote, getCleanParentPath. destruct Hchild as [p ->].
      destruct (String.eqb (folderNoteType settings) INSIDE_FOLDER);
        [destruct (String.eqb (folderNoteName settings) EmptyString)|]; eauto. }
    destruct Hnote as [isNote ->]. cbn [mbind Outcome_bind].
    destruct isNote; [|apply IH].
    destruct (showFolderNotes settings); apply IH.
Qed.

Lemma Array_sort_perm {A} (comparefn : A -> A -> option Z) (l : list A) :
  Permutation (Array_sort comparefn l) l.
Proof.
  unfold Array_sort.
  assert (H : forall acc,
    Permutation (foldl (fun sorted x => sortInsert comparefn x sorted) acc l) (acc ++ l)).
  { induction l as [|x l IH]; intros acc; cbn [foldl].
    - now rewrite app_nil_r.
    - rewrite IH, (sortInsert_perm comparefn x acc). apply Permutation_middle. }
  apply (H []).
Qed.

End ListedFacts.

Lemma demo_children_resolve :
  Forall (fun child => is_Some (parentOf demoVault child))
    (childrenOf demoVault (Folder projectsFolder)).
Proof.
  assert (E : childrenOf demoVault (Folder projectsFolder)
              = [File projectsNote; File alphaNote; File betaNote;
                 Folder archiveFolder; Folder attachmentsFolder])
    by (vm_compute; reflexivity).
  rewrite E.
  repeat (apply Forall_cons; split; [exists projectsFolder; reflexivity|]).
  apply Forall_nil. exact I.
Qed.

(** * Facts about the lines of the table *)

Section TableLineFacts.

Lemma singleLine_iff (s : string) :
  singleLine s <-> includes s (String LF EmptyString) = false.
Proof.
  induction s as [|c s IH]; [split; reflexivity|].
  rewrite includes_String, prefix_String, prefix_empty, andb_true_r, orb_false_iff.
  rewrite <- IH, Ascii.eqb_sym. split.
  - apply singleLine_inv.
  - intros [Hc Hs]. now apply singleLine_cons.
Qed.

Lemma singleLine_app (a b : string) :
  singleLine a -> singleLine b -> singleLine (a +:+ b).
Proof.
  rewrite !singleLine_iff, includes_char_app. intros -> ->. reflexivity.
Qed.

Lemma singleLine_String_concat (pieces : list string) :
  Forall singleLine pieces -> singleLine (String_concat pieces).
Proof.
  induction 1 as [|p pieces Hp _ IH]; [reflexivity|].
  cbn [String_concat foldr]. now apply singleLine_app.
Qed.

Lemma singleLine_replaceAll (s : string) :
  singleLine s -> singleLine (replaceAll s " " "%20").
Proof.
  induction s as [|c s IH]; intros H; [reflexivity|].
  destruct (singleLine_inv c s H) as [Hc Hs]. cbn [replaceAll].
  destruct (Ascii.eqb c " ").
  - apply singleLine_app; [reflexivity|now apply IH].
  - apply singleLine_cons; [exact Hc|now apply IH].
Qed.

Lemma singleLine_joinWith (sep : string) (items : list string) :
  singleLine sep -> Forall singleLine items -> singleLine (joinWith sep items).
Proof.
  intros Hsep. induction 1 as [|x items Hx Hitems IH]; [reflexivity|].
  destruct items as [|y items]; [exact Hx|].
  change (joinWith sep (x :: y :: items)) with (x +:+ sep +:+ joinWith sep (y :: items)).
  now repeat apply singleLine_app.
Qed.

Lemma linesText_cons (l : string) (ls : list string) :
  linesText (l :: ls) = l +:+ String LF (linesText ls).
Proof.
  unfold linesText. cbn [map String_concat foldr]. now rewrite append_assoc.
Qed.

(** The lines of a text made of lines, and the empty piece after the last
    line feed. *)
Lemma split_linesText (lines : list string) :
  Forall singleLine lines -> split (linesText lines) = lines ++ [EmptyString].
Proof.
  induction 1 as [|l ls Hl _ IH]; [reflexivity|].
  now rewrite linesText_cons, split_app_LF, Hl, IH.
Qed.

(** A line that begins with a sign other than white space and the percent
    sign is no end delimiter; nor is the empty line. *)
Lemma not_end_line (c : ascii) (s : string) (flagType : WaypointType) :
  isWhiteSpace c = false ->
  Ascii.eqb c "%" = false ->
  isEndLine (snd (getWaypointBounds flagType)) (String c s) = false.
Proof.
  intros Hwhite Hc. unfold isEndLine, trim. cbn [trimStart]. rewrite Hwhite.
  assert (Hhead : exists t, trimEnd (String c s) = String c t).
  { cbn [trimEnd]. destruct (trimEnd s); [rewrite Hwhite|]; eauto. }
  destruct Hhead as [t ->]. destruct flagType; cbn [getWaypointBounds snd];
    unfold END_WAYPOINT, END_LANDMARK; cbn [String.eqb]; now rewrite Hc.
Qed.

Lemma empty_not_end_line (flagType : WaypointType) :
  isEndLine (snd (getWaypointBounds flagType)) EmptyString = false.
Proof. now destruct flagType. Qed.

Lemma startsWith_bar (x : string) : startsWith ("|" +:+ x) "|" = true.
Proof. unfold startsWith. now rewrite append_String, prefix_String, prefix_empty. Qed.

Lemma bar_not_end_line (line : string) (flagType : WaypointType) :
  startsWith line "|" = true ->
  isEndLine (snd (getWaypointBounds flagType)) line = false.
Proof.
  unfold startsWith. destruct line as [|c s]; [discriminate|].
  rewrite prefix_String. intros H. apply andb_true_iff in H as [Hc _].
  apply Ascii.eqb_eq in Hc. subst c. now apply not_end_line.
Qed.

End TableLineFacts.

Section TableLines.

Context {engine : RegExpEngine}.
Variable fileRow : Vault -> WaypointSettings -> list YamlValue -> TFile -> string.
Variable settings : WaypointSettings.
Variable v : Vault.
Variable rootNode : TFolder.
Variable node : TAbstractFile.
Hypothesis Hprints : PrintsLines fileRow settings v rootNode node.

Lemma linesText_app (xs ys : list string) :
  linesText (xs ++ ys) = linesText xs +:+ linesText ys.
Proof.
  induction xs as [|x xs IH]; [reflexivity|].
  cbn [app]. now rewrite !linesText_cons, IH, append_assoc.
Qed.

Lemma folderLinkPath_line (d : TFolder) :
  In (Folder d) (childrenOf v node) -> singleLine (folderLinkPath settings v node d).
Proof.
  intros Hin. destruct (folder_lines _ _ _ _ _ Hprints d Hin) as [Hname Hpath].
  pose proof (note_name_line _ _ _ _ _ Hprints) as Hnote.
  assert (Hin_folder :
    singleLine (if String.eqb (folderNoteName settings) EmptyString
                then folder_path d +:+ "/" +:+ folder_name d +:+ ".md"
                else folder_path d +:+ "/" +:+ folderNoteName settings +:+ ".md")).
  { destruct (String.eqb (folderNoteName settings) EmptyString);
      repeat apply singleLine_app; assumption || reflexivity. }
  unfold folderLinkPath. destruct (String.eqb (folderNoteType settings) INSIDE_FOLDER);
    [exact Hin_folder|].
  destruct (parentOf v node); [exact Hin_folder|reflexivity].
Qed.

Lemma folderCell_line (d : TFolder) (key : YamlValue) :
  In (Folder d) (childrenOf v node) ->
  singleLine (folderCell settings v node d key)
  /\ exists rest, folderCell settings v node d key = String "|" rest.
Proof.
  intros Hin. destruct (folder_lines _ _ _ _ _ Hprints d Hin) as [Hname _].
  pose proof (folderLinkPath_line d Hin) as Hlink.
  unfold folderCell. destruct key as [k| |items]; [|split; [reflexivity|eauto]..].
  destruct (String.eqb k "TITLE" || String.eqb k "Title" || String.eqb k "title");
    [|split; [reflexivity|eauto]].
  destruct (useWikiLinks settings); (split; [|eexists; reflexivity]).
  - repeat apply singleLine_app; assumption || reflexivity.
  - repeat apply singleLine_app;
      assumption || reflexivity || now apply singleLine_replaceAll.
Qed.

(** The row of a child is one line that begins with a bar, and a line
    feed. *)
Lemma tableRow_line (keyList : list YamlValue) (child : TAbstractFile) :
  In child (childrenOf v node) ->
  exists line,
    tableRow fileRow settings v node keyList child = line +:+ String LF EmptyString
    /\ singleLine line /\ startsWith line "|" = true.
Proof.
  intros Hin. destruct child as [f|d].
  - exact (file_row_line _ _ _ _ _ Hprints keyList f Hin).
  - exists (String_concat (map (folderCell settings v node d) keyList) +:+ "|").
    unfold tableRow. split; [now rewrite append_assoc|]. split.
    + apply singleLine_app; [|reflexivity]. apply singleLine_String_concat.
      apply Forall_map, Forall_forall. intros key _.
      now apply folderCell_line.
    + unfold startsWith. destruct keyList as [|key keyList]; [reflexivity|].
      cbn [map String_concat foldr].
      destruct (folderCell_line d key Hin) as (_ & rest & ->).
      now rewrite !append_String, prefix_String, prefix_empty.
Qed.

Lemma rows_are_lines (keyList : list YamlValue) (listed : list TAbstractFile) :
  Forall (fun child => In child (childrenOf v node)) listed ->
  exists rows,
    String_concat (map (tableRow fileRow settings v node keyList) listed)
    = linesText rows
    /\ length rows = length listed
    /\ Forall (fun line => singleLine line /\ startsWith line "|" = true) rows.
Proof.
  induction 1 as [|child listed Hchild _ IH].
  - exists []. repeat split. constructor.
  - destruct IH as (rows & Htext & Hlength & Hrows).
    destruct (tableRow_line keyList child Hchild) as (line & Hline & Hsingle & Hbar).
    exists (line :: rows). cbn [map String_concat foldr length].
    fold (String_concat (map (tableRow fileRow settings v node keyList) listed)).
    rewrite Hline, Htext, Hlength, linesText_cons, append_assoc.
    repeat split. now constructor.
Qed.

(** The lines above the rows: the heading, the creation links and an
    empty line when there are links, the header and the separator. *)
Lemma heading_is_lines (keyList : list YamlValue) (rest : string) :
  singleLine (joinValues "|" keyList) ->
  exists heading,
    tableHeading settings v rootNode node +:+ tableHeader keyList +:+ rest
    = linesText heading +:+ rest
    /\ (length heading = 3 \/ length heading = 5)%nat
    /\ Forall singleLine heading
    /\ forall flagType,
         Forall (fun line => isEndLine (snd (getWaypointBounds flagType)) line = false)
           heading.
Proof.
  intros Hkeys.
  pose proof (root_name_line _ _ _ _ _ Hprints) as Hroot.
  pose proof (node_path_line _ _ _ _ _ Hprints) as Hpath.
  set (header := "|" +:+ joinValues "|" keyList +:+ "|").
  set (separator := "|" +:+ joinWith "|" (map (fun _ : YamlValue => "---") keyList) +:+ "|").
  assert (Hheader : singleLine header)
    by (subst header; repeat apply singleLine_app; assumption || reflexivity).
  assert (Hseparator : singleLine separator).
  { subst separator. repeat apply singleLine_app; try reflexivity.
    apply singleLine_joinWith; [reflexivity|]. apply Forall_map, Forall_forall.
    now intros. }
  assert (Htable : tableHeader keyList +:+ rest
                   = String LF (linesText [header; separator] +:+ rest)).
  { unfold tableHeader. fold header. fold separator.
    rewrite !linesText_cons. unfold linesText. cbn [map String_concat foldr].
    repeat (rewrite append_assoc || rewrite append_String); reflexivity. }
  assert (Hbars : forall flagType,
    Forall (fun line => isEndLine (snd (getWaypointBounds flagType)) line = false)
      [header; separator]).
  { intros flagType.
    constructor; [apply bar_not_end_line, startsWith_bar|].
    constructor; [apply bar_not_end_line, startsWith_bar|constructor]. }
  set (title := "# " +:+ folder_name rootNode).
  assert (Htitle : singleLine title)
    by (subst title; apply singleLine_app; assumption || reflexivity).
  assert (Htitle' : forall flagType,
    isEndLine (snd (getWaypointBounds flagType)) title = false).
  { intros flagType. subst title. now apply not_end_line. }
  assert (Hlinked : forall link,
    singleLine link ->
    (exists tail, link = String "[" tail) ->
    exists heading,
      (title +:+ String LF link +:+ String LF EmptyString) +:+ tableHeader keyList +:+ rest
      = linesText heading +:+ rest
      /\ (length heading = 3 \/ length heading = 5)%nat
      /\ Forall singleLine heading
      /\ forall flagType,
           Forall (fun line => isEndLine (snd (getWaypointBounds flagType)) line = false)
             heading).
  { intros link Hlink (tail & Htail).
    exists [title; link; EmptyString; header; separator].
    rewrite Htable. split; [|split; [now right|split]].
    - rewrite !linesText_cons. unfold linesText. cbn [map String_concat foldr].
      repeat (rewrite append_assoc || rewrite append_String); reflexivity.
    - repeat constructor; assumption || reflexivity.
    - intros flagType. constructor; [apply Htitle'|].
      constructor; [subst link; now apply not_end_line|].
      constructor; [apply empty_not_end_line|apply Hbars]. }
  unfold tableHeading. fold title.
  destruct (String.eqb (folderNoteType settings) INSIDE_FOLDER).
  - destruct (useWikiLinks settings); apply Hlinked;
      try (eexists; reflexivity);
      repeat apply singleLine_app; assumption || reflexivity.
  - destruct (parentOf v node).
    + apply Hlinked; [|eexists; reflexivity].
      repeat apply singleLine_app; assumption || reflexivity.
    + exists [title; header; separator].
      rewrite Htable. split; [|split; [now left|split]].
      * rewrite !linesText_cons. unfold linesText. cbn [map String_concat foldr].
        repeat (rewrite append_assoc || rewrite append_String); reflexivity.
      * repeat constructor; assumption.
      * intros flagType. constructor; [apply Htitle'|apply Hbars].
Qed.

End TableLines.

(** * Facts about the rows of files *)

Section FileRowFacts.

Variable dateCell : option (gmap string YamlValue) -> TFile -> string.
Variable settings : WaypointSettings.
Variable v : Vault.

(** The cells of a file without front-matter. *)
Lemma fileCell_plain (f : TFile) (key : YamlValue) :
  frontmatterOf v f = None ->
  singleLine (file_path f) -> singleLine (basename f) -> singleLine (file_name f) ->
  singleLine (dateCell None f) ->
  startsWith (dateCell None f) "|" = true ->
  singleLine (fileCell dateCell v settings f key)
  /\ startsWith (fileCell dateCell v settings f key) "|" = true.
Proof.
  intros Hnone Hpath Hbase Hname Hdate Hbar.
  assert (Htitle : singleLine (fileTitleCell v settings f)
                   /\ startsWith (fileTitleCell v settings f) "|" = true).
  { unfold fileTitleCell. rewrite Hnone.
    assert (Hshown : singleLine (if String.eqb (extension f) "md"
                                 then basename f else file_name f))
      by now destruct (String.eqb (extension f) "md").
    destruct (useFrontMatterTitle settings), (useWikiLinks settings);
      (split; [|apply startsWith_bar]);
      repeat apply singleLine_app;
      assumption || reflexivity || now apply singleLine_replaceAll. }
  unfold fileCell. rewrite Hnone. destruct key as [k| |items]; [|now split..].
  destruct (String.eqb k "TITLE" || String.eqb k "Title" || String.eqb k "title");
    [exact Htitle|].
  destruct (String.eqb k "DATE" || String.eqb k "Date" || String.eqb k "date");
    [now split|].
  destruct (String.eqb k "tags"); now split.
Qed.

Lemma fileRowOf_plain (keyList : list YamlValue) (f : TFile) :
  frontmatterOf v f = None ->
  singleLine (file_path f) -> singleLine (basename f) -> singleLine (file_name f) ->
  singleLine (dateCell None f) ->
  startsWith (dateCell None f) "|" = true ->
  exists line,
    fileRowOf dateCell v settings keyList f = line +:+ String LF EmptyString
    /\ singleLine line /\ startsWith line "|" = true.
Proof.
  intros Hnone Hpath Hbase Hname Hdate Hbar.
  exists (String_concat (map (fileCell dateCell v settings f) keyList) +:+ "|").
  unfold fileRowOf. split; [now rewrite append_assoc|]. split.
  - apply singleLine_app; [|reflexivity]. apply singleLine_String_concat.
    apply Forall_map, Forall_forall. intros key _. now apply fileCell_plain.
  - destruct keyList as [|key keyList]; [reflexivity|].
    cbn [map String_concat foldr].
    destruct (fileCell_plain f key Hnone Hpath Hbase Hname Hdate Hbar) as [_ Hcell].
    unfold startsWith in *.
    destruct (fileCell dateCell v settings f key) as [|c cell]; [discriminate|].
    rewrite prefix_String in Hcell. apply andb_true_iff in Hcell as [Hc _].
    now rewrite !append_String, prefix_String, Hc, prefix_empty.
Qed.

End FileRowFacts.

Lemma demo_prints_lines :
  PrintsLines (fileRowOf (fun _ _ => "|")) DEFAULT_SETTINGS demoVault projectsFolder
    (Folder projectsFolder).
Proof.
  assert (E : childrenOf demoVault (Folder projectsFolder)
              = [File projectsNote; File alphaNote; File betaNote;
                 Folder archiveFolder; Folder attachmentsFolder])
    by (vm_compute; reflexivity).
  split; try reflexivity.
  - intros d Hin. rewrite E in Hin.
    repeat (destruct Hin as [Hin|Hin];
            [first [discriminate Hin|injection Hin as <-; split; reflexivity]|]).
    contradiction.
  - intros keyList f Hin. rewrite E in Hin.
    repeat (destruct Hin as [Hin|Hin];
            [first [discriminate Hin
                   |injection Hin as <-; apply fileRowOf_plain; reflexivity]|]).
    contradiction.
Qed.

(** * Facts about ties in the order of children *)

Section StableFacts.

Lemma compareChildren_timed (x y : TAbstractFile) (tx ty : Z) :
  validTime x -> validTime y ->
  ctimeOf x = Some tx -> ctimeOf y = Some ty -> tx <> 0 -> ty <> 0 ->
  SortCompare compareChildren x y = ty - tx.
Proof.
  intros Hx Hy Htx Hty Hnx Hny. unfold SortCompare, compareChildren, lacksCtime.
  rewrite Htx, Hty. rewrite (proj2 (Z.eqb_neq _ _) Hnx), (proj2 (Z.eqb_neq _ _) Hny).
  cbn [from_option id].
  now rewrite (Date_getTime_valid tx (Hx tx Htx)), (Date_getTime_valid ty (Hy ty Hty)).
Qed.

(** No child below a child in the order was created later than it. *)
Lemma filter_createdAt_older (t : Z) (y : TAbstractFile) (ty : Z)
    (l : list TAbstractFile) :
  ctimeOf y = Some ty -> ty <> 0 -> ty < t ->
  Forall (fun c => lacksCtime c = false) l ->
  Forall (newestFirst y) l ->
  List.filter (createdAt t) l = [].
Proof.
  intros Hy Hny Hlt Htimed Hbelow.
  induction Hbelow as [|z l Hz _ IH]; [reflexivity|].
  apply Forall_cons in Htimed as [Htz Htimed]. cbn [List.filter].
  assert (Hz0 : createdAt t z = false).
  { destruct Hz as [Hlacks|(ty' & tz & Hty' & Htz' & _ & _ & Hle)].
    - unfold lacksCtime in Hlacks. rewrite Hy in Hlacks.
      apply Z.eqb_eq in Hlacks. contradiction.
    - unfold createdAt. rewrite Htz'. apply Z.eqb_neq.
      rewrite Hy in Hty'. injection Hty' as <-. lia. }
  rewrite Hz0. now apply IH.
Qed.

(** A child goes behind the children of its own creation time that are in
    the list already. *)
Lemma sortInsert_createdAt (t : Z) (x : TAbstractFile) (l : list TAbstractFile) :
  validTime x -> lacksCtime x = false ->
  Forall validTime l -> Forall (fun c => lacksCtime c = false) l ->
  StronglySorted newestFirst l ->
  List.filter (createdAt t) (sortInsert compareChildren x l)
  = List.filter (createdAt t) l ++ (if createdAt t x then [x] else []).
Proof.
  intros Hx Htimed Hvalid Hall Hsorted.
  destruct (timed_ctime x Htimed) as (tx & Htx & Hnx).
  induction Hsorted as [|y l Hsorted IH Hy]; [reflexivity|].
  apply Forall_cons in Hvalid as [Hvy Hvalid]. apply Forall_cons in Hall as [Hty Hall].
  destruct (timed_ctime y Hty) as (ty & Hy' & Hny).
  cbn [sortInsert]. rewrite (compareChildren_timed x y tx ty) by assumption.
  destruct (ty - tx <? 0) eqn:E.
  - apply Z.ltb_lt in E. cbn [List.filter].
    destruct (createdAt t x) eqn:Ex; [|now rewrite app_nil_r].
    assert (Hnone : List.filter (createdAt t) (y :: l) = []).
    { unfold createdAt in Ex. rewrite Htx in Ex. apply Z.eqb_eq in Ex. subst t.
      assert (Hy0 : createdAt tx y = false).
      { unfold createdAt. rewrite Hy'. apply Z.eqb_neq. lia. }
      cbn [List.filter]. rewrite Hy0.
      apply (filter_createdAt_older tx y ty l); assumption || lia. }
    cbn [List.filter] in Hnone. now rewrite Hnone.
  - cbn [List.filter]. rewrite (IH Hvalid Hall).
    now destruct (createdAt t y).
Qed.

Lemma Array_sort_createdAt (t : Z) (l acc : list TAbstractFile) :
  Forall validTime l -> Forall (fun c => lacksCtime c = false) l ->
  Forall validTime acc -> Forall (fun c => lacksCtime c = false) acc ->
  StronglySorted newestFirst acc ->
  List.filter (createdAt t) (foldl (fun sorted x => sortInsert compareChildren x sorted) acc l)
  = List.filter (createdAt t) acc ++ List.filter (createdAt t) l.
Proof.
  revert acc. induction l as [|x l IH]; intros acc Hvl Htl Hva Hta Hsorted.
  - cbn. now rewrite app_nil_r.
  - apply Forall_cons in Hvl as [Hvx Hvl]. apply Forall_cons in Htl as [Htx Htl].
    cbn [foldl]. rewrite IH; try assumption.
    + rewrite sortInsert_createdAt by assumption.
      cbn [List.filter]. rewrite <- app_assoc. now destruct (createdAt t x).
    + rewrite (sortInsert_perm compareChildren x acc). now constructor.
    + rewrite (sortInsert_perm compareChildren x acc). now constructor.
    + now apply sortInsert_sorted.
Qed.

(** Among children that all have a creation time the order is the order of
    the times. *)
Lemma newestFirst_timed (l : list TAbstractFile) :
  StronglySorted newestFirst l ->
  Forall (fun c => lacksCtime c = false) l ->
  StronglySorted
    (fun a b => exists ta tb, ctimeOf a = Some ta /\ ctimeOf b = Some tb /\ tb <= ta) l.
Proof.
  induction 1 as [|a l Hsorted IH Ha]; intros Hall; [constructor|].
  apply Forall_cons in Hall as [Hta Hall].
  constructor; [now apply IH|].
  eapply Forall_impl; [exact Ha|].
  intros b [Hlacks|(ta & tb & Ha' & Hb' & _ & _ & Hle)]; [congruence|].
  now exists ta, tb.
Qed.

End StableFacts.

(** * Facts about the order of the rows *)

Section RowOrderFacts.

Lemma newestFirst_rowOrder (a b : TAbstractFile) : newestFirst a b -> rowOrder a b.
Proof.
  intros [Hlacks|Htimed]; [left|now right].
  unfold lacksCtime in Hlacks. unfold untimed.
  destruct (ctimeOf a) as [t|]; [|now left].
  apply Z.eqb_eq in Hlacks. subst t. now right.
Qed.

Lemma StronglySorted_impl {A} (R S : A -> A -> Prop) (l : list A) :
  (forall a b, R a b -> S a b) -> StronglySorted R l -> StronglySorted S l.
Proof.
  intros Himpl. induction 1 as [|a l Hsorted IH Ha]; constructor; [exact IH|].
  eapply Forall_impl; [exact Ha|]. intros b. apply Himpl.
Qed.

(** In a list in order, what stands at a lower index is related to what
    stands at a higher one. *)
Lemma StronglySorted_lookup {A} (R : A -> A -> Prop) (l : list A) :
  StronglySorted R l ->
  forall i j a b, (i < j)%nat -> l !! i = Some a -> l !! j = Some b -> R a b.
Proof.
  induction 1 as [|x l Hsorted IH Hx]; intros i j a b Hij Ha Hb; [discriminate|].
  destruct j as [|j]; [lia|]. cbn in Hb.
  destruct i as [|i].
  - cbn in Ha. injection Ha as <-. rewrite Forall_forall in Hx. apply Hx.
    now apply (list_elem_of_lookup_2 l j).
  - cbn in Ha. apply (IH i j); [lia|assumption..].
Qed.

Lemma filter_Permutation {A} (p : A -> bool) (k l : list A) :
  Permutation k l -> Permutation (List.filter p k) (List.filter p l).
Proof.
  induction 1 as [|x k l _ IH|x y l|k l m _ IH1 _ IH2]; cbn [List.filter].
  - constructor.
  - destruct (p x); [now constructor|exact IH].
  - destruct (p x), (p y); try reflexivity. apply perm_swap.
  - now rewrite IH1.
Qed.

(** Of two rows in order, the one of the child created later, or of the
    child without creation time, is the upper one. *)
Lemma rowOrder_index (l : list TAbstractFile) (i j : nat) (a b : TAbstractFile) (tb : Z) :
  StronglySorted rowOrder l ->
  l !! i = Some a -> l !! j = Some b ->
  ctimeOf b = Some tb -> tb <> 0 ->
  untimed a \/ (exists ta, ctimeOf a = Some ta /\ tb < ta) ->
  (i < j)%nat.
Proof.
  intros Hsorted Ha Hb Htb Hnb Hab.
  destruct (Nat.lt_trichotomy i j) as [Hlt|[Heq|Hgt]]; [exact Hlt| |]; exfalso.
  - subst j. rewrite Ha in Hb. injection Hb as <-.
    destruct Hab as [[Hnone|Hzero]|(ta & Hta & Hlt)]; [congruence|congruence|].
    rewrite Htb in Hta. injection Hta as <-. lia.
  - pose proof (StronglySorted_lookup rowOrder l Hsorted j i b a Hgt Hb Ha) as Hba.
    destruct Hba as [[Hnone|Hzero]|(tb' & ta' & Htb' & Hta' & _ & Hna & Hle)];
      [congruence|congruence|].
    rewrite Htb in Htb'. injection Htb' as <-.
    destruct Hab as [[Hnone|Hzero]|(ta & Hta & Hlt)]; [congruence|congruence|].
    rewrite Hta in Hta'. injection Hta' as <-. lia.
Qed.

End RowOrderFacts.

Lemma log_children_valid :
  Forall validTime (childrenOf epochVault (Folder logFolder)).
Proof.
  assert (E : childrenOf epochVault (Folder logFolder)
              = [File logNote; File mayNote; File aprilNote; File epochNote])
    by (vm_compute; reflexivity).
  rewrite E.
  repeat (apply Forall_cons; split;
          [intros t Ht; cbn in Ht; injection Ht as <-; cbn; lia|]).
  apply Forall_nil. exact I.
Qed.

(** * Facts about percent signs in the table *)

Section PercentFacts.

Lemma percentFree_app (a b : string) :
  percentFree (a +:+ b) = percentFree a && percentFree b.
Proof.
  induction a as [|c a IH]; [reflexivity|].
  rewrite append_String. cbn [percentFree]. now rewrite IH, andb_assoc.
Qed.

Lemma pairFree_app (after : bool) (a b : string) :
  pairFree after a = true -> pairFree false b = true ->
  pairFree after (a +:+ b) = true.
Proof.
  revert after. induction a as [|c a IH]; intros after Ha Hb.
  - destruct after; [discriminate|exact Hb].
  - rewrite append_String. cbn [pairFree] in Ha |- *.
    destruct (Ascii.eqb c "%").
    + apply andb_true_iff in Ha as [-> Ha]. now apply IH.
    + now apply IH.
Qed.

Lemma percentFree_pairFree (s : string) :
  percentFree s = true -> pairFree false s = true.
Proof.
  induction s as [|c s IH]; [reflexivity|]. cbn [percentFree pairFree].
  intros H. apply andb_true_iff in H as [Hc Hs].
  apply negb_true_iff in Hc. rewrite Hc. now apply IH.
Qed.

(** A text of that shape holds no pair of percent signs. *)
Lemma pairFree_includes (after : bool) (s : string) :
  pairFree after s = true -> includes s "%%" = false.
Proof.
  revert after. induction s as [|c s IH]; intros after H; [reflexivity|].
  rewrite includes_String. cbn [pairFree] in H.
  destruct (Ascii.eqb c "%") eqn:Ec.
  - apply andb_true_iff in H as [_ H]. rewrite (IH true H), orb_false_r.
    destruct s as [|d s]; [discriminate|].
    rewrite !prefix_String. cbn [pairFree] in H.
    destruct (Ascii.eqb d "%") eqn:Ed; [discriminate|].
    rewrite (Ascii.eqb_sym "%" d), Ed. now rewrite andb_false_r.
  - rewrite (IH false H), orb_false_r, prefix_String.
    now rewrite Ascii.eqb_sym, Ec.
Qed.

Lemma pairFree_replaceAll (s : string) :
  percentFree s = true -> pairFree false (replaceAll s " " "%20") = true.
Proof.
  induction s as [|c s IH]; [reflexivity|]. cbn [percentFree replaceAll].
  intros H. apply andb_true_iff in H as [Hc Hs]. apply negb_true_iff in Hc.
  destruct (Ascii.eqb c " ").
  - change ("%20" +:+ replaceAll s " " "%20")
      with (String "%" (String "2" (String "0" (replaceAll s " " "%20")))).
    cbn [pairFree]. cbn. now apply IH.
  - cbn [pairFree]. rewrite Hc. now apply IH.
Qed.

Lemma pairFree_concat (pieces : list string) :
  Forall (fun p => pairFree false p = true) pieces ->
  pairFree false (String_concat pieces) = true.
Proof.
  induction 1 as [|p pieces Hp _ IH]; [reflexivity|].
  cbn [String_concat foldr]. now apply pairFree_app.
Qed.

Lemma percentFree_joinWith (sep : string) (items : list string) :
  percentFree sep = true ->
  Forall (fun x => percentFree x = true) items ->
  percentFree (joinWith sep items) = true.
Proof.
  intros Hsep. induction 1 as [|x items Hx Hitems IH]; [reflexivity|].
  destruct items as [|y items]; [exact Hx|].
  change (joinWith sep (x :: y :: items)) with (x +:+ sep +:+ joinWith sep (y :: items)).
  now rewrite !percentFree_app, Hx, Hsep, IH.
Qed.

Lemma joinWith_percentFree (sep : string) (items : list string) :
  percentFree (joinWith sep items) = true ->
  Forall (fun x => percentFree x = true) items.
Proof.
  induction items as [|x items IH]; intros H; [constructor|].
  destruct items as [|y items]; [now repeat constructor|].
  change (joinWith sep (x :: y :: items))
    with (x +:+ sep +:+ joinWith sep (y :: items)) in H.
  rewrite !percentFree_app, !andb_true_iff in H. destruct H as (Hx & _ & Hrest).
  constructor; [exact Hx|now apply IH].
Qed.

(** The items of a printed array, as [join] and as [String] print them. *)
Lemma items_percentFree (items : list YamlValue) :
  percentFree (YamlValue_toString (YArray items)) = true ->
  Forall (fun x => percentFree (match x with
                                | YNull => EmptyString
                                | _ => YamlValue_toString x
                                end) = true
                   /\ percentFree (YamlValue_toString x) = true) items.
Proof.
  cbn [YamlValue_toString]. intros H. apply joinWith_percentFree in H.
  apply Forall_map in H. eapply Forall_impl; [exact H|].
  intros x Hx. split; [exact Hx|]. now destruct x.
Qed.

Lemma percentFree_joinValues (sep : string) (items : list YamlValue) :
  percentFree sep = true ->
  Forall (fun x => percentFree (YamlValue_toString x) = true) items ->
  percentFree (joinValues sep items) = true.
Proof.
  intros Hsep Hitems. unfold joinValues. apply percentFree_joinWith; [exact Hsep|].
  apply Forall_map. eapply Forall_impl; [exact Hitems|].
  intros x Hx. now destruct x.
Qed.

Lemma percentFree_String_drop (n : nat) (s : string) :
  percentFree s = true -> percentFree (String_drop n s) = true.
Proof.
  revert s. induction n as [|n IH]; intros s H; [exact H|].
  destruct s as [|c s]; [reflexivity|]. cbn [String_drop percentFree] in *.
  apply andb_true_iff in H as [_ H]. now apply IH.
Qed.

Lemma percentFree_cutAtFirst (s searchValue before after : string) :
  cutAtFirst s searchValue = Some (before, after) ->
  percentFree s = true ->
  percentFree before = true /\ percentFree after = true.
Proof.
  revert before after. induction s as [|c s IH]; intros before after Hcut Hs.
  - cbn [cutAtFirst] in Hcut. destruct (String.prefix searchValue EmptyString);
      [|discriminate].
    injection Hcut as <- <-. split; [reflexivity|]. now apply percentFree_String_drop.
  - cbn [cutAtFirst] in Hcut. destruct (String.prefix searchValue (String c s)).
    + injection Hcut as <- <-. split; [reflexivity|]. now apply percentFree_String_drop.
    + destruct (cutAtFirst s searchValue) as [[b a]|] eqn:E; [|discriminate].
      injection Hcut as <- <-. cbn [percentFree] in Hs |- *.
      apply andb_true_iff in Hs as [Hc Hs].
      destruct (IH b a eq_refl Hs) as [Hb Ha]. now rewrite Hc, Hb, Ha.
Qed.

Lemma percentFree_GetSubstitution (matched before after : string) :
  percentFree matched = true -> percentFree before = true ->
  percentFree after = true ->
  forall template,
    percentFree template = true ->
    percentFree (GetSubstitution matched before after template) = true.
Proof.
  intros Hm Hb Ha.
  assert (H : forall n template,
    (String.length template <= n)%nat ->
    percentFree template = true ->
    percentFree (GetSubstitution matched before after template) = true).
  { induction n as [|n IH]; intros template Hn Ht.
    - destruct template; [reflexivity|cbn in Hn; lia].
    - destruct template as [|c rest]; [reflexivity|].
      cbn [String.length] in Hn. cbn [percentFree] in Ht.
      apply andb_true_iff in Ht as [Hc Hrest].
      assert (Hnext : percentFree (String c (GetSubstitution matched before after rest))
                      = true).
      { cbn [percentFree]. rewrite Hc. apply IH; [lia|exact Hrest]. }
      cbn [GetSubstitution]. destruct (Ascii.eqb c "$"); [|exact Hnext].
      destruct rest as [|d rest']; [now cbn [percentFree]; rewrite Hc|].
      cbn [String.length] in Hn. cbn [percentFree] in Hrest.
      apply andb_true_iff in Hrest as [Hd Hrest'].
      assert (Htail : percentFree (GetSubstitution matched before after rest') = true)
        by (apply IH; [lia|exact Hrest']).
      destruct (Ascii.eqb d "$"); [exact Htail|].
      destruct (Ascii.eqb d "&"); [now rewrite percentFree_app, Hm|].
      destruct (Ascii.eqb d "`"); [now rewrite percentFree_app, Hb|].
      destruct (Ascii.eqb d "'"); [now rewrite percentFree_app, Ha|].
      exact Hnext. }
  intros template. now apply (H (String.length template)).
Qed.

Lemma percentFree_String_replace (s searchValue replaceValue : string) :
  percentFree s = true -> percentFree searchValue = true ->
  percentFree replaceValue = true ->
  percentFree (String_replace s searchValue replaceValue) = true.
Proof.
  intros Hs Hsearch Hreplace. unfold String_replace.
  destruct (cutAtFirst s searchValue) as [[before after]|] eqn:E; [|exact Hs].
  destruct (percentFree_cutAtFirst _ _ _ _ E Hs) as [Hb Ha].
  rewrite !percentFree_app, Hb, Ha, andb_true_r. cbn [andb].
  now apply percentFree_GetSubstitution.
Qed.

Lemma percentFree_convertLink (val key : YamlValue) :
  percentFree (YamlValue_toString val) = true ->
  percentFree (YamlValue_toString key) = true ->
  percentFree (convertLink val key) = true.
Proof.
  intros Hval Hkey. unfold convertLink. destruct val as [s| |items]; try exact Hval.
  cbn [YamlValue_toString] in Hval.
  destruct (12 <? String.length s)%nat; [|exact Hval].
  destruct (String.eqb s "[["); [reflexivity|].
  destruct (startsWith s "[[").
  - apply percentFree_String_replace; [exact Hval|reflexivity|].
    now rewrite !percentFree_app, Hkey.
  - destruct (startsWith s "https://" || startsWith s "http://"); [|exact Hval].
    now rewrite !percentFree_app, Hkey, Hval.
Qed.

End PercentFacts.

Section PercentCells.

Context {engine : RegExpEngine}.
Variable dateCell : option (gmap string YamlValue) -> TFile -> string.
Variable settings : WaypointSettings.
Variable v : Vault.
Variable folder : TFolder.
Hypothesis Hnames : PercentFreeNames dateCell settings v folder.

Lemma frontmatter_value (f : TFile) (fm : gmap string YamlValue) (key : string)
    (val : YamlValue) :
  frontmatterOf v f = Some fm -> fm !! key = Some val ->
  percentFree (YamlValue_toString val) = true.
Proof.
  unfold frontmatterOf. intros Hfm Hval.
  exact (frontmatter_percentFree _ _ _ _ Hnames _ _ _ _ Hfm Hval).
Qed.

Lemma fileTitleCell_pairFree (f : TFile) :
  In (File f) (childrenOf v (Folder folder)) ->
  pairFree false (fileTitleCell v settings f) = true.
Proof.
  intros Hin. pose proof (children_percentFree _ _ _ _ Hnames _ Hin) as Hf.
  cbn [percentFreeNode] in Hf. rewrite !andb_true_iff in Hf.
  destruct Hf as [[Hname Hpath] Hbase].
  unfold fileTitleCell.
  set (name := if String.eqb (extension f) "md" then basename f else file_name f).
  assert (Hshown : percentFree name = true)
    by (subst name; now destruct (String.eqb (extension f) "md")).
  set (title := if useFrontMatterTitle settings then _ else name).
  assert (Htitle : percentFree title = true).
  { subst title. destruct (useFrontMatterTitle settings); [|exact Hshown].
    destruct (frontmatterOf v f) as [fm|] eqn:Efm; [|exact Hshown].
    destruct (fm !! "title") as [val|] eqn:Eval; [|exact Hshown].
    now apply (frontmatter_value f fm "title"). }
  destruct (useWikiLinks settings).
  - apply percentFree_pairFree. now rewrite !percentFree_app, Hpath, Htitle.
  - apply (pairFree_app false "|["); [reflexivity|].
    apply pairFree_app; [now apply percentFree_pairFree|].
    apply (pairFree_app false "]("); [reflexivity|].
    apply pairFree_app; [now apply pairFree_replaceAll|reflexivity].
Qed.

Lemma tagsCell_percentFree (f : TFile) :
  percentFree (tagsCell (frontmatterOf v f)) = true.
Proof.
  unfold tagsCell. destruct (frontmatterOf v f) as [fm|] eqn:Efm; [|reflexivity].
  destruct (fm !! "tags") as [val|] eqn:Eval; [|reflexivity].
  pose proof (frontmatter_value f fm "tags" val Efm Eval) as Hval.
  destruct val as [s| |items]; try (now rewrite percentFree_app, Hval).
  rewrite percentFree_app. cbn [percentFree negb andb Ascii.eqb].
  apply percentFree_joinValues; [reflexivity|].
  eapply Forall_impl; [exact (items_percentFree items Hval)|]. now intros x [_ Hx].
Qed.

Lemma customCell_percentFree (f : TFile) (key : YamlValue) :
  percentFree (YamlValue_toString key) = true ->
  percentFree (customCell (frontmatterOf v f) key) = true.
Proof.
  intros Hkey. unfold customCell.
  destruct (frontmatterOf v f) as [fm|] eqn:Efm; [|reflexivity].
  destruct (fm !! YamlValue_toString key) as [val|] eqn:Eval; [|reflexivity].
  pose proof (frontmatter_value f fm _ val Efm Eval) as Hval.
  assert (Hone : percentFree ("|" +:+ convertLink val key) = true).
  { rewrite percentFree_app. now rewrite percentFree_convertLink. }
  destruct val as [s| |items]; try exact Hone.
  rewrite percentFree_app. cbn [percentFree negb andb Ascii.eqb].
  apply percentFree_joinWith; [reflexivity|]. apply Forall_map.
  eapply Forall_impl; [exact (items_percentFree items Hval)|].
  intros x [_ Hx]. cbn beta. now apply percentFree_convertLink.
Qed.

Lemma fileCell_pairFree (f : TFile) (key : YamlValue) :
  In (File f) (childrenOf v (Folder folder)) ->
  percentFree (YamlValue_toString key) = true ->
  pairFree false (fileCell dateCell v settings f key) = true.
Proof.
  intros Hin Hkey. unfold fileCell.
  pose proof (customCell_percentFree f key Hkey) as Hcustom.
  apply percentFree_pairFree in Hcustom.
  destruct key as [k| |items]; try exact Hcustom.
  destruct (String.eqb k "TITLE" || String.eqb k "Title" || String.eqb k "title");
    [now apply fileTitleCell_pairFree|].
  destruct (String.eqb k "DATE" || String.eqb k "Date" || String.eqb k "date").
  { apply percentFree_pairFree. apply (dateCell_percentFree _ _ _ _ Hnames). }
  destruct (String.eqb k "tags"); [|exact Hcustom].
  apply percentFree_pairFree, tagsCell_percentFree.
Qed.

Lemma folderCell_pairFree (d : TFolder) (key : YamlValue) :
  In (Folder d) (childrenOf v (Folder folder)) ->
  pairFree false (folderCell settings v (Folder folder) d key) = true.
Proof.
  intros Hin. pose proof (children_percentFree _ _ _ _ Hnames _ Hin) as Hd.
  cbn [percentFreeNode] in Hd. apply andb_true_iff in Hd as [Hname Hpath].
  pose proof (noteName_percentFree _ _ _ _ Hnames) as Hnote.
  assert (Hlink : percentFree (folderLinkPath settings v (Folder folder) d) = true).
  { unfold folderLinkPath.
    assert (Hin_folder :
      percentFree (if String.eqb (folderNoteName settings) EmptyString
                   then folder_path d +:+ "/" +:+ folder_name d +:+ ".md"
                   else folder_path d +:+ "/" +:+ folderNoteName settings +:+ ".md")
      = true).
    { destruct (String.eqb (folderNoteName settings) EmptyString);
        now rewrite !percentFree_app, Hpath, ?Hname, ?Hnote. }
    destruct (String.eqb (folderNoteType settings) INSIDE_FOLDER); [exact Hin_folder|].
    destruct (parentOf v (Folder folder)); [exact Hin_folder|reflexivity]. }
  unfold folderCell. destruct key as [k| |items]; try reflexivity.
  destruct (String.eqb k "TITLE" || String.eqb k "Title" || String.eqb k "title");
    [|reflexivity].
  destruct (useWikiLinks settings).
  - apply percentFree_pairFree. now rewrite !percentFree_app, Hlink, Hname.
  - apply (pairFree_app false "|["); [reflexivity|].
    apply pairFree_app; [now apply percentFree_pairFree|].
    apply (pairFree_app false "]("); [reflexivity|].
    apply pairFree_app; [now apply pairFree_replaceAll|reflexivity].
Qed.

Lemma tableRow_pairFree (keyList : list YamlValue) (child : TAbstractFile) :
  In child (childrenOf v (Folder folder)) ->
  Forall (fun key => percentFree (YamlValue_toString key) = true) keyList ->
  pairFree false (tableRow (fileRowOf dateCell) settings v (Folder folder) keyList child)
  = true.
Proof.
  intros Hin Hkeys. unfold tableRow, fileRowOf. destruct child as [f|d].
  - apply pairFree_app; [|reflexivity]. apply pairFree_concat, Forall_map.
    eapply Forall_impl; [exact Hkeys|]. intros key Hkey. now apply fileCell_pairFree.
  - apply pairFree_app; [|reflexivity]. apply pairFree_concat, Forall_map.
    apply Forall_forall. intros key _. now apply folderCell_pairFree.
Qed.

Lemma columnKeys_percentFree (folderNote : option TFile) :
  Forall (fun key => percentFree (YamlValue_toString key) = true)
    (columnKeys v folderNote (Folder folder)).
Proof.
  unfold columnKeys. repeat (constructor; [reflexivity|]). cbn [app].
  destruct (metadataCache v !! _) as [fm|] eqn:Efm; [|constructor].
  destruct (fm !! "keys") as [[s| |keys]|] eqn:Ekeys; try constructor.
  pose proof (frontmatter_percentFree _ _ _ _ Hnames _ _ _ _ Efm Ekeys) as Hval.
  eapply Forall_impl; [exact (items_percentFree keys Hval)|]. now intros x [_ Hx].
Qed.

Lemma tableHeader_percentFree (keyList : list YamlValue) :
  Forall (fun key => percentFree (YamlValue_toString key) = true) keyList ->
  percentFree (tableHeader keyList) = true.
Proof.
  intros Hkeys. unfold tableHeader.
  assert (Hdashes : percentFree (joinWith "|" (map (fun _ : YamlValue => "---") keyList))
                    = true).
  { apply percentFree_joinWith; [reflexivity|]. apply Forall_map, Forall_forall.
    now intros. }
  change (String LF ?x) with (String LF EmptyString +:+ x).
  rewrite !percentFree_app, Hdashes, (percentFree_joinValues "|" keyList eq_refl Hkeys).
  reflexivity.
Qed.

Lemma tableHeading_percentFree :
  percentFree (tableHeading settings v folder (Folder folder)) = true.
Proof.
  pose proof (folder_percentFree _ _ _ _ Hnames) as Hd.
  cbn [percentFreeNode] in Hd. apply andb_true_iff in Hd as [Hname Hpath].
  unfold tableHeading. cbn [path].
  destruct (String.eqb (folderNoteType settings) INSIDE_FOLDER).
  - destruct (useWikiLinks settings);
      change (String LF ?x) with (String LF EmptyString +:+ x);
      now rewrite !percentFree_app, Hname, Hpath.
  - destruct (parentOf v (Folder folder)).
    + change (String LF ?x) with (String LF EmptyString +:+ x).
      now rewrite !percentFree_app, Hname, Hpath.
    + now rewrite percentFree_app, Hname.
Qed.

(** The table of the folder holds no pair of percent signs. *)
Lemma table_pairFree (folderNote : option TFile) (listed : list TAbstractFile) :
  Forall (fun child => In child (childrenOf v (Folder folder))) listed ->
  let keyList := columnKeys v folderNote (Folder folder) in
  pairFree false
    (tableHeading settings v folder (Folder folder)
     +:+ tableHeader keyList
     +:+ String_concat
           (map (tableRow (fileRowOf dateCell) settings v (Folder folder) keyList) listed))
  = true.
Proof.
  intros Hlisted keyList.
  apply pairFree_app; [apply percentFree_pairFree, tableHeading_percentFree|].
  apply pairFree_app.
  - apply percentFree_pairFree, tableHeader_percentFree, columnKeys_percentFree.
  - apply pairFree_concat, Forall_map.
    eapply Forall_impl; [exact Hlisted|]. intros child Hin. cbn beta.
    apply tableRow_pairFree; [exact Hin|apply columnKeys_percentFree].
Qed.

End PercentCells.

(** * Facts about the lines of a text without percent pairs *)

Section PercentLines.

Lemma first_line_prefix (s l : string) (ls : list string) :
  split s = l :: ls -> String.prefix l s = true.
Proof.
  revert l ls. induction s as [|c s IH]; intros l ls H.
  - injection H as <- <-. reflexivity.
  - cbn [split] in H. destruct (Ascii.eqb c LF).
    + injection H as <- <-. apply prefix_empty.
    + destruct (split s) as [|l' ls'] eqn:E; injection H as <- <-.
      * rewrite prefix_String, Ascii.eqb_refl. apply prefix_empty.
      * rewrite prefix_String, Ascii.eqb_refl. now apply (IH l' ls').
Qed.

(** What occurs in a line of a text occurs in the text. *)
Lemma line_includes (s x m : string) :
  In x (split s) -> includes x m = true -> includes s m = true.
Proof.
  revert x. induction s as [|c s IH]; intros x Hin Hx.
  - destruct Hin as [<-|[]]. exact Hx.
  - rewrite includes_String. cbn [split] in Hin. destruct (Ascii.eqb c LF).
    + destruct Hin as [<-|Hin].
      * rewrite includes_empty in Hx. apply prefix_of_empty in Hx. subst m.
        reflexivity.
      * rewrite (IH x Hin Hx). apply orb_true_r.
    + destruct (split s) as [|l ls] eqn:E.
      * destruct Hin as [<-|[]]. exfalso. now apply (split_not_nil s).
      * destruct Hin as [<-|Hin].
        -- rewrite includes_String in Hx. apply orb_true_iff in Hx as [Hp|Hl].
           ++ assert (Hwhole : String.prefix (String c l) (String c s) = true).
              { rewrite prefix_String, Ascii.eqb_refl. now apply (first_line_prefix s l ls). }
              now rewrite (prefix_trans _ _ _ Hp Hwhole).
           ++ rewrite (IH l (or_introl eq_refl) Hl). apply orb_true_r.
        -- rewrite (IH x (or_intror Hin) Hx). apply orb_true_r.
Qed.

(** A text that holds a text holds what that text begins with. *)
Lemma includes_prefix (x p q : string) :
  String.prefix p q = true -> includes x q = true -> includes x p = true.
Proof.
  intros Hpq. induction x as [|c x IH]; intros H.
  - rewrite includes_empty in H |- *. now apply (prefix_trans p q).
  - rewrite includes_String in H |- *. apply orb_true_iff in H as [H|H].
    + now rewrite (prefix_trans p q _ Hpq H).
    + rewrite (IH H). apply orb_true_r.
Qed.

(** No line of a text without pairs of percent signs holds an accepted
    flag or a begin delimiter, and none is an end delimiter. *)
Lemma pairFree_lines (s flag : string) (flagType : WaypointType) :
  pairFree false s = true ->
  acceptedFlag flag = true ->
  Forall (fun x => includes (trim x) flag = false
                   /\ includes (trim x) (fst (getWaypointBounds flagType)) = false
                   /\ isEndLine (snd (getWaypointBounds flagType)) x = false)
    (split s).
Proof.
  intros Hs Hacc. apply pairFree_includes in Hs.
  assert (Hnone : forall x m,
    In x (split s) -> String.prefix "%%" m = true -> includes x m = false).
  { intros x m Hin Hm. destruct (includes x m) eqn:E; [|reflexivity].
    apply (includes_prefix x "%%" m Hm) in E.
    apply (line_includes s x "%%" Hin) in E. congruence. }
  assert (Hflag : String.prefix "%%" flag = true).
  { unfold acceptedFlag in Hacc. rewrite !andb_true_iff in Hacc.
    now destruct Hacc as [[[[[_ Hstart] _] _] _] _]. }
  apply List.Forall_forall. intros x Hin. split; [|split].
  - rewrite includes_trim_flag by exact Hacc. now apply Hnone.
  - rewrite includes_trim_begin. apply Hnone; [exact Hin|now destruct flagType].
  - unfold isEndLine. destruct (String.eqb (trim x) _) eqn:E; [|reflexivity].
    apply String.eqb_eq in E.
    assert (Hin' : includes x (snd (getWaypointBounds flagType)) = true).
    { assert (Htrim : includes (trim x) (snd (getWaypointBounds flagType))
                      = includes x (snd (getWaypointBounds flagType)))
        by (destruct flagType; now apply includes_trim).
      rewrite <- Htrim, E. apply includes_refl. }
    rewrite Hnone in Hin'; [discriminate|exact Hin|now destruct flagType].
Qed.

End PercentLines.

Section RenderReturns.

Context {engine : RegExpEngine}.
Variable fileRow : Vault -> WaypointSettings -> list YamlValue -> TFile -> string.
Variable settings : WaypointSettings.

(** With patterns that compile and children whose parent is in the vault,
    the renderer returns: [null] for a folder that is ignored, and else the
    table with the rows of the listed children. *)
Lemma getFileTreeRepresentation_returns (v : Vault) (rootNode : TFolder)
    (node : TAbstractFile) :
  Forall compiles (ignorePaths settings) ->
  Forall (fun child => is_Some (parentOf v child)) (childrenOf v node) ->
  getFileTreeRepresentation fileRow settings v (Some rootNode) (Some node) = Return None
  \/ exists folderNote listed,
       Forall (fun child => In child (childrenOf v node)) listed
       /\ getFileTreeRepresentation fileRow settings v (Some rootNode) (Some node)
          = Return (Some (tableHeading settings v rootNode node
                          +:+ tableHeader (columnKeys v folderNote node)
                          +:+ String_concat
                                (map (tableRow fileRow settings v node
                                        (columnKeys v folderNote node)) listed))).
Proof.
  intros Hok Hchildren. unfold getFileTreeRepresentation, ignorePath.
  destruct (ignorePath_forEach_ok (path node) (ignorePaths settings) Hok false)
    as (b & -> & _).
  cbn [mbind Outcome_bind]. destruct b; [now left|]. right.
  destruct (filterChildren_returns settings v
              (Array_sort compareChildren (childrenOf v node)) Hok) with
    (filtered := @nil TAbstractFile) (folderNote := @None TFile)
    as (listed & folderNote & Hfilter).
  { eapply Permutation_Forall; [|exact Hchildren].
    apply Permutation_sym, Array_sort_perm. }
  exists folderNote, listed. rewrite Hfilter. cbn [mbind Outcome_bind].
  split; [|reflexivity].
  apply filterChildren_listed in Hfilter. cbn [app] in Hfilter. subst listed.
  apply List.Forall_forall. intros child Hin. apply filter_In in Hin as [Hin _].
  apply (Permutation_in _ (Array_sort_perm compareChildren (childrenOf v node)) Hin).
Qed.

End RenderReturns.

Lemma demo_names_percentFree :
  PercentFreeNames epochDateCell DEFAULT_SETTINGS demoVault projectsFolder.
Proof.
  assert (E : childrenOf demoVault (Folder projectsFolder)
              = [File projectsNote; File alphaNote; File betaNote;
                 Folder archiveFolder; Folder attachmentsFolder])
    by (vm_compute; reflexivity).
  split; try reflexivity.
  - intros child Hin. rewrite E in Hin.
    repeat (destruct Hin as [<-|Hin]; [reflexivity|]). contradiction.
  - intros p fm key val Hfm. cbn [metadataCache demoVault] in Hfm.
    now rewrite lookup_empty in Hfm.
Qed.

(** * Facts about the notes that propagation rewrites *)

Section RewriteFacts.

Context {engine : RegExpEngine}.
Variable dateCell : option (gmap string YamlValue) -> TFile -> string.
Variable settings : WaypointSettings.

Lemma parentPointAt_inside (v : Vault) (a : TFolder) :
  folderNoteType settings = INSIDE_FOLDER ->
  parentPointAt settings v (Folder a) = indexedNote settings v a.
Proof.
  intros Hmode. unfold parentPointAt, folderNoteOf, indexedNote, markedAs,
    getAbstractFileByPath.
  rewrite Hmode, String.eqb_refl. cbn [path name].
  destruct (fileMap v !! _) as [[note|?]|]; [|reflexivity..].
  destruct (includes (read v note) BEGIN_WAYPOINT
            || includes (read v note) (waypointFlag settings)); [reflexivity|].
  now destruct (includes (read v note) BEGIN_LANDMARK
                || includes (read v note) (landmarkFlag settings)).
Qed.

Lemma omap_parentPointAt_inside (v : Vault) (chain : list TFolder) :
  folderNoteType settings = INSIDE_FOLDER ->
  omap (fun a => parentPointAt settings v (Folder a)) chain
  = omap (indexedNote settings v) chain.
Proof.
  intros Hmode. induction chain as [|a chain IH]; [reflexivity|].
  cbn [omap list_omap]. now rewrite (parentPointAt_inside v a Hmode), IH.
Qed.

Lemma markedAs_marker (text : string) (flagType : WaypointType) :
  markedAs settings text = Some flagType ->
  includes text (fst (getWaypointBounds flagType))
  || includes text (getWaypointFlag settings flagType) = true.
Proof.
  unfold markedAs.
  destruct (includes text BEGIN_WAYPOINT || includes text (waypointFlag settings)) eqn:Ew.
  - intros [= <-]. exact Ew.
  - destruct (includes text BEGIN_LANDMARK || includes text (landmarkFlag settings)) eqn:El;
      [|discriminate].
    intros [= <-]. exact El.
Qed.

Lemma fileRowOf_reads (v v' : Vault) :
  metadataCache v' = metadataCache v ->
  forall keyList f,
    fileRowOf dateCell v' settings keyList f = fileRowOf dateCell v settings keyList f.
Proof.
  intros Hmeta keyList f. unfold fileRowOf. do 2 f_equal. apply map_ext. intros key.
  unfold fileCell, fileTitleCell, frontmatterOf. now rewrite Hmeta.
Qed.

Lemma foldl_regenerate_fileMap (points : list (WaypointType * TFile)) :
  forall v,
    fileMap (foldl (regenerate (fileRowOf dateCell) settings) v points) = fileMap v
    /\ metadataCache (foldl (regenerate (fileRowOf dateCell) settings) v points)
       = metadataCache v.
Proof.
  induction points as [|point points IH]; intros v; [now split|].
  cbn [foldl]. destruct (IH (regenerate (fileRowOf dateCell) settings v point)) as [-> ->].
  split; [apply regenerate_fileMap|apply regenerate_metadataCache].
Qed.

(** The notes looked up for the folders of a chain lie in different
    folders: no two of them are the same note. *)
Lemma chain_notes_NoDup (v : Vault) (rank : string -> nat) :
  TreeVault settings v rank ->
  forall n start,
    List.NoDup
      (map (fun point : WaypointType * TFile => file_path (snd point))
         (omap (fun a => parentPointAt settings v (Folder a))
            (ancestorChain n v start))).
Proof.
  intros Htree. induction n as [|n IH]; intros start; [constructor|].
  destruct start as [k|]; [|constructor]. cbn [ancestorChain].
  destruct (fileMap v !! k) as [[f|d]|] eqn:Ek; [constructor| |constructor].
  cbn [omap list_omap].
  destruct (parentPointAt settings v (Folder d)) as [[flag note]|] eqn:Epoint; [|apply IH].
  cbn [map snd]. constructor; [|apply IH].
  pose proof (parentPointAt_note _ _ _ _ _ Epoint) as Hnote.
  pose proof (note_in_folder settings v rank Htree k d note Ek Hnote) as Hparent.
  destruct (folderNoteOf_stored settings v _ _ Hnote) as (kn & Hkn).
  pose proof (file_under_path settings v rank Htree kn note Hkn) as Hpath.
  rewrite <- Hpath in Hkn.
  pose proof (notes_above_differ settings v rank k d n note Htree Ek Hkn Hparent) as Hall.
  intros Hin. apply in_map_iff in Hin as (point & Heq & Hin).
  rewrite List.Forall_forall in Hall. now apply (Hall point Hin).
Qed.

(** The texts after a run of regenerations of different notes, each of
    which rewrites its note. *)
Lemma foldl_regenerate_texts (v : Vault)
    (P : WaypointType * TFile -> string -> Prop)
    (points : list (WaypointType * TFile)) :
  List.NoDup (map (fun point : WaypointType * TFile => file_path (snd point)) points) ->
  Forall (fun point =>
            exists r,
              P point r
              /\ forall v0,
                   fileMap v0 = fileMap v -> metadataCache v0 = metadataCache v ->
                   read v0 (snd point) = read v (snd point) ->
                   regenerate (fileRowOf dateCell) settings v0 point
                   = modify v0 (snd point) r) points ->
  forall v0,
    fileMap v0 = fileMap v -> metadataCache v0 = metadataCache v ->
    Forall (fun point => read v0 (snd point) = read v (snd point)) points ->
    Forall (fun point =>
              P point (read (foldl (regenerate (fileRowOf dateCell) settings) v0 points)
                         (snd point))) points.
Proof.
  induction points as [|point points IH]; intros Hnodup Hall v0 Hmap Hmeta Hread;
    [constructor|].
  apply List.NoDup_cons_iff in Hnodup as [Hfresh Hnodup].
  apply Forall_cons in Hall as [(r & HP & Hregenerate) Hall].
  apply Forall_cons in Hread as [Hhere Hread].
  assert (Hothers : Forall (fun other : WaypointType * TFile =>
                              file_path (snd other) <> file_path (snd point)) points).
  { apply List.Forall_forall. intros other Hin Heq. apply Hfresh.
    apply in_map_iff. now exists other. }
  cbn [foldl]. rewrite (Hregenerate v0 Hmap Hmeta Hhere). constructor.
  - rewrite foldl_regenerate_read by exact Hothers. now rewrite read_modify.
  - apply IH; [exact Hnodup|exact Hall|exact Hmap|exact Hmeta|].
    rewrite List.Forall_forall in Hread, Hothers |- *. intros other Hin.
    rewrite read_modify_other; [now apply Hread|].
    intros Heq. now apply (Hothers other Hin).
Qed.

(** The note that holds the index of a folder is rewritten by its
    regeneration, from any state of the vault in which the tree, the
    front-matter and the note are as in [v]. *)
Lemma indexed_note_regenerates (v : Vault) (rank : string -> nat) (k : string)
    (a : TFolder) (point : WaypointType * TFile) :
  TreeVault settings v rank ->
  folderNoteType settings = INSIDE_FOLDER ->
  Forall compiles (ignorePaths settings) ->
  (forall flagType,
     acceptedFlag (getWaypointFlag settings flagType) = true
     /\ singleLine (getWaypointFlag settings flagType)) ->
  fileMap v !! k = Some (Folder a) ->
  Forall (fun child => is_Some (parentOf v child)) (childrenOf v (Folder a)) ->
  indexedNote settings v a = Some point ->
  exists r,
    regeneratedText (fileRowOf dateCell) settings v point r
    /\ forall v0,
         fileMap v0 = fileMap v -> metadataCache v0 = metadataCache v ->
         read v0 (snd point) = read v (snd point) ->
         regenerate (fileRowOf dateCell) settings v0 point = modify v0 (snd point) r.
Proof.
  intros Htree Hmode Hok Hflags Hk Hchildren Hpoint.
  pose proof Hpoint as Hfound. rewrite <- (parentPointAt_inside v a Hmode) in Hfound.
  destruct point as [flagType note].
  apply parentPointAt_note in Hfound.
  pose proof (note_in_folder settings v rank Htree k a note Hk Hfound) as Hparent.
  assert (Hp : parentOf v (File note) = Some a).
  { unfold parentOf. cbn [parent]. now rewrite Hparent, Hk. }
  assert (Hmarked : markedAs settings (read v note) = Some flagType).
  { unfold indexedNote in Hpoint.
    destruct (fileMap v !! (folder_path a +:+ "/" +:+ folder_name a +:+ ".md"))
      as [[note'|?]|]; [|discriminate..].
    destruct (markedAs settings (read v note')) as [kind|] eqn:E; [|discriminate].
    cbn in Hpoint. injection Hpoint as -> ->. exact E. }
  assert (Hrender : exists fileTree,
    renderFolderOf (fileRowOf dateCell) settings v note = Return fileTree).
  { unfold renderFolderOf. rewrite Hmode, String.eqb_refl, Hp.
    cbn [fmap option_fmap option_map].
    destruct (getFileTreeRepresentation_returns (fileRowOf dateCell) settings v a
                (Folder a) Hok Hchildren)
      as [->|(folderNote & listed & _ & ->)]; eexists; reflexivity. }
  destruct Hrender as [fileTree Hrender].
  destruct (Hflags flagType) as [Hacc Hline].
  destruct (Exists_first _ _
              (marker_gives_start_line settings flagType _ Hacc Hline
                 (markedAs_marker _ _ Hmarked)))
    as (pre & l & post & Hsplit & Hpre & Hl).
  destruct (updateWaypointText_found settings flagType fileTree (read v note)
              pre post l Hsplit Hpre Hl) as (r & Hr & Hlines).
  exists r. split.
  - exists fileTree, pre, l, post. cbn [fst snd]. repeat split; assumption.
  - intros v0 Hmap Hmeta Hread. cbn [snd] in Hread |- *. unfold regenerate. cbn [fst snd].
    assert (Hrender0 :
      renderFolderOf (fileRowOf dateCell) settings v0 note = Return fileTree).
    { rewrite <- Hrender.
      apply renderFolderOf_reads; [exact Hmap|exact Hmeta|now apply fileRowOf_reads]. }
    rewrite (updateWaypoint_rendered _ settings v0 note flagType fileTree Hrender0).
    now rewrite Hread, Hr.
Qed.

End RewriteFacts.

(** * The claims *)

(** C1 fails for a block inside a callout.  The end delimiter of such a
    block carries the prefix [>] and is not recognised by the comparison of
    line 259, so each pass replaces the begin line alone and leaves the old
    body below the new block: the second pass differs from the first.  The
    same on the vault of the examples, where nothing but the note's text
    changes between the passes: the note of [Projects] has 13 lines after the
    first [updateWaypoint], 24 after the second and 35 after the third. *)
Theorem callout_block_regeneration_grows :
  updateWaypointText DEFAULT_SETTINGS Waypoint (Str "T") "> %% Waypoint %%"
  = Some (join calloutBlock)
  /\ updateWaypointText DEFAULT_SETTINGS Waypoint (Str "T") (join calloutBlock)
     = Some (join calloutBlockOnce)
  /\ updateWaypointText DEFAULT_SETTINGS Waypoint (Str "T") (join calloutBlockOnce)
     = Some (join calloutBlockTwice)
  /\ join calloutBlockOnce <> join calloutBlockTwice
  /\ (v1 ← updateProjects calloutVault;
      v2 ← updateProjects v1;
      v3 ← updateProjects v2;
      Return (fileMap v3, metadataCache v3,
              length (split (read v1 projectsNote)),
              length (split (read v2 projectsNote)),
              length (split (read v3 projectsNote))))
     = Return (fileMap calloutVault, metadataCache calloutVault,
               13%nat, 24%nat, 35%nat).
Proof. repeat split; try reflexivity. discriminate. Qed.



(** In the vault of the examples the table written into the note of
    [Projects] is the one with the rows of [Archive], [Beta] and [Alpha]. *)
Example projects_note_dated :
  @renderFolderOf LiteralEngine (fileRowOf epochDateCell) DEFAULT_SETTINGS demoVault
    projectsNote = Return (Str datedTable).
Proof. vm_compute. reflexivity. Qed.


(** C3, as amended.  The rows of the rendered table are those of the
    children that are listed, each once.  The children without creation
    time come first, and with them the children whose creation time is [0];
    the others follow from the newest to the oldest: of two listed children
    created at times other than [0] the one created later has the upper row,
    and a child without creation time, or created at time [0], has its row
    above every child created at another time.  (Creation times are times in
    the range of dates.) *)
Theorem rows_newest_first {engine : RegExpEngine}
    (fileRow : Vault -> WaypointSettings -> list YamlValue -> TFile -> string)
    (settings : WaypointSettings) (v : Vault) (rootNode : TFolder)
    (node : TAbstractFile) (out : string) :
  Forall validTime (childrenOf v node) ->
  getFileTreeRepresentation fileRow settings v (Some rootNode) (Some node)
  = Return (Some out) ->
  exists (listed : list TAbstractFile) (keyList : list YamlValue),
    out = tableHeading settings v rootNode node
          +:+ tableHeader keyList
          +:+ String_concat (map (tableRow fileRow settings v node keyList) listed)
    /\ Permutation listed (List.filter (isListed settings v) (childrenOf v node))
    /\ StronglySorted rowOrder listed
    /\ (forall i j a b ta tb,
          listed !! i = Some a -> listed !! j = Some b ->
          ctimeOf a = Some ta -> ctimeOf b = Some tb ->
          tb <> 0 -> tb < ta ->
          (i < j)%nat)
    /\ (forall i j a b tb,
          listed !! i = Some a -> listed !! j = Some b ->
          untimed a -> ctimeOf b = Some tb -> tb <> 0 ->
          (i < j)%nat).
Proof.
  intros Hvalid Hout. unfold getFileTreeRepresentation in Hout.
  destruct (ignorePath settings (path node)) as [ignored|e]; [|discriminate].
  cbn [mbind Outcome_bind] in Hout. destruct ignored; [discriminate|].
  destruct (filterChildren settings v (Array_sort compareChildren (childrenOf v node))
              [] None) as [[listed folderNote]|e] eqn:Efilter; [|discriminate].
  cbn [mbind Outcome_bind] in Hout. injection Hout as <-.
  pose proof (filterChildren_listed settings v _ _ _ _ _ Efilter) as Hlisted.
  cbn [app] in Hlisted.
  destruct (filterChildren_sublist settings v _ _ _ _ _ Efilter) as (kept & Hk & Hsub).
  cbn [app] in Hk. subst kept.
  destruct (Array_sort_newestFirst _ Hvalid) as [Hsorted Hperm].
  assert (Hrows : StronglySorted rowOrder listed).
  { apply (StronglySorted_impl newestFirst); [exact newestFirst_rowOrder|].
    now apply (StronglySorted_sublist _ _ _ Hsub). }
  exists listed, (columnKeys v folderNote node).
  split; [reflexivity|]. split; [|split; [exact Hrows|split]].
  - rewrite Hlisted. now apply filter_Permutation.
  - intros i j a b ta tb Ha Hb Hta Htb Hnb Hlt.
    apply (rowOrder_index listed i j a b tb); try assumption.
    right. now exists ta.
  - intros i j a b tb Ha Hb Hnone Htb Hnb.
    apply (rowOrder_index listed i j a b tb); try assumption. now left.
Qed.

Lemma rows_newest_first_witness :
  exists (listed : list TAbstractFile) (keyList : list YamlValue),
    logTable
    = tableHeading DEFAULT_SETTINGS epochVault logFolder (Folder logFolder)
      +:+ tableHeader keyList
      +:+ String_concat
            (map (@tableRow (fileRowOf epochDateCell) DEFAULT_SETTINGS epochVault
                    (Folder logFolder) keyList) listed)
    /\ Permutation listed
         (List.filter (@isListed LiteralEngine DEFAULT_SETTINGS epochVault)
            (childrenOf epochVault (Folder logFolder)))
    /\ StronglySorted rowOrder listed
    /\ (forall i j a b ta tb,
          listed !! i = Some a -> listed !! j = Some b ->
          ctimeOf a = Some ta -> ctimeOf b = Some tb ->
          tb <> 0 -> tb < ta ->
          (i < j)%nat)
    /\ (forall i j a b tb,
          listed !! i = Some a -> listed !! j = Some b ->
          untimed a -> ctimeOf b = Some tb -> tb <> 0 ->
          (i < j)%nat).
Proof.
  apply (@rows_newest_first LiteralEngine (fileRowOf epochDateCell) DEFAULT_SETTINGS
           epochVault logFolder (Folder logFolder)).
  - exact log_children_valid.
  - vm_compute. reflexivity.
Defined.

(** C3, as stated, fails for a child created at time [0]: of three notes
    created at the times 200, 100 and 0, the one created at time [0] has the
    first row, above the two created after it. *)
Lemma epoch_child_comes_first :
  childrenOf epochVault (Folder logFolder)
  = [File logNote; File mayNote; File aprilNote; File epochNote]
  /\ ctimeOf (File mayNote) = Some 200
  /\ ctimeOf (File aprilNote) = Some 100
  /\ ctimeOf (File epochNote) = Some 0
  /\ @getFileTreeRepresentation LiteralEngine (fileRowOf epochDateCell) DEFAULT_SETTINGS
       epochVault (Some logFolder) (Some (Folder logFolder))
     = Return (Some logTable)
  /\ drop 5 (split logTable)
     = ["|[[Log/Epoch.md\|Epoch]]|1970-01-01 (Thu)|";
        "|[[Log/May.md\|May]]|1970-01-01 (Thu)|";
        "|[[Log/April.md\|April]]|1970-01-01 (Thu)|";
        EmptyString].
Proof. repeat split; vm_compute; reflexivity. Qed.

(** C4, as amended.  When every non-empty pattern compiles, [ignorePath]
    returns, and it returns [true] exactly when the path matches one of the
    non-empty patterns read as a regular expression; empty patterns are
    passed over.  When some non-empty pattern does not compile, the call
    raises the [SyntaxError] of [new RegExp]. *)
Theorem ignorePath_iff_some_pattern_matches {engine : RegExpEngine}
    (settings : WaypointSettings) (path : string) :
  (Forall compiles (ignorePaths settings) ->
   exists b,
     ignorePath settings path = Return b
     /\ (b = true <-> Exists (matchesPattern path) (ignorePaths settings)))
  /\ (~ Forall compiles (ignorePaths settings) ->
      ignorePath settings path = Throw SyntaxError).
Proof.
  unfold ignorePath. split.
  - intros Hok.
    destruct (ignorePath_forEach_ok path (ignorePaths settings) Hok false)
      as (b & Hb & Hiff).
    exists b. split; [exact Hb|]. rewrite Hiff. intuition discriminate.
  - intros Hbad. apply ignorePath_forEach_malformed. now apply not_all_compile.
Qed.

Lemma ignorePath_iff_some_pattern_matches_witness :
  exists b,
    @ignorePath LiteralEngine (withIgnorePaths [EmptyString; "_attachments"])
      "Projects/_attachments" = Return b
    /\ (b = true <->
        Exists (@matchesPattern LiteralEngine "Projects/_attachments")
          [EmptyString; "_attachments"]).
Proof.
  apply (proj1 (@ignorePath_iff_some_pattern_matches LiteralEngine
                  (withIgnorePaths [EmptyString; "_attachments"])
                  "Projects/_attachments")).
  constructor; [left; reflexivity|].
  constructor; [right; eexists; reflexivity|constructor].
Defined.

(** C4, as stated, fails: a pattern that does not compile is not treated as
    non-matching, the call raises the [SyntaxError] of [new RegExp]. *)
Lemma ignorePath_malformed_pattern_throws :
  @ignorePath LiteralEngine (withIgnorePaths ["("]) "Projects/Alpha.md"
  = Throw SyntaxError.
Proof. reflexivity. Qed.

(** C5.  For a note of the root folder that is not a folder note and holds
    the trigger flag of a kind, [detectFlag] regenerates nothing: it
    overwrites, in place, the last line that holds the flag with the error
    comment, which names the kind, and returns. *)
Theorem detectFlag_in_root_prints_error {engine : RegExpEngine}
    (fileRow : Vault -> WaypointSettings -> list YamlValue -> TFile -> string)
    (settings : WaypointSettings) (fuel : nat) (v : Vault) (file : TFile)
    (flagType : WaypointType) (root : TFolder) :
  parentOf v (File file) = Some root ->
  isRoot root = true ->
  isFolderNote settings v file = Return false ->
  Exists (fun line => includes (trim line) (getWaypointFlag settings flagType) = true)
    (split (read v file)) ->
  exists i line,
    split (read v file) !! i = Some line
    /\ includes (trim line) (getWaypointFlag settings flagType) = true
    /\ Forall (fun x => includes (trim x) (getWaypointFlag settings flagType) = false)
         (drop (S i) (split (read v file)))
    /\ detectFlag fileRow settings fuel v file flagType
       = Some (Return
                 (modify v file
                    (join (<[i := rootError flagType]> (split (read v file)))), []))
    /\ includes (rootError flagType) (WaypointType_value flagType) = true.
Proof.
  intros Hparent Hroot Hnote Hex.
  destruct (findLastIndex_exists
              (fun x => includes (trim x) (getWaypointFlag settings flagType)) _ Hex)
    as [i Hi].
  destruct (findLastIndex_Some _ _ _ Hi) as (line & Hline & Hflag & Hlast).
  exists i, line. repeat split; [assumption..| |now destruct flagType].
  unfold detectFlag. rewrite detectFlag_for_found by assumption.
  unfold detectFlag_found. rewrite Hnote, Hparent, Hroot.
  now rewrite (printError_last settings v file _ flagType i Hi).
Qed.

Lemma detectFlag_in_root_prints_error_witness :
  exists i line,
    split (read demoVault indexNote) !! i = Some line
    /\ includes (trim line) (getWaypointFlag DEFAULT_SETTINGS Waypoint) = true
    /\ Forall (fun x => includes (trim x) (getWaypointFlag DEFAULT_SETTINGS Waypoint) = false)
         (drop (S i) (split (read demoVault indexNote)))
    /\ @detectFlag LiteralEngine titleOnlyRow DEFAULT_SETTINGS 0 demoVault indexNote Waypoint
       = Some (Return
                 (modify demoVault indexNote
                    (join (<[i := rootError Waypoint]>
                             (split (read demoVault indexNote)))), []))
    /\ includes (rootError Waypoint) (WaypointType_value Waypoint) = true.
Proof.
  apply (@detectFlag_in_root_prints_error LiteralEngine titleOnlyRow DEFAULT_SETTINGS
           0 demoVault indexNote Waypoint rootFolder).
  - reflexivity.
  - reflexivity.
  - reflexivity.
  - constructor. reflexivity.
Defined.

(** C6 fails for [printError].  In a note with two flag lines
    [updateWaypoint] replaces the first and keeps the second, but
    [printError], whose loop has no [break], overwrites the second and keeps
    the first. *)
Theorem printError_overwrites_last_flag :
  updateWaypointText DEFAULT_SETTINGS Waypoint (Str "T") (join twoFlags)
  = Some (join ["%% Begin Waypoint %%"; "T"; EmptyString; "%% End Waypoint %%";
                "notes"; "%% Waypoint %%"])
  /\ printErrorText DEFAULT_SETTINGS (rootError Waypoint) Waypoint (join twoFlags)
     = Some (join ["%% Waypoint %%"; "notes"; rootError Waypoint]).
Proof. split; reflexivity. Qed.

(** C7, as amended.  When the start line opens a callout (its trimmed text
    begins with [>]), every line of the new block carries the prefix [>], and
    the one-line type label comes first exactly when that start line holds
    the trigger flag.  Outside a callout the block is written without prefix
    and without label.  The lines around the block are kept. *)
Theorem updateWaypoint_callout_lines (settings : WaypointSettings)
    (flagType : WaypointType) (fileTree : Value) (text : string)
    (pre post : list string) (l : string) :
  split text = pre ++ l :: post ->
  Forall (fun x => isStartLine (getWaypointFlag settings flagType)
                     (fst (getWaypointBounds flagType)) x = false) pre ->
  isStartLine (getWaypointFlag settings flagType)
    (fst (getWaypointBounds flagType)) l = true ->
  let block :=
    fst (getWaypointBounds flagType)
      :: split (toString fileTree) ++ [EmptyString; snd (getWaypointBounds flagType)] in
  let label :=
    if includes (trim l) (getWaypointFlag settings flagType)
    then [calloutLabel flagType] else [] in
  exists r,
    updateWaypointText settings flagType fileTree text = Some r
    /\ split r =
       pre
       ++ (if startsWith (trim l) ">"
           then map (fun line => ">" +:+ line) (label ++ block)
           else block)
       ++ afterBlock (snd (getWaypointBounds flagType)) post.
Proof.
  intros Hsplit Hpre Hl block label.
  destruct (updateWaypointText_found settings flagType fileTree text pre post l
              Hsplit Hpre Hl) as (r & Hr & Hlines).
  exists r. split; [exact Hr|]. exact Hlines.
Qed.

Lemma updateWaypoint_callout_lines_witness :
  exists r,
    updateWaypointText DEFAULT_SETTINGS Waypoint (Str demoTable)
      ("intro" +:+ String LF ("> %% Waypoint %%" +:+ String LF "outro")) = Some r
    /\ split r =
       ["intro"]
       ++ map (fun line => ">" +:+ line)
            ([calloutLabel Waypoint]
             ++ BEGIN_WAYPOINT :: split demoTable ++ [EmptyString; END_WAYPOINT])
       ++ ["outro"].
Proof.
  apply (updateWaypoint_callout_lines DEFAULT_SETTINGS Waypoint (Str demoTable)
           ("intro" +:+ String LF ("> %% Waypoint %%" +:+ String LF "outro"))
           ["intro"] ["outro"] "> %% Waypoint %%").
  - reflexivity.
  - repeat constructor.
  - reflexivity.
Defined.

(** C7, as stated, fails: a trigger flag outside a callout is the start line
    of a first generation, yet the block that replaces it starts with the
    begin delimiter and holds no type label. *)
Lemma plain_flag_gets_no_label :
  includes (trim "%% Waypoint %%") (getWaypointFlag DEFAULT_SETTINGS Waypoint) = true
  /\ updateWaypointText DEFAULT_SETTINGS Waypoint (Str "T") "%% Waypoint %%"
     = Some ("%% Begin Waypoint %%" +:+ String LF ("T" +:+ String LF
               (String LF "%% End Waypoint %%")))
  /\ includes ("%% Begin Waypoint %%" +:+ String LF ("T" +:+ String LF
                 (String LF "%% End Waypoint %%"))) (calloutLabel Waypoint) = false.
Proof. repeat split; reflexivity. Qed.

(** C8, as amended.  In a vault that is a tree [updateParentPoint] returns
    for every folder once the fuel exceeds the folder's height: the walk
    climbs the chain of ancestors and stops at the top.  It leaves the tree,
    the front-matter and every note it does not report as they were, and
    when it reports no note it returns the vault as it was.  In Inside mode
    the notes it reports are the notes named after the folders of the chain
    whose text holds a marker, from the nearest upwards.  Each of them is
    rewritten, the block at its first start line being replaced by the block
    around the table rendered for its folder, when the ignore patterns
    compile and the flags are as the settings tab accepts them, on one line.
    (The children of the folders of the chain have their parent in the
    vault.) *)
Theorem updateParentPoint_terminates {engine : RegExpEngine}
    (dateCell : option (gmap string YamlValue) -> TFile -> string)
    (settings : WaypointSettings) (v : Vault) (rank : string -> nat)
    (k : string) (d : TFolder) (includeCurrentNode : bool) :
  TreeVault settings v rank ->
  fileMap v !! k = Some (Folder d) ->
  let start := if includeCurrentNode then Some k else folder_parent d in
  let chain := ancestorChain (S (rank k)) v start in
  exists v' updated,
    (forall fuel,
       (rank k + 2 <= fuel)%nat ->
       updateParentPoint (fileRowOf dateCell) settings fuel v (Folder d) includeCurrentNode
       = Some (v', updated))
    /\ fileMap v' = fileMap v
    /\ metadataCache v' = metadataCache v
    /\ (forall other,
          Forall (fun point : WaypointType * TFile =>
                    file_path (snd point) <> file_path other) updated ->
          read v' other = read v other)
    /\ (updated = [] -> v' = v)
    /\ (folderNoteType settings = INSIDE_FOLDER ->
        updated = omap (indexedNote settings v) chain)
    /\ (folderNoteType settings = INSIDE_FOLDER ->
        Forall compiles (ignorePaths settings) ->
        (forall flagType,
           acceptedFlag (getWaypointFlag settings flagType) = true
           /\ singleLine (getWaypointFlag settings flagType)) ->
        (forall a, In a chain ->
                   Forall (fun child => is_Some (parentOf v child))
                     (childrenOf v (Folder a))) ->
        Forall (fun point =>
                  regeneratedText (fileRowOf dateCell) settings v point
                    (read v' (snd point))) updated).
Proof.
  intros Htree Hk start chain.
  set (updated := omap (fun a => parentPointAt settings v (Folder a)) chain).
  exists (foldl (regenerate (fileRowOf dateCell) settings) v updated), updated.
  split; [|split; [|split; [|split; [|split; [|split]]]]].
  - intros fuel Hfuel. destruct fuel as [|fuel]; [lia|].
    rewrite updateParentPoint_unfold. unfold locateParentPoint.
    assert (Hstart : (if includeCurrentNode then Some (Folder d)
                      else Folder <$> parentOf v (Folder d)) = folderAt v start).
    { subst start. destruct includeCurrentNode.
      - cbn [folderAt]. now rewrite Hk.
      - unfold parentOf, folderAt. cbn [parent].
        destruct (folder_parent d) as [q|]; [|reflexivity].
        now destruct (fileMap v !! q) as [[?|?]|]. }
    rewrite Hstart.
    apply (propagation_from (fileRowOf dateCell) settings v rank Htree
             (S (rank k)) v start).
    + subst start. destruct includeCurrentNode; [reflexivity|].
      destruct (folder_parent d) as [q|] eqn:Eq; [|cbn; lia].
      pose proof (parent_above settings v rank Htree k (Folder d) q Hk Eq).
      cbn [startBound]. lia.
    + reflexivity.
    + reflexivity.
    + lia.
    + lia.
  - apply foldl_regenerate_fileMap.
  - apply foldl_regenerate_fileMap.
  - intros other Hother. now apply foldl_regenerate_read.
  - intros Hnone. now rewrite Hnone.
  - intros Hmode. now apply omap_parentPointAt_inside.
  - intros Hmode Hok Hflags Hchildren.
    apply (foldl_regenerate_texts dateCell settings v).
    + now apply (chain_notes_NoDup settings v rank).
    + apply List.Forall_forall. intros point Hin.
      apply list_elem_of_In, list_elem_of_omap in Hin as (a & Ha & Hpoint).
      rewrite (parentPointAt_inside settings v a Hmode) in Hpoint.
      destruct (ancestorChain_rank settings v rank Htree _ _ _ Ha) as (ka & Hka & _).
      apply (indexed_note_regenerates dateCell settings v rank ka a); try assumption.
      apply Hchildren. now apply list_elem_of_In.
    + reflexivity.
    + reflexivity.
    + apply List.Forall_forall. reflexivity.
Qed.

Lemma updateParentPoint_terminates_witness :
  let chain :=
    ancestorChain (S (demoRank "Projects/Archive")) demoVault (Some "Projects/Archive") in
  exists v' updated,
    (forall fuel,
       (demoRank "Projects/Archive" + 2 <= fuel)%nat ->
       @updateParentPoint LiteralEngine (fileRowOf epochDateCell) DEFAULT_SETTINGS fuel
         demoVault (Folder archiveFolder) true
       = Some (v', updated))
    /\ fileMap v' = fileMap demoVault
    /\ metadataCache v' = metadataCache demoVault
    /\ (forall other,
          Forall (fun point : WaypointType * TFile =>
                    file_path (snd point) <> file_path other) updated ->
          read v' other = read demoVault other)
    /\ (updated = [] -> v' = demoVault)
    /\ updated = omap (indexedNote DEFAULT_SETTINGS demoVault) chain
    /\ Forall (fun point =>
                 @regeneratedText LiteralEngine (fileRowOf epochDateCell) DEFAULT_SETTINGS
                   demoVault point (read v' (snd point))) updated.
Proof.
  intros chain.
  destruct (@updateParentPoint_terminates LiteralEngine epochDateCell DEFAULT_SETTINGS
              demoVault demoRank "Projects/Archive" archiveFolder true
              demoVault_tree eq_refl)
    as (v' & updated & Hrun & Hmap & Hmeta & Hframe & Hnone & Hupdated & Hrewritten).
  exists v', updated. repeat split; try assumption.
  - now apply Hupdated.
  - apply Hrewritten.
    + reflexivity.
    + constructor; [right; eexists; reflexivity|constructor].
    + intros []; split; reflexivity.
    + intros a Hin. vm_compute in Hin.
      destruct Hin as [<-|[<-|[<-|[]]]];
        repeat (constructor; [eexists; reflexivity|]); constructor.
Defined.

(** In the vault of the examples a change in [Projects/Archive] reaches the
    landmark of [Archive] and then the waypoint of [Projects]; both notes
    hold the table of their folder afterwards. *)
Example propagation_reaches_both_notes :
  (fun result : Vault * list (WaypointType * TFile) =>
     (snd result, read (fst result) archiveNote, read (fst result) projectsNote))
    <$> @updateParentPoint LiteralEngine (fileRowOf epochDateCell) DEFAULT_SETTINGS 4
          demoVault (Folder archiveFolder) true
  = Some ([(Landmark, archiveNote); (Waypoint, projectsNote)],
          join ["%% Begin Landmark %%";
                "# Archive";
                "[[Projects/Archive/new file.md\|new file]] | [[Projects/Archive/new folder/new folder.md\|new folder]]";
                EmptyString;
                "|TITLE|DATE|";
                "|---|---|";
                "|[[Projects/Archive/Old.md\|Old]]|1970-01-01 (Thu)|";
                EmptyString;
                EmptyString;
                "%% End Landmark %%"],
          join (BEGIN_WAYPOINT :: split datedTable ++ [EmptyString; END_WAYPOINT])).
Proof. vm_compute. reflexivity. Qed.

(** C8, as stated, fails when an ignore pattern does not compile.  The
    folder notes of [Projects/Archive] and of [Projects] both hold a marker
    and the call reports both, but it regenerates neither: each
    [updateWaypoint] raises the [SyntaxError] of [new RegExp], which is
    dropped, and the vault is returned as it was. *)
Lemma malformed_pattern_stops_regeneration :
  indexedNote (withIgnorePaths ["("]) demoVault archiveFolder
  = Some (Landmark, archiveNote)
  /\ indexedNote (withIgnorePaths ["("]) demoVault projectsFolder
     = Some (Waypoint, projectsNote)
  /\ @updateWaypoint LiteralEngine (fileRowOf epochDateCell) (withIgnorePaths ["("])
       demoVault archiveNote Landmark = Throw SyntaxError
  /\ @updateParentPoint LiteralEngine (fileRowOf epochDateCell) (withIgnorePaths ["("]) 4
       demoVault (Folder archiveFolder) true
     = Some (demoVault, [(Landmark, archiveNote); (Waypoint, projectsNote)])
  /\ read demoVault archiveNote = "%% Landmark %%"
  /\ read demoVault projectsNote = "%% Waypoint %%".
Proof. repeat split; vm_compute; reflexivity. Qed.

(** C9, as amended.  In Inside mode a note in the root folder, whose name
    is empty, is a folder note exactly when its base name equals the
    configured folder-note name (empty when no override is set); and the
    folder note looked up for the root is the entry at [//.md], absent from
    a vault of normalised paths. *)
Theorem isFolderNote_in_root (settings : WaypointSettings) (v : Vault)
    (file : TFile) (root : TFolder) :
  folderNoteType settings = INSIDE_FOLDER ->
  parentOf v (File file) = Some root ->
  folder_path root = "/" ->
  folder_name root = EmptyString ->
  getAbstractFileByPath v "//.md" = None ->
  isFolderNote settings v file
  = Return (String.eqb (basename file) (folderNoteName settings))
  /\ folderNoteOf settings v (Folder root) = None.
Proof.
  intros Hmode Hparent Hpath Hname Hnone.
  unfold isFolderNote, folderNoteOf. rewrite Hmode, String.eqb_refl, Hparent.
  cbn [path name]. rewrite Hpath, Hname. split; [|exact Hnone].
  destruct (String.eqb (folderNoteName settings) EmptyString) eqn:E; [|reflexivity].
  apply String.eqb_eq in E. now rewrite E.
Qed.

Lemma isFolderNote_in_root_witness :
  isFolderNote DEFAULT_SETTINGS demoVault indexNote
  = Return (String.eqb (basename indexNote) (folderNoteName DEFAULT_SETTINGS))
  /\ folderNoteOf DEFAULT_SETTINGS demoVault (Folder rootFolder) = None.
Proof.
  apply (isFolderNote_in_root DEFAULT_SETTINGS demoVault indexNote rootFolder);
    reflexivity.
Defined.

(** C9, as stated, fails: with the override name [index] configured, the
    note [index.md] of the root folder, which has no parent, is a folder
    note. *)
Lemma isFolderNote_root_override :
  parentOf demoVault (File indexNote) = Some rootFolder
  /\ isRoot rootFolder = true
  /\ folder_parent rootFolder = None
  /\ isFolderNote (withOverride "index") demoVault indexNote = Return true.
Proof. repeat split; reflexivity. Qed.

(** C10.  When the folder that a folder note renders is ignored, the
    renderer returns [null] and [updateWaypoint] still rewrites the note: the
    block it splices in has the one body line [null] between the
    delimiters. *)
Theorem ignored_folder_renders_null {engine : RegExpEngine}
    (fileRow : Vault -> WaypointSettings -> list YamlValue -> TFile -> string)
    (settings : WaypointSettings) (v : Vault) (file : TFile)
    (flagType : WaypointType) (target : TFolder) (pre post : list string) (l : string) :
  renderTarget settings v file = Some target ->
  ignorePath settings (folder_path target) = Return true ->
  split (read v file) = pre ++ l :: post ->
  Forall (fun x => isStartLine (getWaypointFlag settings flagType)
                     (fst (getWaypointBounds flagType)) x = false) pre ->
  isStartLine (getWaypointFlag settings flagType)
    (fst (getWaypointBounds flagType)) l = true ->
  getFileTreeRepresentation fileRow settings v (parentOf v (File file))
    (Some (Folder target)) = Return None
  /\ blockLines flagType Null
     = [fst (getWaypointBounds flagType); "null"; EmptyString;
        snd (getWaypointBounds flagType)]
  /\ exists r,
       updateWaypoint fileRow settings v file flagType = Return (modify v file r)
       /\ split r =
          pre
          ++ emittedLines flagType Null (startsWith (trim l) ">")
               (includes (trim l) (getWaypointFlag settings flagType))
          ++ afterBlock (snd (getWaypointBounds flagType)) post.
Proof.
  intros Htarget Hignored Hsplit Hpre Hl.
  assert (Hnull : getFileTreeRepresentation fileRow settings v (parentOf v (File file))
                    (Some (Folder target)) = Return None).
  { unfold getFileTreeRepresentation. cbn [path]. now rewrite Hignored. }
  split; [exact Hnull|]. split; [reflexivity|].
  destruct (updateWaypointText_found settings flagType Null (read v file) pre post l
              Hsplit Hpre Hl) as (r & Hr & Hlines).
  exists r. split; [|exact Hlines].
  unfold updateWaypoint, renderFolderOf. unfold renderTarget in Htarget.
  destruct (String.eqb (folderNoteType settings) INSIDE_FOLDER).
  - rewrite Htarget in Hnull |- *. cbn [fmap option_fmap option_map].
    rewrite Hnull. cbn. now rewrite Hr.
  - destruct (getCleanParentPath v (File file)) as [clean|e]; [|discriminate].
    cbn [mbind Outcome_bind].
    destruct (getAbstractFileByPath v (clean +:+ basename file)) as [[f|d]|];
      [discriminate| |discriminate].
    injection Htarget as ->. rewrite Hnull. cbn. now rewrite Hr.
Qed.

Lemma ignored_folder_renders_null_witness :
  @getFileTreeRepresentation LiteralEngine titleOnlyRow DEFAULT_SETTINGS demoVault
    (parentOf demoVault (File attachmentsNote)) (Some (Folder attachmentsFolder))
  = Return None
  /\ blockLines Waypoint Null
     = [BEGIN_WAYPOINT; "null"; EmptyString; END_WAYPOINT]
  /\ exists r,
       @updateWaypoint LiteralEngine titleOnlyRow DEFAULT_SETTINGS demoVault
         attachmentsNote Waypoint = Return (modify demoVault attachmentsNote r)
       /\ split r = [] ++ [BEGIN_WAYPOINT; "null"; EmptyString; END_WAYPOINT] ++ [].
Proof.
  apply (@ignored_folder_renders_null LiteralEngine titleOnlyRow DEFAULT_SETTINGS
           demoVault attachmentsNote Waypoint attachmentsFolder [] []
           "%% Waypoint %%").
  - reflexivity.
  - reflexivity.
  - reflexivity.
  - constructor.
  - reflexivity.
Defined.

(** * Further properties *)

(** X1.  Outside a callout a second [updateWaypoint] changes nothing.  The
    table is rendered from the tree and the front-matter, never from the
    text of a note, so it is the same after the first pass; and the second
    pass writes the block over itself, as long as no line of the table is an
    end delimiter. *)
Theorem updateWaypoint_twice_plain {engine : RegExpEngine}
    (dateCell : option (gmap string YamlValue) -> TFile -> string)
    (settings : WaypointSettings) (v : Vault) (file : TFile)
    (flagType : WaypointType) (fileTree : Value)
    (pre post : list string) (l : string) :
  renderFolderOf (fileRowOf dateCell) settings v file = Return fileTree ->
  split (read v file) = pre ++ l :: post ->
  Forall (fun x => isStartLine (getWaypointFlag settings flagType)
                     (fst (getWaypointBounds flagType)) x = false) pre ->
  isStartLine (getWaypointFlag settings flagType)
    (fst (getWaypointBounds flagType)) l = true ->
  startsWith (trim l) ">" = false ->
  Forall (fun x => isEndLine (snd (getWaypointBounds flagType)) x = false)
    (split (toString fileTree)) ->
  exists v1,
    updateWaypoint (fileRowOf dateCell) settings v file flagType = Return v1
    /\ renderFolderOf (fileRowOf dateCell) settings v1 file = Return fileTree
    /\ updateWaypoint (fileRowOf dateCell) settings v1 file flagType = Return v1.
Proof.
  intros Hrender Hsplit Hpre Hl Hplain Htree.
  destruct (updateWaypointText_idempotent_plain settings flagType fileTree (read v file)
              pre post l Hsplit Hpre Hl Hplain Htree) as (r & Hr & Hagain).
  exists (modify v file r).
  assert (Hrender' :
    renderFolderOf (fileRowOf dateCell) settings (modify v file r) file = Return fileTree).
  { rewrite <- Hrender. now apply renderFolderOf_reads. }
  split; [|split; [exact Hrender'|]].
  - rewrite (updateWaypoint_rendered _ settings v file flagType fileTree Hrender).
    now rewrite Hr.
  - rewrite (updateWaypoint_rendered _ settings _ file flagType fileTree Hrender').
    rewrite read_modify, Hagain. now rewrite modify_modify.
Qed.

Lemma updateWaypoint_twice_plain_witness :
  exists v1,
    @updateWaypoint LiteralEngine (fileRowOf (fun _ _ => "|")) DEFAULT_SETTINGS demoVault
      projectsNote Waypoint = Return v1
    /\ @renderFolderOf LiteralEngine (fileRowOf (fun _ _ => "|")) DEFAULT_SETTINGS v1
         projectsNote = Return (Str demoTable)
    /\ @updateWaypoint LiteralEngine (fileRowOf (fun _ _ => "|")) DEFAULT_SETTINGS v1
         projectsNote Waypoint = Return v1.
Proof.
  apply (@updateWaypoint_twice_plain LiteralEngine (fun _ _ => "|") DEFAULT_SETTINGS
           demoVault projectsNote Waypoint (Str demoTable) [] [] "%% Waypoint %%").
  - vm_compute. reflexivity.
  - reflexivity.
  - constructor.
  - reflexivity.
  - reflexivity.
  - eapply Forall_impl; [exact demoTable_clean|]. now intros x (_ & _ & H).
Defined.

(** X2.  [updateWaypoint] consumes the flag.  When the start line is the
    only line of the note that holds the flag, and neither the delimiters nor
    the rendered table hold it, no line holds the flag after the update, and
    [detectFlag] on the note as it was written does nothing: the change
    event that the update causes ends there. *)
Theorem updateWaypoint_consumes_flag {engine : RegExpEngine}
    (fileRow : Vault -> WaypointSettings -> list YamlValue -> TFile -> string)
    (settings : WaypointSettings) (v : Vault) (file : TFile)
    (flagType : WaypointType) (fileTree : Value)
    (pre post : list string) (l : string) (fuel : nat) :
  let flag := getWaypointFlag settings flagType in
  let holdsFlag := fun x => includes (trim x) flag in
  acceptedFlag flag = true ->
  includes (fst (getWaypointBounds flagType)) flag = false ->
  includes (snd (getWaypointBounds flagType)) flag = false ->
  renderFolderOf fileRow settings v file = Return fileTree ->
  Forall (fun x => holdsFlag x = false) (split (toString fileTree)) ->
  split (read v file) = pre ++ l :: post ->
  Forall (fun x => isStartLine flag (fst (getWaypointBounds flagType)) x = false) pre ->
  isStartLine flag (fst (getWaypointBounds flagType)) l = true ->
  Forall (fun x => holdsFlag x = false) post ->
  exists r,
    updateWaypoint fileRow settings v file flagType = Return (modify v file r)
    /\ countLines holdsFlag (split r) = 0%nat
    /\ detectFlag fileRow settings fuel (modify v file r) file flagType
       = Some (Return (modify v file r, [])).
Proof.
  intros flag holdsFlag Hacc Hb He Hrender Htree Hsplit Hpre Hl Hpost.
  destruct (updateWaypointText_found settings flagType fileTree (read v file)
              pre post l Hsplit Hpre Hl) as (r & Hr & Hlines).
  exists r.
  assert (Hclean : Forall (fun x => holdsFlag x = false) (split r)).
  { rewrite Hlines. apply Forall_app. split; [|apply Forall_app; split].
    - eapply Forall_impl; [exact Hpre|]. intros x Hx.
      unfold isStartLine in Hx. now apply orb_false_iff in Hx as [Hx _].
    - now apply emittedLines_hold_no_flag.
    - unfold afterBlock. destruct (findIndex _ post); [|exact Hpost].
      now apply Forall_drop. }
  split; [|split].
  - rewrite (updateWaypoint_rendered fileRow settings v file flagType fileTree Hrender).
    now rewrite Hr.
  - now apply countLines_none.
  - unfold detectFlag. rewrite read_modify. now apply detectFlag_for_none.
Qed.

Lemma updateWaypoint_consumes_flag_witness :
  exists r,
    @updateWaypoint LiteralEngine titleOnlyRow DEFAULT_SETTINGS calloutVault projectsNote
      Waypoint = Return (modify calloutVault projectsNote r)
    /\ countLines (fun x => includes (trim x) (getWaypointFlag DEFAULT_SETTINGS Waypoint))
         (split r) = 0%nat
    /\ @detectFlag LiteralEngine titleOnlyRow DEFAULT_SETTINGS 0
         (modify calloutVault projectsNote r) projectsNote Waypoint
       = Some (Return (modify calloutVault projectsNote r, [])).
Proof.
  apply (@updateWaypoint_consumes_flag LiteralEngine titleOnlyRow DEFAULT_SETTINGS
           calloutVault projectsNote Waypoint (Str demoTable) [] [] "> %% Waypoint %%" 0).
  - reflexivity.
  - reflexivity.
  - reflexivity.
  - vm_compute. reflexivity.
  - eapply Forall_impl; [exact demoTable_clean|]. now intros x (H & _).
  - reflexivity.
  - constructor.
  - reflexivity.
  - constructor.
Defined.

(** X3.  In Inside mode, for a note whose folder and whose folder's
    children have their parent in the vault, [updateWaypoint] fails in one case
    only: it returns when every non-empty ignore pattern compiles, and it
    raises the [SyntaxError] when one does not, whatever the note and the
    folder are.  One malformed pattern stops every regeneration. *)
Theorem updateWaypoint_fails_on_bad_pattern_only {engine : RegExpEngine}
    (fileRow : Vault -> WaypointSettings -> list YamlValue -> TFile -> string)
    (settings : WaypointSettings) (v : Vault) (file : TFile)
    (flagType : WaypointType) (folder : TFolder) :
  folderNoteType settings = INSIDE_FOLDER ->
  parentOf v (File file) = Some folder ->
  Forall (fun child => is_Some (parentOf v child)) (childrenOf v (Folder folder)) ->
  (Forall compiles (ignorePaths settings) ->
   exists v', updateWaypoint fileRow settings v file flagType = Return v'
              /\ fileMap v' = fileMap v)
  /\ (~ Forall compiles (ignorePaths settings) ->
      updateWaypoint fileRow settings v file flagType = Throw SyntaxError).
Proof.
  intros Hmode Hparent Hchildren.
  unfold updateWaypoint, renderFolderOf. rewrite Hmode, String.eqb_refl, Hparent.
  cbn [fmap option_fmap option_map]. unfold getFileTreeRepresentation, ignorePath.
  split.
  - intros Hok.
    assert (Hdone : forall fileTree,
      exists v',
        match updateWaypointText settings flagType fileTree (read v file) with
        | Some text => Return (modify v file text)
        | None => Return v
        end = Return v' /\ fileMap v' = fileMap v).
    { intros fileTree.
      destruct (updateWaypointText settings flagType fileTree (read v file));
        eexists; split; reflexivity. }
    destruct (ignorePath_forEach_ok (path (Folder folder)) (ignorePaths settings) Hok false)
      as (b & -> & _).
    cbn [mbind Outcome_bind]. destruct b; [apply Hdone|].
    destruct (filterChildren_returns settings v
                (Array_sort compareChildren (childrenOf v (Folder folder))) Hok) with
      (filtered := @nil TAbstractFile) (folderNote := @None TFile)
      as (result & folderNote' & Hfilter).
    + eapply Permutation_Forall; [|exact Hchildren].
      apply Permutation_sym, Array_sort_perm.
    + rewrite Hfilter. cbn [mbind Outcome_bind fmap Outcome_fmap]. apply Hdone.
  - intros Hbad.
    rewrite (ignorePath_forEach_malformed _ _ (not_all_compile _ Hbad)). reflexivity.
Qed.

Lemma updateWaypoint_fails_on_bad_pattern_only_witness :
  (Forall (@compiles LiteralEngine) (ignorePaths (withIgnorePaths ["("])) ->
   exists v',
     @updateWaypoint LiteralEngine titleOnlyRow (withIgnorePaths ["("]) demoVault
       projectsNote Waypoint = Return v'
     /\ fileMap v' = fileMap demoVault)
  /\ (~ Forall (@compiles LiteralEngine) (ignorePaths (withIgnorePaths ["("])) ->
      @updateWaypoint LiteralEngine titleOnlyRow (withIgnorePaths ["("]) demoVault
        projectsNote Waypoint = Throw SyntaxError).
Proof.
  apply (@updateWaypoint_fails_on_bad_pattern_only LiteralEngine titleOnlyRow
           (withIgnorePaths ["("]) demoVault projectsNote Waypoint projectsFolder).
  - reflexivity.
  - reflexivity.
  - exact demo_children_resolve.
Defined.

(** X4.  Whenever [locateParentPoint]'s test on a folder note answers with a
    kind, [updateWaypoint] for that kind finds a start line in the note and
    writes the block: the branch that reports a missing marker is not taken.
    (The flag of the kind is one the settings tab accepts, on one line.) *)
Theorem located_point_has_start_line (settings : WaypointSettings) (v : Vault)
    (folder : TAbstractFile) (flagType : WaypointType) (point : TFile)
    (fileTree : Value) :
  acceptedFlag (getWaypointFlag settings flagType) = true ->
  singleLine (getWaypointFlag settings flagType) ->
  parentPointAt settings v folder = Some (flagType, point) ->
  exists pre l post r,
    split (read v point) = pre ++ l :: post
    /\ Forall (fun x => isStartLine (getWaypointFlag settings flagType)
                          (fst (getWaypointBounds flagType)) x = false) pre
    /\ isStartLine (getWaypointFlag settings flagType)
         (fst (getWaypointBounds flagType)) l = true
    /\ updateWaypointText settings flagType fileTree (read v point) = Some r.
Proof.
  intros Hacc Hline Hpoint.
  assert (Hmarker :
    includes (read v point) (fst (getWaypointBounds flagType))
    || includes (read v point) (getWaypointFlag settings flagType) = true).
  { unfold parentPointAt in Hpoint.
    destruct (folderNoteOf settings v folder) as [[note|?]|]; [|discriminate..].
    destruct (includes (read v note) BEGIN_WAYPOINT
              || includes (read v note) (waypointFlag settings)) eqn:Ew.
    - injection Hpoint as <- <-. exact Ew.
    - destruct (includes (read v note) BEGIN_LANDMARK
                || includes (read v note) (landmarkFlag settings)) eqn:El;
        [|discriminate].
      injection Hpoint as <- <-. exact El. }
  destruct (Exists_first _ _ (marker_gives_start_line settings flagType _ Hacc Hline Hmarker))
    as (pre & l & post & Hsplit & Hpre & Hl).
  destruct (updateWaypointText_found settings flagType fileTree (read v point)
              pre post l Hsplit Hpre Hl) as (r & Hr & _).
  exists pre, l, post, r. repeat split; assumption.
Qed.

Lemma located_point_has_start_line_witness :
  exists pre l post r,
    split (read demoVault archiveNote) = pre ++ l :: post
    /\ Forall (fun x => isStartLine (getWaypointFlag DEFAULT_SETTINGS Landmark)
                          (fst (getWaypointBounds Landmark)) x = false) pre
    /\ isStartLine (getWaypointFlag DEFAULT_SETTINGS Landmark)
         (fst (getWaypointBounds Landmark)) l = true
    /\ updateWaypointText DEFAULT_SETTINGS Landmark (Str demoTable)
         (read demoVault archiveNote) = Some r.
Proof.
  apply (located_point_has_start_line DEFAULT_SETTINGS demoVault
           (Folder archiveFolder) Landmark archiveNote (Str demoTable));
    reflexivity.
Defined.

(** X5.  [updateParentPoint] and the calls it starts write to the notes
    they report and to nothing else: the tree and the front-matter are
    unchanged, every note outside the report reads as before, and every
    note of the report is a file of the vault. *)
Theorem updateParentPoint_touches_only_trace {engine : RegExpEngine}
    (fileRow : Vault -> WaypointSettings -> list YamlValue -> TFile -> string)
    (settings : WaypointSettings) (fuel : nat) (v : Vault) (node : TAbstractFile)
    (includeCurrentNode : bool) (v' : Vault) (updated : list (WaypointType * TFile)) :
  updateParentPoint fileRow settings fuel v node includeCurrentNode = Some (v', updated) ->
  fileMap v' = fileMap v
  /\ metadataCache v' = metadataCache v
  /\ (forall other,
        Forall (fun point => file_path (snd point) <> file_path other) updated ->
        read v' other = read v other)
  /\ Forall (fun point => exists k, fileMap v !! k = Some (File (snd point))) updated.
Proof.
  revert v node includeCurrentNode v' updated.
  induction fuel as [|fuel IH]; intros v node includeCurrentNode v' updated;
    [discriminate|].
  rewrite updateParentPoint_unfold.
  destruct (locateParentPoint settings (S fuel) v node includeCurrentNode)
    as [[point|]|] eqn:Elocate; [| |discriminate].
  - assert (Hstored : exists k, fileMap v !! k = Some (File (snd point))).
    { destruct (locateParentPoint_while_found settings _ _ _ _ Elocate) as (folder & Hf).
      destruct point as [flag note]. apply parentPointAt_note in Hf.
      now apply (folderNoteOf_stored settings v folder). }
    cbn [thenUpdate].
    destruct (parentOf (regenerate fileRow settings v point) (File (snd point)))
      as [p|].
    + destruct (updateParentPoint fileRow settings fuel
                  (regenerate fileRow settings v point) (Folder p) false)
        as [[v'' rest]|] eqn:Erest; [|discriminate].
      intros [= <- <-].
      destruct (IH _ _ _ _ _ Erest) as (Hmap & Hmeta & Hread & Hfiles).
      rewrite regenerate_fileMap in Hmap, Hfiles.
      rewrite regenerate_metadataCache in Hmeta.
      repeat split; [assumption..| |now constructor].
      intros other Hother. apply Forall_cons in Hother as [Hpoint Hother].
      rewrite (Hread other Hother). now apply regenerate_read_other.
    + intros [= <- <-].
      repeat split;
        [apply regenerate_fileMap|apply regenerate_metadataCache| |now repeat constructor].
      intros other Hother. apply Forall_cons in Hother as [Hpoint _].
      now apply regenerate_read_other.
  - intros [= <- <-]. repeat split. constructor.
Qed.

Lemma updateParentPoint_touches_only_trace_witness :
  let v' :=
    foldl (@regenerate LiteralEngine titleOnlyRow DEFAULT_SETTINGS) demoVault
      [(Landmark, archiveNote); (Waypoint, projectsNote)] in
  fileMap v' = fileMap demoVault
  /\ metadataCache v' = metadataCache demoVault
  /\ (forall other,
        Forall (fun point => file_path (snd point) <> file_path other)
          [(Landmark, archiveNote); (Waypoint, projectsNote)] ->
        read v' other = read demoVault other)
  /\ Forall (fun point => exists k, fileMap demoVault !! k = Some (File (snd point)))
       [(Landmark, archiveNote); (Waypoint, projectsNote)].
Proof.
  apply (@updateParentPoint_touches_only_trace LiteralEngine titleOnlyRow
           DEFAULT_SETTINGS 4 demoVault (Folder archiveFolder) true).
  vm_compute. reflexivity.
Defined.

(** X6.  Propagation looks for the note named after the folder, whatever
    folder-note name is configured.  In a folder that holds no note named
    after it, a change starts the same walk as from its parent folder, and no
    note stored in the folder is rewritten, the note that [isFolderNote]
    accepts under an override included. *)
Theorem propagation_passes_folder_without_named_note {engine : RegExpEngine}
    (fileRow : Vault -> WaypointSettings -> list YamlValue -> TFile -> string)
    (settings : WaypointSettings) (v : Vault) (rank : string -> nat)
    (k : string) (d : TFolder) (fuel : nat) :
  TreeVault settings v rank ->
  folderNoteType settings = INSIDE_FOLDER ->
  fileMap v !! k = Some (Folder d) ->
  getAbstractFileByPath v (folder_path d +:+ "/" +:+ folder_name d +:+ ".md") = None ->
  (rank k + 2 <= fuel)%nat ->
  exists v' updated,
    updateParentPoint fileRow settings fuel v (Folder d) true = Some (v', updated)
    /\ updateParentPoint fileRow settings fuel v (Folder d) false = Some (v', updated)
    /\ forall note,
         fileMap v !! file_path note = Some (File note) ->
         file_parent note = Some k ->
         read v' note = read v note.
Proof.
  intros Htree Hmode Hk Hnone Hfuel.
  destruct fuel as [|fuel]; [lia|].
  set (indexed := omap (fun a => parentPointAt settings v (Folder a))
                    (ancestorChain (rank k) v (folder_parent d))).
  exists (foldl (regenerate fileRow settings) v indexed), indexed.
  assert (Hhere : parentPointAt settings v (Folder d) = None).
  { unfold parentPointAt, folderNoteOf. rewrite Hmode, String.eqb_refl.
    cbn [path name]. now rewrite Hnone. }
  assert (Hbound : (startBound rank (folder_parent d) <= rank k)%nat).
  { destruct (folder_parent d) as [q|] eqn:Eq; [|cbn; lia].
    pose proof (parent_above settings v rank Htree k (Folder d) q Hk Eq).
    cbn [startBound]. lia. }
  assert (Hup : Folder <$> parentOf v (Folder d) = folderAt v (folder_parent d)).
  { unfold parentOf, folderAt. cbn [parent].
    destruct (folder_parent d) as [q|]; [|reflexivity].
    now destruct (fileMap v !! q) as [[?|?]|]. }
  assert (Hfalse :
    updateParentPoint fileRow settings (S fuel) v (Folder d) false
    = Some (foldl (regenerate fileRow settings) v indexed, indexed)).
  { rewrite updateParentPoint_unfold. unfold locateParentPoint. rewrite Hup.
    apply (propagation_from fileRow settings v rank Htree (rank k) v (folder_parent d));
      [assumption|reflexivity|reflexivity|lia|lia]. }
  split; [|split; [exact Hfalse|]].
  - rewrite updateParentPoint_unfold. unfold locateParentPoint.
    change (if true then Some (Folder d) else Folder <$> parentOf v (Folder d))
      with (Some (Folder d)).
    assert (Hfuel' : (rank k + 1 <= fuel)%nat) by lia.
    destruct fuel as [|fuel]; [lia|]. remember (S fuel) as fuel' eqn:Efuel.
    cbn [locateParentPoint_while]. rewrite Hhere, Hup.
    apply (propagation_from fileRow settings v rank Htree (rank k) v (folder_parent d));
      [assumption|reflexivity|reflexivity|lia|lia].
  - intros note Hstored Hparent. apply foldl_regenerate_read.
    now apply (notes_above_differ settings v rank k d).
Qed.

Lemma propagation_passes_folder_without_named_note_witness :
  exists v' updated,
    @updateParentPoint LiteralEngine titleOnlyRow (withOverride "README") 4 docsVault
      (Folder docsFolder) true = Some (v', updated)
    /\ @updateParentPoint LiteralEngine titleOnlyRow (withOverride "README") 4 docsVault
         (Folder docsFolder) false = Some (v', updated)
    /\ forall note,
         fileMap docsVault !! file_path note = Some (File note) ->
         file_parent note = Some "Docs" ->
         read v' note = read docsVault note.
Proof.
  apply (@propagation_passes_folder_without_named_note LiteralEngine titleOnlyRow
           (withOverride "README") docsVault demoRank "Docs" docsFolder 4).
  - exact (docsVault_tree "README").
  - reflexivity.
  - reflexivity.
  - reflexivity.
  - vm_compute. lia.
Defined.

(** In that vault [README.md] is the folder note of [Docs] for
    [isFolderNote], and the walk from [Docs] finds nothing. *)
Example override_note_is_not_located :
  isFolderNote (withOverride "README") docsVault readmeNote = Return true
  /\ @updateParentPoint LiteralEngine titleOnlyRow (withOverride "README") 4 docsVault
       (Folder docsFolder) true = Some (docsVault, []).
Proof. split; reflexivity. Qed.

(** X7.  The search of the command that goes to the parent waypoint starts
    at the folder of the current file, not above it: run in a folder note
    that holds a marker, it answers with that same note; a waypoint marker
    takes precedence over a landmark marker in the same note. *)
Theorem parent_point_of_marked_folder_note (settings : WaypointSettings) (v : Vault)
    (file : TFile) (folder : TFolder) (fuel : nat) :
  folderNoteType settings = INSIDE_FOLDER ->
  parentOf v (File file) = Some folder ->
  getAbstractFileByPath v (folder_path folder +:+ "/" +:+ folder_name folder +:+ ".md")
  = Some (File file) ->
  let text := read v file in
  let waypoint := includes text BEGIN_WAYPOINT || includes text (waypointFlag settings) in
  let landmark := includes text BEGIN_LANDMARK || includes text (landmarkFlag settings) in
  waypoint || landmark = true ->
  locateParentPoint settings (S fuel) v (File file) false
  = Some (Some (if waypoint then Waypoint else Landmark, file)).
Proof.
  intros Hmode Hparent Hnote text waypoint landmark Hmarked.
  unfold locateParentPoint. rewrite Hparent.
  cbn [fmap option_fmap option_map locateParentPoint_while].
  unfold parentPointAt, folderNoteOf. rewrite Hmode, String.eqb_refl.
  cbn [path name]. rewrite Hnote. fold text. fold waypoint. fold landmark.
  destruct waypoint; [reflexivity|]. cbn [orb] in Hmarked. now rewrite Hmarked.
Qed.

Lemma parent_point_of_marked_folder_note_witness :
  locateParentPoint DEFAULT_SETTINGS 1 demoVault (File archiveNote) false
  = Some (Some (if includes (read demoVault archiveNote) BEGIN_WAYPOINT
                   || includes (read demoVault archiveNote) (waypointFlag DEFAULT_SETTINGS)
                then Waypoint else Landmark, archiveNote)).
Proof.
  apply (parent_point_of_marked_folder_note DEFAULT_SETTINGS demoVault archiveNote
           archiveFolder 0); reflexivity.
Defined.



(** In the vault of the examples the landmark of [Archive] is regenerated
    and then the waypoint of [Projects]. *)
Example detectFlag_reaches_the_parent :
  snd <$> (default (Throw TypeError)
             (@detectFlag LiteralEngine titleOnlyRow DEFAULT_SETTINGS 3 demoVault
                archiveNote Landmark))
  = Return [(Landmark, archiveNote); (Waypoint, projectsNote)].
Proof. vm_compute. reflexivity. Qed.

(** X9.  For a note that lies outside the root folder and is not the folder
    note, [detectFlag] regenerates nothing, whatever the fuel: it overwrites
    the last line that holds the flag with the comment on invalid notes and
    leaves every other line, every other note and the tree as they were. *)
Theorem detectFlag_outside_folder_note {engine : RegExpEngine}
    (fileRow : Vault -> WaypointSettings -> list YamlValue -> TFile -> string)
    (settings : WaypointSettings) (fuel : nat) (v : Vault) (file : TFile)
    (flagType : WaypointType) (folder : TFolder) :
  parentOf v (File file) = Some folder ->
  isRoot folder = false ->
  isFolderNote settings v file = Return false ->
  Exists (fun line => includes (trim line) (getWaypointFlag settings flagType) = true)
    (split (read v file)) ->
  exists i line v',
    detectFlag fileRow settings fuel v file flagType = Some (Return (v', []))
    /\ split (read v file) !! i = Some line
    /\ includes (trim line) (getWaypointFlag settings flagType) = true
    /\ Forall (fun x => includes (trim x) (getWaypointFlag settings flagType) = false)
         (drop (S i) (split (read v file)))
    /\ split (read v' file) = <[i := invalidNoteError flagType]> (split (read v file))
    /\ fileMap v' = fileMap v
    /\ metadataCache v' = metadataCache v
    /\ forall other, file_path other <> file_path file -> read v' other = read v other.
Proof.
  intros Hparent Hroot Hnote Hex.
  destruct (findLastIndex_exists
              (fun x => includes (trim x) (getWaypointFlag settings flagType)) _ Hex)
    as [i Hi].
  destruct (findLastIndex_Some _ _ _ Hi) as (line & Hline & Hflag & Hlast).
  exists i, line, (printError settings v file (invalidNoteError flagType) flagType).
  split.
  { unfold detectFlag. rewrite detectFlag_for_found by assumption.
    unfold detectFlag_found. now rewrite Hnote, Hparent, Hroot. }
  repeat split; try assumption.
  - apply printError_lines; [|exact Hi]. now destruct flagType.
  - now rewrite (printError_last settings v file _ flagType i Hi).
  - now rewrite (printError_last settings v file _ flagType i Hi).
  - intros other Hother.
    rewrite (printError_last settings v file _ flagType i Hi).
    unfold read, modify. cbn [data]. now rewrite lookup_insert_ne.
Qed.

Lemma detectFlag_outside_folder_note_witness :
  exists i line v',
    @detectFlag LiteralEngine titleOnlyRow DEFAULT_SETTINGS 0
      strayFlagVault alphaNote Waypoint
    = Some (Return (v', []))
    /\ split (read strayFlagVault alphaNote) !! i
       = Some line
    /\ includes (trim line) (getWaypointFlag DEFAULT_SETTINGS Waypoint) = true
    /\ Forall (fun x => includes (trim x) (getWaypointFlag DEFAULT_SETTINGS Waypoint) = false)
         (drop (S i) (split (read strayFlagVault alphaNote)))
    /\ split (read v' alphaNote)
       = <[i := invalidNoteError Waypoint]>
           (split (read strayFlagVault alphaNote))
    /\ fileMap v' = fileMap strayFlagVault
    /\ metadataCache v' = metadataCache strayFlagVault
    /\ forall other, file_path other <> file_path alphaNote ->
         read v' other = read strayFlagVault other.
Proof.
  apply (@detectFlag_outside_folder_note LiteralEngine titleOnlyRow DEFAULT_SETTINGS 0
           strayFlagVault alphaNote Waypoint
           projectsFolder).
  - reflexivity.
  - reflexivity.
  - reflexivity.
  - constructor. reflexivity.
Defined.

(** X10.  [printError] with a one-line comment that does not hold the flag
    takes exactly one flag line away and keeps the number of lines: the note
    is free of flag lines after as many calls as it had flag lines. *)
Theorem printError_removes_one_flag_line (settings : WaypointSettings) (v : Vault)
    (file : TFile) (error : string) (flagType : WaypointType) :
  let holdsFlag := fun x => includes (trim x) (getWaypointFlag settings flagType) in
  Exists (fun line => holdsFlag line = true) (split (read v file)) ->
  singleLine error ->
  holdsFlag error = false ->
  let v' := printError settings v file error flagType in
  (countLines holdsFlag (split (read v' file)) + 1
   = countLines holdsFlag (split (read v file)))%nat
  /\ length (split (read v' file)) = length (split (read v file)).
Proof.
  intros holdsFlag Hex Herror Hclean v'.
  destruct (findLastIndex_exists holdsFlag _ Hex) as [i Hi].
  destruct (findLastIndex_Some _ _ _ Hi) as (x & Hx & Hflag & _).
  unfold v'. rewrite (printError_lines settings v file error flagType i Herror Hi).
  split.
  - pose proof (countLines_insert holdsFlag _ i x error Hx) as Hcount.
    rewrite Hflag, Hclean in Hcount. lia.
  - apply length_insert.
Qed.

Lemma printError_removes_one_flag_line_witness :
  (countLines (fun x => includes (trim x) (getWaypointFlag DEFAULT_SETTINGS Waypoint))
     (split (read (printError DEFAULT_SETTINGS demoVault indexNote
                     (rootError Waypoint) Waypoint) indexNote)) + 1
   = countLines (fun x => includes (trim x) (getWaypointFlag DEFAULT_SETTINGS Waypoint))
       (split (read demoVault indexNote)))%nat
  /\ length (split (read (printError DEFAULT_SETTINGS demoVault indexNote
                            (rootError Waypoint) Waypoint) indexNote))
     = length (split (read demoVault indexNote)).
Proof.
  apply (printError_removes_one_flag_line DEFAULT_SETTINGS demoVault indexNote
           (rootError Waypoint) Waypoint).
  - constructor. reflexivity.
  - reflexivity.
  - reflexivity.
Defined.

(** X11.  Neither error comment of [detectFlag] holds a flag that the
    settings tab accepts, unless the flag is the comment itself: writing the
    comment over a flag line leaves no new flag line behind. *)
Theorem error_comments_hold_no_flag (flagType : WaypointType) (flag : string) :
  acceptedFlag flag = true ->
  flag <> rootError flagType ->
  flag <> invalidNoteError flagType ->
  includes (trim (rootError flagType)) flag = false
  /\ includes (trim (invalidNoteError flagType)) flag = false.
Proof.
  intros Hacc Hroot Hinvalid. split.
  - destruct (includes (trim (rootError flagType)) flag) eqn:E; [|reflexivity].
    exfalso. apply Hroot. rewrite includes_trim_flag in E by assumption.
    apply (flag_in_comment (rootError flagType) flag); try assumption.
    + destruct flagType; vm_compute; reflexivity.
    + destruct flagType; vm_compute; reflexivity.
  - destruct (includes (trim (invalidNoteError flagType)) flag) eqn:E; [|reflexivity].
    exfalso. apply Hinvalid. rewrite includes_trim_flag in E by assumption.
    apply (flag_in_comment (invalidNoteError flagType) flag); try assumption.
    + destruct flagType; vm_compute; reflexivity.
    + destruct flagType; vm_compute; reflexivity.
Qed.

Lemma error_comments_hold_no_flag_witness :
  includes (trim (rootError Waypoint)) "%% Waypoint %%" = false
  /\ includes (trim (invalidNoteError Waypoint)) "%% Waypoint %%" = false.
Proof.
  apply (error_comments_hold_no_flag Waypoint "%% Waypoint %%");
    [reflexivity|discriminate|discriminate].
Defined.

(** X12.  What [getFileTreeRepresentation] returns as text is determined by
    the children in the order [sort] gave them.  The table has one row for
    each child that is listed, and no other row: a child is left out exactly
    when an ignore pattern matches its path, or when it is a file that
    [isFolderNote] accepts and folder notes are not shown.  The columns are
    those of the last child that is a folder note and not ignored, whether
    that note is shown or hidden. *)
Theorem rows_are_the_listed_children {engine : RegExpEngine}
    (fileRow : Vault -> WaypointSettings -> list YamlValue -> TFile -> string)
    (settings : WaypointSettings) (v : Vault) (rootNode : TFolder)
    (node : TAbstractFile) (out : string) :
  getFileTreeRepresentation fileRow settings v (Some rootNode) (Some node)
  = Return (Some out) ->
  let sorted := Array_sort compareChildren (childrenOf v node) in
  let listed := List.filter (isListed settings v) sorted in
  let keyList := columnKeys v (columnsNote settings v sorted) node in
  out = tableHeading settings v rootNode node
        +:+ tableHeader keyList
        +:+ String_concat (map (tableRow fileRow settings v node keyList) listed)
  /\ (forall child, In child listed <->
                    In child (childrenOf v node) /\ isListed settings v child = true)
  /\ (length listed <= length (childrenOf v node))%nat.
Proof.
  intros Hout sorted listed keyList. unfold getFileTreeRepresentation in Hout.
  destruct (ignorePath settings (path node)) as [ignored|e]; [|discriminate].
  cbn [mbind Outcome_bind] in Hout. destruct ignored; [discriminate|].
  fold sorted in Hout.
  destruct (filterChildren settings v sorted [] None)
    as [[result folderNote]|e] eqn:Efilter; [|discriminate].
  cbn [mbind Outcome_bind] in Hout. injection Hout as <-.
  pose proof (filterChildren_note settings v _ _ _ _ _ Efilter) as Hnote.
  apply filterChildren_listed in Efilter. cbn [app] in Efilter. subst result.
  assert (Hcolumns : folderNote = columnsNote settings v sorted)
    by (rewrite Hnote; now destruct (columnsNote settings v sorted)).
  rewrite Hcolumns.
  pose proof (Array_sort_perm compareChildren (childrenOf v node)) as Hperm.
  split; [reflexivity|]. split.
  - intros child. unfold listed. rewrite filter_In.
    split; intros [Hin Hlisted]; (split; [|exact Hlisted]).
    + now apply (Permutation_in _ Hperm).
    + now apply (Permutation_in _ (Permutation_sym Hperm)).
  - unfold listed. rewrite <- (Permutation_length Hperm). apply filter_length_le.
Qed.

Lemma rows_are_the_listed_children_witness :
  let sorted := Array_sort compareChildren (childrenOf demoVault (Folder projectsFolder)) in
  let listed := List.filter (@isListed LiteralEngine DEFAULT_SETTINGS demoVault) sorted in
  let keyList :=
    columnKeys demoVault (@columnsNote LiteralEngine DEFAULT_SETTINGS demoVault sorted)
      (Folder projectsFolder) in
  demoTable
  = tableHeading DEFAULT_SETTINGS demoVault projectsFolder (Folder projectsFolder)
    +:+ tableHeader keyList
    +:+ String_concat
          (map (@tableRow titleOnlyRow DEFAULT_SETTINGS demoVault
                  (Folder projectsFolder) keyList) listed)
  /\ (forall child, In child listed <->
                    In child (childrenOf demoVault (Folder projectsFolder))
                    /\ @isListed LiteralEngine DEFAULT_SETTINGS demoVault child = true)
  /\ (length listed <= length (childrenOf demoVault (Folder projectsFolder)))%nat.
Proof.
  apply (@rows_are_the_listed_children LiteralEngine titleOnlyRow DEFAULT_SETTINGS
           demoVault projectsFolder (Folder projectsFolder) demoTable).
  vm_compute. reflexivity.
Defined.

(** In the vault of the examples the note of [Projects] and the folder of
    attachments are left out. *)
Example listed_children_of_projects :
  List.filter (@isListed LiteralEngine DEFAULT_SETTINGS demoVault)
    (Array_sort compareChildren (childrenOf demoVault (Folder projectsFolder)))
  = [Folder archiveFolder; File betaNote; File alphaNote]
  /\ @columnsNote LiteralEngine DEFAULT_SETTINGS demoVault
       (Array_sort compareChildren (childrenOf demoVault (Folder projectsFolder)))
     = Some projectsNote.
Proof. split; vm_compute; reflexivity. Qed.

(** X13.  When what the renderer prints for a folder is free of line feeds,
    the table is a sequence of whole lines: three or five lines of heading
    (the title, the creation links and an empty line where there are links,
    the header and the separator), then one line per listed child, each
    beginning with a bar.  No line of the table is an end delimiter, of
    either kind: the block that [updateWaypoint] writes ends where the table
    ends. *)
Theorem table_is_made_of_lines {engine : RegExpEngine}
    (fileRow : Vault -> WaypointSettings -> list YamlValue -> TFile -> string)
    (settings : WaypointSettings) (v : Vault) (rootNode : TFolder)
    (node : TAbstractFile) (out : string) :
  PrintsLines fileRow settings v rootNode node ->
  getFileTreeRepresentation fileRow settings v (Some rootNode) (Some node)
  = Return (Some out) ->
  exists heading rows,
    split out = heading ++ rows ++ [EmptyString]
    /\ (length heading = 3 \/ length heading = 5)%nat
    /\ length rows
       = length (List.filter (isListed settings v)
                   (Array_sort compareChildren (childrenOf v node)))
    /\ Forall (fun line => startsWith line "|" = true) rows
    /\ forall flagType,
         Forall (fun line => isEndLine (snd (getWaypointBounds flagType)) line = false)
           (split out).
Proof.
  intros Hprints Hout. unfold getFileTreeRepresentation in Hout.
  destruct (ignorePath settings (path node)) as [ignored|e]; [|discriminate].
  cbn [mbind Outcome_bind] in Hout. destruct ignored; [discriminate|].
  destruct (filterChildren settings v (Array_sort compareChildren (childrenOf v node))
              [] None) as [[listed folderNote]|e] eqn:Efilter; [|discriminate].
  cbn [mbind Outcome_bind] in Hout. injection Hout as <-.
  apply filterChildren_listed in Efilter. cbn [app] in Efilter.
  assert (Hchildren : Forall (fun child => In child (childrenOf v node)) listed).
  { subst listed. apply Forall_forall. intros child Hin.
    apply list_elem_of_In, filter_In in Hin as [Hin _].
    apply (Permutation_in _ (Array_sort_perm compareChildren (childrenOf v node)) Hin). }
  destruct (rows_are_lines fileRow settings v rootNode node Hprints
              (columnKeys v folderNote node) listed Hchildren)
    as (rows & Hrows & Hlength & Hbars).
  destruct (heading_is_lines fileRow settings v rootNode node Hprints
              (columnKeys v folderNote node) (linesText rows)
              (keys_line _ _ _ _ _ Hprints folderNote))
    as (heading & Hheading & Hcount & Hsingle & Hclean).
  rewrite Hrows, Hheading, <- linesText_app.
  assert (Hsplit : split (linesText (heading ++ rows)) = heading ++ rows ++ [EmptyString]).
  { rewrite split_linesText, <- app_assoc; [reflexivity|].
    apply Forall_app. split; [exact Hsingle|].
    eapply Forall_impl; [exact Hbars|]. now intros line [H _]. }
  exists heading, rows. rewrite Hsplit.
  split; [reflexivity|]. split; [exact Hcount|].
  split; [now rewrite Hlength, Efilter|]. split.
  - eapply Forall_impl; [exact Hbars|]. now intros line [_ H].
  - intros flagType. apply Forall_app. split; [apply Hclean|].
    apply Forall_app. split.
    + eapply Forall_impl; [exact Hbars|]. intros line [_ H].
      now apply bar_not_end_line.
    + repeat constructor. apply empty_not_end_line.
Qed.

Lemma table_is_made_of_lines_witness :
  exists heading rows,
    split demoTable = heading ++ rows ++ [EmptyString]
    /\ (length heading = 3 \/ length heading = 5)%nat
    /\ length rows
       = length (List.filter (@isListed LiteralEngine DEFAULT_SETTINGS demoVault)
                   (Array_sort compareChildren
                      (childrenOf demoVault (Folder projectsFolder))))
    /\ Forall (fun line => startsWith line "|" = true) rows
    /\ forall flagType,
         Forall (fun line => isEndLine (snd (getWaypointBounds flagType)) line = false)
           (split demoTable).
Proof.
  apply (@table_is_made_of_lines LiteralEngine (fileRowOf (fun _ _ => "|"))
           DEFAULT_SETTINGS demoVault projectsFolder (Folder projectsFolder) demoTable).
  - exact demo_prints_lines.
  - vm_compute. reflexivity.
Defined.

(** X14.  Among children that all have a creation time, [sort] is stable:
    the children created at the same instant stand in the table in the order
    the folder lists them, and the whole order is from the newest to the
    oldest. *)
Theorem children_sort_is_stable (children : list TAbstractFile) (t : Z) :
  Forall validTime children ->
  Forall (fun child => lacksCtime child = false) children ->
  List.filter (createdAt t) (Array_sort compareChildren children)
  = List.filter (createdAt t) children
  /\ StronglySorted
       (fun a b => exists ta tb,
          ctimeOf a = Some ta /\ ctimeOf b = Some tb /\ tb <= ta)
       (Array_sort compareChildren children).
Proof.
  intros Hvalid Htimed. split.
  - unfold Array_sort. rewrite Array_sort_createdAt; try assumption; constructor.
  - destruct (Array_sort_newestFirst children Hvalid) as [Hsorted Hperm].
    assert (Hall : Forall (fun child => lacksCtime child = false)
                     (Array_sort compareChildren children)).
    { eapply Permutation_Forall; [apply Permutation_sym, Hperm|exact Htimed]. }
    now apply newestFirst_timed.
Qed.

Lemma children_sort_is_stable_witness :
  List.filter (createdAt 100)
    (Array_sort compareChildren [File alphaNote; File betaNote; File (mkFile "Projects" "Gamma" 100)])
  = List.filter (createdAt 100)
      [File alphaNote; File betaNote; File (mkFile "Projects" "Gamma" 100)]
  /\ StronglySorted
       (fun a b => exists ta tb,
          ctimeOf a = Some ta /\ ctimeOf b = Some tb /\ tb <= ta)
       (Array_sort compareChildren
          [File alphaNote; File betaNote; File (mkFile "Projects" "Gamma" 100)]).
Proof.
  apply (children_sort_is_stable
           [File alphaNote; File betaNote; File (mkFile "Projects" "Gamma" 100)] 100).
  - repeat (apply Forall_cons; split;
            [intros t Ht; cbn in Ht; injection Ht as <-; cbn; lia|]).
    apply Forall_nil. exact I.
  - repeat (apply Forall_cons; split; [reflexivity|]). apply Forall_nil. exact I.
Defined.

(** X15.  In Inside mode the title link of a folder's row and
    [isFolderNote] agree on the folder note, with or without a configured
    name: for a note that lies in the folder under its base name and that
    [isFolderNote] accepts, the link of the folder's row points to the note. *)
Theorem folder_row_links_to_accepted_note (settings : WaypointSettings) (v : Vault)
    (node : TAbstractFile) (folder : TFolder) (file : TFile) :
  folderNoteType settings = INSIDE_FOLDER ->
  parentOf v (File file) = Some folder ->
  file_path file = folder_path folder +:+ "/" +:+ basename file +:+ ".md" ->
  isFolderNote settings v file = Return true ->
  folderLinkPath settings v node folder = file_path file
  /\ folderCell settings v node folder (YString "TITLE")
     = if useWikiLinks settings
       then "|[[" +:+ file_path file +:+ "\|" +:+ folder_name folder +:+ "]]"
       else "|[" +:+ folder_name folder +:+ "]("
            +:+ replaceAll (file_path file) " " "%20" +:+ ")".
Proof.
  intros Hmode Hparent Hpath Hnote.
  assert (Hlink : folderLinkPath settings v node folder = file_path file).
  { unfold folderLinkPath, isFolderNote in *.
    rewrite Hmode, String.eqb_refl in *. rewrite Hparent in Hnote.
    destruct (String.eqb (folderNoteName settings) EmptyString);
      injection Hnote as Hname; apply String.eqb_eq in Hname;
      now rewrite Hpath, Hname. }
  split; [exact Hlink|]. unfold folderCell. cbn [String.eqb Ascii.eqb orb].
  now rewrite Hlink.
Qed.

Lemma folder_row_links_to_accepted_note_witness :
  folderLinkPath (withOverride "README") docsVault (Folder docsFolder) docsFolder
  = file_path readmeNote
  /\ folderCell (withOverride "README") docsVault (Folder docsFolder) docsFolder
       (YString "TITLE")
     = if useWikiLinks (withOverride "README")
       then "|[[" +:+ file_path readmeNote +:+ "\|" +:+ folder_name docsFolder +:+ "]]"
       else "|[" +:+ folder_name docsFolder +:+ "]("
            +:+ replaceAll (file_path readmeNote) " " "%20" +:+ ")".
Proof.
  apply (folder_row_links_to_accepted_note (withOverride "README") docsVault
           (Folder docsFolder) docsFolder readmeNote); reflexivity.
Defined.

(** X16.  [replaceAll] with a blank and [%20], which builds the target of a
    link in Markdown style, leaves no blank in the target and changes nothing
    else: a path without blank is its own target, whatever other signs it
    holds. *)
Theorem link_target_has_no_blank (settings : WaypointSettings) (v : Vault)
    (node : TAbstractFile) (folder : TFolder) :
  useWikiLinks settings = false ->
  let target := replaceAll (folderLinkPath settings v node folder) " " "%20" in
  folderCell settings v node folder (YString "TITLE")
  = "|[" +:+ folder_name folder +:+ "](" +:+ target +:+ ")"
  /\ includes target " " = false
  /\ (includes (folderLinkPath settings v node folder) " " = false ->
      target = folderLinkPath settings v node folder).
Proof.
  intros Hstyle target. split; [|split].
  - unfold folderCell. cbn [String.eqb Ascii.eqb orb]. now rewrite Hstyle.
  - subst target. induction (folderLinkPath settings v node folder) as [|c s IH];
      [reflexivity|].
    cbn [replaceAll]. destruct (Ascii.eqb c " ") eqn:E.
    + now rewrite includes_char_app, IH.
    + now rewrite includes_String, prefix_String, Ascii.eqb_sym, E, IH.
  - subst target. induction (folderLinkPath settings v node folder) as [|c s IH];
      [reflexivity|].
    rewrite includes_String, prefix_String, prefix_empty, andb_true_r.
    intros H. apply orb_false_iff in H as [Hc Hs].
    cbn [replaceAll]. rewrite Ascii.eqb_sym, Hc. now rewrite (IH Hs).
Qed.

Lemma link_target_has_no_blank_witness :
  let target :=
    replaceAll (folderLinkPath markdownLinks demoVault (Folder projectsFolder) archiveFolder)
      " " "%20" in
  folderCell markdownLinks demoVault (Folder projectsFolder) archiveFolder (YString "TITLE")
  = "|[" +:+ folder_name archiveFolder +:+ "](" +:+ target +:+ ")"
  /\ includes target " " = false
  /\ (includes (folderLinkPath markdownLinks demoVault (Folder projectsFolder) archiveFolder)
        " " = false ->
      target = folderLinkPath markdownLinks demoVault (Folder projectsFolder) archiveFolder).
Proof.
  apply (link_target_has_no_blank markdownLinks demoVault (Folder projectsFolder)
           archiveFolder).
  reflexivity.
Defined.

(** X17.  Whatever is chosen or typed in the settings tab, the two trigger
    flags stay flags that the tab accepts: a text that is refused puts the
    default flag back.  An accepted flag has at least five code units, begins
    with a percent sign and has no white space at its end, so that an empty
    or blank line never holds it. *)
Theorem settings_tab_keeps_flags_accepted (normalizePath : string -> string)
    (settings : WaypointSettings) (events : list TabEvent) :
  acceptedFlag (waypointFlag settings) = true ->
  acceptedFlag (landmarkFlag settings) = true ->
  let settings' := foldl (onChange normalizePath) settings events in
  Forall (fun flag =>
            acceptedFlag flag = true
            /\ (5 <= String.length flag)%nat
            /\ forall line, trim line = EmptyString -> includes (trim line) flag = false)
    [waypointFlag settings'; landmarkFlag settings'].
Proof.
  intros Hw Hl settings'.
  assert (Hkept : acceptedFlag (waypointFlag settings') = true
                  /\ acceptedFlag (landmarkFlag settings') = true).
  { subst settings'. revert settings Hw Hl.
    induction events as [|event events IH]; intros settings Hw Hl; [now split|].
    cbn [foldl]. apply IH; destruct event as [| | | | |value|value|];
      cbn [onChange]; try assumption;
      destruct (acceptedFlag value) eqn:E; cbn; assumption || reflexivity. }
  assert (Hshape : forall flag,
    acceptedFlag flag = true ->
    acceptedFlag flag = true
    /\ (5 <= String.length flag)%nat
    /\ forall line, trim line = EmptyString -> includes (trim line) flag = false).
  { intros flag Hacc. split; [exact Hacc|]. split.
    - now apply acceptedFlag_length.
    - intros line Hblank. rewrite Hblank.
      destruct (acceptedFlag_shape flag Hacc) as (rest & -> & _). reflexivity. }
  destruct Hkept as [Hw' Hl']. repeat constructor; now apply Hshape.
Qed.

Lemma settings_tab_keeps_flags_accepted_witness :
  let settings' :=
    foldl (onChange (fun path => path)) DEFAULT_SETTINGS
      [WaypointFlagChange "hello"; IgnorePathsChange EmptyString;
       LandmarkFlagChange "%% Index %%"; WaypointFlagChange "%%%"] in
  Forall (fun flag =>
            acceptedFlag flag = true
            /\ (5 <= String.length flag)%nat
            /\ forall line, trim line = EmptyString -> includes (trim line) flag = false)
    [waypointFlag settings'; landmarkFlag settings'].
Proof.
  apply (settings_tab_keeps_flags_accepted (fun path => path) DEFAULT_SETTINGS
           [WaypointFlagChange "hello"; IgnorePathsChange EmptyString;
            LandmarkFlagChange "%% Index %%"; WaypointFlagChange "%%%"]);
    reflexivity.
Defined.

(** X18.  Clearing the field of ignored paths, or leaving white space in
    it, stores the one empty pattern, which [ignorePath] passes over: no
    path is ignored any more, whatever the host's [normalizePath] and
    whatever the engine. *)
Theorem cleared_ignore_list_ignores_nothing {engine : RegExpEngine}
    (normalizePath : string -> string) (settings : WaypointSettings)
    (value path : string) :
  trim value = EmptyString ->
  ignorePaths (onChange normalizePath settings (IgnorePathsChange value)) = [EmptyString]
  /\ ignorePath (onChange normalizePath settings (IgnorePathsChange value)) path
     = Return false.
Proof.
  intros Hblank.
  assert (Hpaths : ignorePaths (onChange normalizePath settings (IgnorePathsChange value))
                   = [EmptyString]).
  { cbn [onChange withPaths ignorePaths]. rewrite Hblank. reflexivity. }
  split; [exact Hpaths|]. unfold ignorePath. rewrite Hpaths. reflexivity.
Qed.

Lemma cleared_ignore_list_ignores_nothing_witness :
  ignorePaths (onChange (fun path => path) DEFAULT_SETTINGS (IgnorePathsChange "  "))
  = [EmptyString]
  /\ @ignorePath LiteralEngine
       (onChange (fun path => path) DEFAULT_SETTINGS (IgnorePathsChange "  "))
       "Projects/_attachments" = Return false.
Proof.
  apply (@cleared_ignore_list_ignores_nothing LiteralEngine (fun path => path)
           DEFAULT_SETTINGS "  " "Projects/_attachments").
  reflexivity.
Defined.

(** X19.  The order of the ignore patterns plays no part: two lists with
    the same patterns give [ignorePath] the same answer for every path, the
    exception of a pattern that does not compile included. *)
Theorem ignorePath_order_irrelevant {engine : RegExpEngine}
    (settings settings' : WaypointSettings) (path : string) :
  Permutation (ignorePaths settings) (ignorePaths settings') ->
  ignorePath settings path = ignorePath settings' path.
Proof.
  unfold ignorePath. generalize (ignorePaths settings), (ignorePaths settings').
  intros patterns patterns' Hperm. generalize false.
  induction Hperm as [|p ps qs _ IH|p q ps|ps qs rs _ IH1 _ IH2]; intros found.
  - reflexivity.
  - cbn [ignorePath_forEach]. destruct (String.eqb p EmptyString); [apply IH|].
    destruct (RegExp_new p); [apply IH|reflexivity].
  - cbn [ignorePath_forEach].
    destruct (String.eqb p EmptyString), (String.eqb q EmptyString); try reflexivity.
    destruct (RegExp_new p) as [rp|], (RegExp_new q) as [rq|]; try reflexivity.
    now destruct (String_match path rp), (String_match path rq).
  - now rewrite IH1.
Qed.

Lemma ignorePath_order_irrelevant_witness :
  @ignorePath LiteralEngine (withIgnorePaths ["_attachments"; "("]) "Projects/Alpha.md"
  = @ignorePath LiteralEngine (withIgnorePaths ["("; "_attachments"]) "Projects/Alpha.md".
Proof.
  apply (@ignorePath_order_irrelevant LiteralEngine
           (withIgnorePaths ["_attachments"; "("]) (withIgnorePaths ["("; "_attachments"])
           "Projects/Alpha.md").
  apply perm_swap.
Defined.

(** X20.  [getParentFolder] cuts the path at its last slash: for a path
    made of a folder path, a slash and a name without slash, it returns the
    folder stored under the folder path, if there is one; for a path without
    slash it looks up the empty path, which is not the path of the root. *)
Theorem getParentFolder_cuts_last_slash (v : Vault) (dir name : string) :
  includes name "/" = false ->
  Folder <$> getParentFolder v (dir +:+ "/" +:+ name) = folderAt v (Some dir)
  /\ Folder <$> getParentFolder v name = folderAt v (Some EmptyString).
Proof.
  intros Hname. unfold getParentFolder, getAbstractFileByPath, folderAt, sliceInit.
  split.
  - change (dir +:+ "/" +:+ name) with (dir +:+ String "/" name).
    rewrite splitOn_app_sep, (splitOn_whole "/" name Hname), removelast_last.
    rewrite (joinWith_splitOn "/" dir).
    now destruct (fileMap v !! dir) as [[?|?]|].
  - rewrite (splitOn_whole "/" name Hname). cbn [removelast joinWith].
    now destruct (fileMap v !! EmptyString) as [[?|?]|].
Qed.

Lemma getParentFolder_cuts_last_slash_witness :
  Folder <$> getParentFolder demoVault ("Projects/Archive" +:+ "/" +:+ "Old.md")
  = folderAt demoVault (Some "Projects/Archive")
  /\ Folder <$> getParentFolder demoVault "Old.md" = folderAt demoVault (Some EmptyString).
Proof.
  apply (getParentFolder_cuts_last_slash demoVault "Projects/Archive" "Old.md").
  reflexivity.
Defined.

(** In the vault of the examples the parent of a deleted [Old.md] is
    [Archive], and a deleted note of the root folder has none. *)
Example getParentFolder_examples :
  getParentFolder demoVault "Projects/Archive/Old.md" = Some archiveFolder
  /\ getParentFolder demoVault "index.md" = None.
Proof. split; reflexivity. Qed.

(** X21.  [addZero] returns at least two code units for every input, the
    text [NaN] of an invalid date included.  For the numbers [0] to [99], those
    the month and the day of a date lie in, it returns exactly two, which
    read back as the number, and it adds the zero exactly below [10]. *)
Theorem addZero_two_digits (n : Z) :
  0 <= n <= 99 ->
  String.length (addZero (Some n)) = 2%nat
  /\ Z.of_int <$> DecimalString.NilZero.int_of_string (addZero (Some n)) = Some n
  /\ (addZero (Some n) = Number_toString n <-> 10 <= n)
  /\ forall dt, (2 <= String.length (addZero dt))%nat.
Proof.
  intros Hn. pose proof (addZero_ok_below_100 n Hn) as Hok.
  unfold addZero_ok in Hok. rewrite !andb_true_iff in Hok.
  destruct Hok as [[Hlen Hvalue] Hpad].
  split; [now apply Nat.eqb_eq|]. split; [|split].
  - destruct (DecimalString.NilZero.int_of_string (addZero (Some n))) as [d|];
      [|discriminate].
    apply Z.eqb_eq in Hvalue. cbn. now rewrite Hvalue.
  - apply Bool.eqb_prop in Hpad. rewrite <- Z.leb_le, <- Hpad. symmetry. apply String.eqb_eq.
  - intros dt. unfold addZero.
    assert (Hne : match dt with Some m => Number_toString m | None => "NaN" end
                  <> EmptyString).
    { destruct dt; [apply Number_toString_not_empty|discriminate]. }
    cbv zeta. destruct (match dt with Some m => Number_toString m | None => "NaN" end)
      as [|c [|d rest]]; [contradiction|..];
      cbv [String.append String.length Nat.eqb]; lia.
Qed.

Lemma addZero_two_digits_witness :
  String.length (addZero (Some 7)) = 2%nat
  /\ Z.of_int <$> DecimalString.NilZero.int_of_string (addZero (Some 7)) = Some 7
  /\ (addZero (Some 7) = Number_toString 7 <-> 10 <= 7)
  /\ forall dt, (2 <= String.length (addZero dt))%nat.
Proof. apply (addZero_two_digits 7). lia. Defined.

(** X22.  [convertLink] returns a text value as it is unless the value is
    longer than twelve code units and begins with two opening brackets or
    with the scheme of a web address: a short link such as [[[Note]]] is not
    converted. *)
Theorem convertLink_only_long_links (s : string) (k : YamlValue) :
  convertLink (YString s) k <> s ->
  (12 < String.length s)%nat
  /\ (startsWith s "[[" = true
      \/ startsWith s "https://" = true
      \/ startsWith s "http://" = true).
Proof.
  unfold convertLink. intros Hchanged.
  destruct (12 <? String.length s)%nat eqn:Elong; [|contradiction].
  apply Nat.ltb_lt in Elong. split; [exact Elong|].
  destruct (String.eqb s "[[") eqn:Eempty.
  - apply String.eqb_eq in Eempty. subst s. cbn in Elong. lia.
  - destruct (startsWith s "[[") eqn:Ewiki; [now left|].
    destruct (startsWith s "https://") eqn:Ehttps; [now right; left|].
    destruct (startsWith s "http://") eqn:Ehttp; [now right; right|].
    contradiction.
Qed.

Lemma convertLink_only_long_links_witness :
  (12 < String.length "[[Projects/Alpha]]")%nat
  /\ (startsWith "[[Projects/Alpha]]" "[[" = true
      \/ startsWith "[[Projects/Alpha]]" "https://" = true
      \/ startsWith "[[Projects/Alpha]]" "http://" = true).
Proof.
  apply (convertLink_only_long_links "[[Projects/Alpha]]" (YString "link")).
  vm_compute. discriminate.
Defined.

(** X23.  For a wiki link of more than twelve code units, [convertLink]
    puts the column key as display text before the first pair of closing
    brackets and keeps what follows; the key holds no dollar sign, which
    [replace] would expand. *)
Theorem convertLink_wikilink (target rest : string) (k : YamlValue) :
  (12 < String.length ("[[" +:+ target +:+ "]]" +:+ rest))%nat ->
  includes (target +:+ "]") "]]" = false ->
  includes (YamlValue_toString k) "$" = false ->
  convertLink (YString ("[[" +:+ target +:+ "]]" +:+ rest)) k
  = "[[" +:+ target +:+ "\|" +:+ YamlValue_toString k +:+ "]]" +:+ rest.
Proof.
  intros Hlong Hfirst Hkey. unfold convertLink.
  rewrite (proj2 (Nat.ltb_lt _ _) Hlong).
  assert (Hne : String.eqb ("[[" +:+ target +:+ "]]" +:+ rest) "[[" = false).
  { apply String.eqb_neq. intros Heq. rewrite Heq in Hlong. cbn in Hlong. lia. }
  rewrite Hne.
  assert (Hwiki : startsWith ("[[" +:+ target +:+ "]]" +:+ rest) "[[" = true).
  { unfold startsWith.
    change ("[[" +:+ target +:+ "]]" +:+ rest)
      with (String "[" (String "[" (target +:+ "]]" +:+ rest))).
    now rewrite !prefix_String, prefix_empty. }
  rewrite Hwiki. unfold String_replace.
  change ("[[" +:+ target +:+ "]]" +:+ rest)
    with (("[[" +:+ target) +:+ "]]" +:+ rest).
  rewrite cutAtFirst_brackets.
  - rewrite GetSubstitution_plain; [now rewrite !append_assoc|].
    change ("\|" +:+ YamlValue_toString k +:+ "]]")
      with (String "\" (String "|" (YamlValue_toString k +:+ "]]"))).
    rewrite !includes_String, !prefix_String, includes_char_app, Hkey. reflexivity.
  - change (("[[" +:+ target) +:+ "]")
      with (String "[" (String "[" (target +:+ "]"))).
    rewrite !includes_String, !prefix_String, Hfirst. reflexivity.
Qed.

Lemma convertLink_wikilink_witness :
  convertLink (YString ("[[" +:+ "Projects/Alpha" +:+ "]]" +:+ " (draft)")) (YString "link")
  = "[[" +:+ "Projects/Alpha" +:+ "\|" +:+ YamlValue_toString (YString "link") +:+ "]]"
    +:+ " (draft)".
Proof.
  apply (convertLink_wikilink "Projects/Alpha" " (draft)" (YString "link"));
    [vm_compute; lia|reflexivity|reflexivity].
Defined.

(** A dollar sign in the key is expanded by [replace]: [$&] stands for the
    closing brackets that were matched. *)
Example convertLink_expands_dollar :
  convertLink (YString "[[Projects/Alpha]]") (YString "$&")
  = "[[Projects/Alpha\|]]]]".
Proof. reflexivity. Qed.

(** A front-matter value that is [null] is printed as the text [null]. *)
Example convertLink_null : convertLink YNull (YString "status") = "null".
Proof. reflexivity. Qed.
